(** * SRT codec of the Transcriptions scripts

    A shallow embedding of the subtitle code of [extract_mp3.py] and
    [lesson_pipeline.py]:

    - [format_srt_time] (both scripts), on Python floats, that is IEEE 754
      binary64 values, with the arithmetic of CPython's [float] type
      ([//], [%], [-], [*], [int]);
    - the loop of [transcribe_audio] that writes the [.srt] file (both
      scripts), as a state-and-error computation on the text of the file;
    - [srt_to_text] ([lesson_pipeline.py]), with Python's [re.sub] on the two
      patterns of the source and [str.strip];
    - the output paths of [extract_mp3], [replace_audio], [combine_videos]
      and [transcribe_audio] (both scripts), with [os.path] on POSIX and
      [os.path.isfile] as a function of the path;
    - the [if]/[elif] chain of [main] (both scripts), from the parsed
      arguments to the call it makes.

    Strings are Rocq strings: a character is a code point below 256
    (Latin-1), on which the digit class and the white space of Python are
    the ones defined below. *)

From Stdlib Require Import ZArith Lia List Bool Ascii String DecimalString.
From Stdlib Require Import DecimalPos.
From Stdlib Require Import SpecFloat.
Import ListNotations.

Local Open Scope string_scope.
Local Open Scope Z_scope.

(** ** Python strings *)

Module PyStr.

Definition newline : ascii := Ascii.ascii_of_nat 10.

Definition nl : string := String newline EmptyString.

(** [str.isspace] on one character, code points below 256:
    TAB, LF, VT, FF, CR, FS, GS, RS, US, SPACE, NEL, NBSP. *)
Definition isspace (c : ascii) : bool :=
  let n := N_of_ascii c in
  ((9 <=? n) && (n <=? 13))%N || ((28 <=? n) && (n <=? 32))%N
  || (n =? 133)%N || (n =? 160)%N.

(** [\d] of [re] on a [str] pattern, code points below 256. *)
Definition isdigit (c : ascii) : bool :=
  let n := N_of_ascii c in ((48 <=? n) && (n <=? 57))%N.

Fixpoint lstrip (s : string) : string :=
  match s with
  | EmptyString => EmptyString
  | String c s' => if isspace c then lstrip s' else s
  end.

Fixpoint rstrip (s : string) : string :=
  match s with
  | EmptyString => EmptyString
  | String c s' =>
      match rstrip s' with
      | EmptyString => if isspace c then EmptyString else String c EmptyString
      | r => String c r
      end
  end.

(** [s.strip()] *)
Definition strip (s : string) : string := rstrip (lstrip s).

(** [str(z)] for an [int]. *)
Definition str (z : Z) : string := NilZero.string_of_int (Z.to_int z).

Fixpoint zeros (n : nat) : string :=
  match n with
  | O => EmptyString
  | S n' => String "0" (zeros n')
  end.

(** [format(z, "0w")] for an [int], as in the f-string fields [{h:02}] and
    [{ms:03}]: the sign, then zeros up to the width, then the digits. *)
Definition format_int (width : nat) (z : Z) : string :=
  let digits := NilZero.string_of_uint (N.to_uint (Z.abs_N z)) in
  if z <? 0
  then String "-" (zeros (width - 1 - String.length digits) ++ digits)
  else zeros (width - String.length digits) ++ digits.

(** [s.split("\n\n")]: the pieces between the occurrences of the separator,
    found from left to right without overlap.  [skip] is set on the second
    character of a separator that has just been found. *)
Definition starts_with_newline (s : string) : bool :=
  match s with
  | String c _ => Ascii.eqb c newline
  | EmptyString => false
  end.




(** Whether [s] has an empty line inside: two newlines in a row. *)
Fixpoint has_blank_line (s : string) : bool :=
  match s with
  | EmptyString => false
  | String c s' =>
      (Ascii.eqb c newline && starts_with_newline s') || has_blank_line s'
  end.


(** Whether [s] is written on one line. *)
Fixpoint one_line (s : string) : bool :=
  match s with
  | EmptyString => true
  | String c s' => negb (Ascii.eqb c newline) && one_line s'
  end.

End PyStr.

(** ** Python exceptions *)

Inductive exn : Type :=
| ValueError
| OverflowError
| ZeroDivisionError.

(** A computation that returns a value or raises. *)
Definition result (A : Type) : Type := (exn + A)%type.

Definition ret {A : Type} (a : A) : result A := inr a.

Definition raise {A : Type} (e : exn) : result A := inl e.

Definition bind {A B : Type} (r : result A) (k : A -> result B) : result B :=
  match r with
  | inl e => inl e
  | inr a => k a
  end.

Notation "x <- r ;; k" := (bind r (fun x => k))
  (at level 61, r at next level, right associativity).

(** ** Python floats: IEEE 754 binary64 *)

Module PyFloat.

Definition prec : Z := 53.
Definition emax : Z := 1024.

Definition float : Type := spec_float.

Definition add : float -> float -> float := SFadd prec emax.
Definition sub : float -> float -> float := SFsub prec emax.
Definition mul : float -> float -> float := SFmul prec emax.
Definition div : float -> float -> float := SFdiv prec emax.

Definition ltb : float -> float -> bool := SFltb.

(** The double nearest to an integer. *)
Definition of_Z (z : Z) : float := binary_normalize prec emax z 0 false.

(** The double nearest to [n/d], for [n] and [d] that are doubles
    themselves: how a decimal literal such as [3661.999] is read. *)
Definition of_ratio (n d : Z) : float := div (of_Z n) (of_Z d).

Definition pos_zero : float := S754_zero false.
Definition one : float := of_Z 1.
Definition half : float := of_ratio 1 2.

(** The C test [if (x)]: true unless [x] is a zero. *)
Definition nonzero (x : float) : bool :=
  match x with
  | S754_zero _ => false
  | _ => true
  end.

Definition is_finite (x : float) : bool :=
  match x with
  | S754_zero _ | S754_finite _ _ _ => true
  | _ => false
  end.

(** A double that is a real number: a well-formed binary64 value that is
    neither an infinity nor a NaN. *)
Definition is_real (x : float) : bool :=
  valid_binary prec emax x && is_finite x.

Definition sign_bit (x : float) : bool :=
  match x with
  | S754_zero s | S754_infinity s | S754_finite s _ _ => s
  | S754_nan => false
  end.

(** [copysign(0.0, x)] *)
Definition copysign_zero (x : float) : float := S754_zero (sign_bit x).

(** C's [fmod]: the exact remainder [x - n*y], [n] the quotient truncated
    towards zero; it has the sign of [x] and is always a double. *)
Definition fmod (x y : float) : float :=
  match x, y with
  | S754_nan, _ | _, S754_nan => S754_nan
  | S754_infinity _, _ => S754_nan
  | _, S754_zero _ => S754_nan
  | S754_zero _, _ => x
  | S754_finite _ _ _, S754_infinity _ => x
  | S754_finite sx mx ex, S754_finite _ my ey =>
      let e := Z.min ex ey in
      let r := Z.rem (Z.shiftl (Zpos mx) (ex - e)) (Z.shiftl (Zpos my) (ey - e)) in
      binary_normalize prec emax (cond_Zopp sx r) e sx
  end.

(** C's [floor]. *)
Definition floor (x : float) : float :=
  match x with
  | S754_finite s m e =>
      if 0 <=? e then x
      else binary_normalize prec emax (Z.shiftr (cond_Zopp s (Zpos m)) (- e)) 0 s
  | _ => x
  end.

(** [int(x)]: truncation towards zero; infinities and NaN raise. *)
Definition to_int (x : float) : result Z :=
  match x with
  | S754_zero _ => ret 0
  | S754_finite s m e => ret (cond_Zopp s (Z.shiftl (Zpos m) e))
  | S754_infinity _ => raise OverflowError
  | S754_nan => raise ValueError
  end.

(** An [int] operand of a float operation ([PyLong_AsDouble]). *)
Definition of_int (z : Z) : result float :=
  match of_Z z with
  | S754_infinity _ => raise OverflowError
  | f => ret f
  end.

(** [_float_div_mod] of CPython's [floatobject.c], for [wx] that is not a
    zero: the pair [(floordiv, mod)]. *)
Definition float_div_mod (vx wx : float) : float * float :=
  let mod0 := fmod vx wx in
  let div0 := div (sub vx mod0) wx in
  let '(mod1, div1) :=
    if nonzero mod0 then
      if negb (Bool.eqb (ltb wx pos_zero) (ltb mod0 pos_zero))
      then (add mod0 wx, sub div0 one)
      else (mod0, div0)
    else (copysign_zero wx, div0) in
  let floordiv :=
    if nonzero div1 then
      let fl := floor div1 in
      if ltb half (sub div1 fl) then add fl one else fl
    else copysign_zero (div vx wx) in
  (floordiv, mod1).

(** [vx // wx] *)
Definition floordiv (vx wx : float) : result float :=
  if nonzero wx then ret (fst (float_div_mod vx wx))
  else raise ZeroDivisionError.

(** [vx % wx] ([float_rem]) *)
Definition rem (vx wx : float) : result float :=
  if nonzero wx then
    let mod0 := fmod vx wx in
    ret (if nonzero mod0 then
           if negb (Bool.eqb (ltb wx pos_zero) (ltb mod0 pos_zero))
           then add mod0 wx
           else mod0
         else copysign_zero wx)
  else raise ZeroDivisionError.

End PyFloat.

(** ** Python's [re]: the patterns of the source

    Both patterns of [srt_to_text] are sequences of character classes, each
    repeated a number of times; a repetition is greedy and gives characters
    back one at a time when the rest of the pattern fails, as the
    backtracking matcher of [re] does. *)

Module Re.

(** A class of characters repeated from [lo] to [hi] times ([None]: no
    upper bound). *)
Inductive item : Type :=
| Rep (cls : ascii -> bool) (lo : nat) (hi : option nat).

Definition pattern : Type := list item.

Definition lit (c : ascii) : item := Rep (Ascii.eqb c) 1 (Some 1%nat).

(** [\d{n}] *)
Definition digits (n : nat) : item := Rep PyStr.isdigit n (Some n).

(** [\d+] *)
Definition digits1 : item := Rep PyStr.isdigit 1 None.

Definition may_take (hi : option nat) : bool :=
  match hi with
  | Some O => false
  | _ => true
  end.

(** Match [cls{lo,hi}] at the head of [s], then [k] on what follows:
    the longest repetition first. *)
Fixpoint rep (cls : ascii -> bool) (lo : nat) (hi : option nat)
         (k : string -> option string) (s : string) : option string :=
  let stop := match lo with O => k s | S _ => None end in
  match s with
  | EmptyString => stop
  | String c s' =>
      if (cls c && may_take hi)%bool then
        match rep cls (Nat.pred lo) (option_map Nat.pred hi) k s' with
        | Some r => Some r
        | None => stop
        end
      else stop
  end.

(** [pattern.match(s)]: what follows the match at the head of [s]. *)
Fixpoint match_here (p : pattern) (s : string) : option string :=
  match p with
  | [] => Some s
  | Rep cls lo hi :: p' => rep cls lo hi (match_here p') s
  end.

(** [re.sub(p, repl, s)] for a literal replacement: the matches are
    searched from left to right and do not overlap.  [skip] counts the
    characters of the current match that are still to pass.  (After an
    empty match the character at that position is copied; no pattern of
    the source matches the empty string.) *)
Fixpoint sub_aux (p : pattern) (repl : string) (skip : nat) (s : string)
  : string :=
  match s with
  | EmptyString =>
      match skip, match_here p EmptyString with
      | O, Some _ => repl
      | _, _ => EmptyString
      end
  | String c s' =>
      match skip with
      | S n => sub_aux p repl n s'
      | O =>
          match match_here p s with
          | Some rest =>
              match (String.length s - String.length rest)%nat with
              | S n => repl ++ sub_aux p repl n s'
              | O => repl ++ String c (sub_aux p repl 0 s')
              end
          | None => String c (sub_aux p repl 0 s')
          end
      end
  end.

Definition sub (p : pattern) (repl : string) (s : string) : string :=
  sub_aux p repl 0 s.

(** [pattern.search(s) is not None]: whether the pattern matches somewhere
    in [s]. *)
Fixpoint search (p : pattern) (s : string) : bool :=
  match match_here p s with
  | Some _ => true
  | None =>
      match s with
      | EmptyString => false
      | String _ s' => search p s'
      end
  end.

(** [\d{2}:\d{2}:\d{2},\d{3}] *)
Definition timestamp : pattern :=
  [digits 2; lit ":"; digits 2; lit ":"; digits 2; lit ","; digits 3].

(** [\d+\n\d{2}:\d{2}:\d{2},\d{3} --> \d{2}:\d{2}:\d{2},\d{3}\n] *)
Definition index_and_timing : pattern :=
  ([digits1; lit PyStr.newline] ++ timestamp
     ++ [lit " "; lit "-"; lit "-"; lit ">"; lit " "] ++ timestamp
     ++ [lit PyStr.newline])%list.

(** [\n{2,}] *)
Definition empty_lines : pattern := [Rep (Ascii.eqb PyStr.newline) 2 None].

End Re.

(** ** The segments of a transcription

    [result["segments"]] of Whisper's [transcribe]: a list of dictionaries,
    of which the scripts read the keys [id], [start], [end] and [text]. *)

Record Segment : Type := mkSegment {
  seg_id : Z;
  seg_start : PyFloat.float;
  seg_end : PyFloat.float;
  seg_text : string
}.



(** The text written so far to a file opened with mode ["w"]. *)
Definition file : Type := string.

Definition write (f : file) (s : string) : file := f ++ s.

(** The carriage return. *)
Definition cr : ascii := "013"%char.

(** [f.read()] on a file opened with [open(path, "r")], as [srt_to_text]
    opens the [.srt] file that [transcribe_audio] wrote: text mode reads
    with universal newlines, so ["\r\n"] and a ["\r"] alone come back as
    ["\n"].  (On POSIX, where [write] leaves ["\n"] as it is.) *)
Fixpoint read (f : file) : string :=
  match f with
  | EmptyString => EmptyString
  | String c f' =>
      if Ascii.eqb c cr then
        match f' with
        | String c' f'' =>
            if Ascii.eqb c' PyStr.newline
            then String PyStr.newline (read f'')
            else String PyStr.newline (read f')
        | EmptyString => String PyStr.newline EmptyString
        end
      else String c (read f')
  end.

(** ** [lesson_pipeline.py] *)

Module LessonPipeline.

Import PyStr PyFloat.

(** [format_srt_time(seconds)] *)
Definition format_srt_time (seconds : float) : result string :=
  c3600 <- of_int 3600 ;;
  c60 <- of_int 60 ;;
  c1000 <- of_int 1000 ;;
  q <- floordiv seconds c3600 ;;
  h <- to_int q ;;
  r <- rem seconds c3600 ;;
  q <- floordiv r c60 ;;
  m <- to_int q ;;
  r <- rem seconds c60 ;;
  s <- to_int r ;;
  i <- to_int seconds ;;
  fi <- of_int i ;;
  ms <- to_int (mul (sub seconds fi) c1000) ;;
  ret (format_int 2 h ++ ":" ++ format_int 2 m ++ ":" ++ format_int 2 s
         ++ "," ++ format_int 3 ms).

(** The body of the loop of [transcribe_audio]: three writes to the
    [.srt] file.  The index line is written before the times are
    formatted, so it stays in the file when [format_srt_time] raises. *)
Definition write_segment (f : file) (segment : Segment)
  : file * result unit :=
  let f := write f (str (seg_id segment + 1) ++ nl) in
  match format_srt_time (seg_start segment) with
  | inl e => (f, inl e)
  | inr t0 =>
      match format_srt_time (seg_end segment) with
      | inl e => (f, inl e)
      | inr t1 =>
          let f := write f (t0 ++ " --> " ++ t1 ++ nl) in
          let f := write f (strip (seg_text segment) ++ nl ++ nl) in
          (f, inr tt)
      end
  end.

(** [for segment in result["segments"]: ...] *)
Fixpoint write_segments (f : file) (segments : list Segment)
  : file * result unit :=
  match segments with
  | [] => (f, inr tt)
  | segment :: rest =>
      match write_segment f segment with
      | (f', inr _) => write_segments f' rest
      | (f', inl e) => (f', inl e)
      end
  end.

(** The part of [transcribe_audio] that saves the SRT,
    [with open(srt_path, "w") as f: for segment in result["segments"]: ...]:
    from the segments to the text of the [.srt] file and how the block
    ended (the exception, if any, is the one that the [except] clause of the
    function prints). *)
Definition transcribe_audio (segments : list Segment) : file * result unit :=
  write_segments EmptyString segments.

(** What one iteration of the loop adds to the file when the times format:
    the index line [idx], the timing line and the stripped text, then the
    empty line. *)
Definition time_text (seconds : float) : string :=
  match format_srt_time seconds with
  | inr t => t
  | inl _ => EmptyString
  end.







(** [srt_to_text], from the text read from [srt_path] to the text written
    to [output_txt_path]. *)
Definition srt_to_text (srt_content : string) : string :=
  let text := Re.sub Re.index_and_timing EmptyString srt_content in
  let text := Re.sub Re.empty_lines nl text in
  strip text.

End LessonPipeline.

(** ** [extract_mp3.py] *)

Module ExtractMp3.

Import PyStr PyFloat.

(** [format_srt_time(seconds)] *)
Definition format_srt_time (seconds : float) : result string :=
  c3600 <- of_int 3600 ;;
  c60 <- of_int 60 ;;
  c1000 <- of_int 1000 ;;
  q <- floordiv seconds c3600 ;;
  h <- to_int q ;;
  r <- rem seconds c3600 ;;
  q <- floordiv r c60 ;;
  m <- to_int q ;;
  r <- rem seconds c60 ;;
  s <- to_int r ;;
  i <- to_int seconds ;;
  fi <- of_int i ;;
  ms <- to_int (mul (sub seconds fi) c1000) ;;
  ret (format_int 2 h ++ ":" ++ format_int 2 m ++ ":" ++ format_int 2 s
         ++ "," ++ format_int 3 ms).

(** The body of the loop of [transcribe_audio]: the index line, the timing
    line, the stripped text and the empty line. *)
Definition write_segment (f : file) (segment : Segment)
  : file * result unit :=
  let f := write f (str (seg_id segment + 1) ++ nl) in
  match format_srt_time (seg_start segment) with
  | inl e => (f, inl e)
  | inr t0 =>
      match format_srt_time (seg_end segment) with
      | inl e => (f, inl e)
      | inr t1 =>
          let f := write f (t0 ++ " --> " ++ t1 ++ nl) in
          let f := write f (strip (seg_text segment) ++ nl ++ nl) in
          (f, inr tt)
      end
  end.

(** [for segment in result["segments"]: ...] *)
Fixpoint write_segments (f : file) (segments : list Segment)
  : file * result unit :=
  match segments with
  | [] => (f, inr tt)
  | segment :: rest =>
      match write_segment f segment with
      | (f', inr _) => write_segments f' rest
      | (f', inl e) => (f', inl e)
      end
  end.

(** The part of [transcribe_audio] that saves the SRT. *)
Definition transcribe_audio (segments : list Segment) : file * result unit :=
  write_segments EmptyString segments.

End ExtractMp3.

(** ** [os.path] on POSIX

    The functions of [posixpath] that the scripts call, on [str] paths:
    the separator is ["/"], the extension separator ["."]. *)

Module PyPath.

(** [s.rfind(c)] for a one-character [c]: the index of its last occurrence,
    [-1] when there is none. *)
Fixpoint rfind (c : ascii) (s : string) : Z :=
  match s with
  | EmptyString => -1
  | String a s' =>
      let i := rfind c s' in
      if 0 <=? i then i + 1 else if Ascii.eqb a c then 0 else -1
  end.

(** [s[i:]] for [0 <= i] *)
Fixpoint slice_from (i : nat) (s : string) : string :=
  match i, s with
  | S i', String _ s' => slice_from i' s'
  | _, _ => s
  end.

(** [s[:i]] for [0 <= i] *)
Fixpoint slice_to (i : nat) (s : string) : string :=
  match i, s with
  | S i', String c s' => String c (slice_to i' s')
  | _, _ => EmptyString
  end.

(** [basename(p)]: [i = p.rfind(sep) + 1; return p[i:]] *)
Definition basename (p : string) : string :=
  let i := rfind "/" p + 1 in
  slice_from (Z.to_nat i) p.

(** The loop of [genericpath._splitext] that skips the leading dots of the
    file name: [while filenameIndex < dotIndex: ...]. *)
Fixpoint skip_leading_dots (fuel : nat) (p : string) (filenameIndex dotIndex : Z)
  : string * string :=
  match fuel with
  | O => (p, EmptyString)
  | S fuel' =>
      if filenameIndex <? dotIndex then
        if negb (String.eqb (slice_to 1 (slice_from (Z.to_nat filenameIndex) p)) ".")
        then (slice_to (Z.to_nat dotIndex) p, slice_from (Z.to_nat dotIndex) p)
        else skip_leading_dots fuel' p (filenameIndex + 1) dotIndex
      else (p, EmptyString)
  end.

(** [splitext(p)]: the root and the extension, [genericpath._splitext] with
    no alternative separator.  The loop runs at most [len(p)] times. *)
Definition splitext (p : string) : string * string :=
  let sepIndex := rfind "/" p in
  let dotIndex := rfind "." p in
  if sepIndex <? dotIndex
  then skip_leading_dots (String.length p) p (sepIndex + 1) dotIndex
  else (p, EmptyString).

(** [b.startswith(sep)] *)
Definition startswith_sep (b : string) : bool :=
  match b with
  | String c _ => Ascii.eqb c "/"
  | EmptyString => false
  end.

(** [path.endswith(sep)] *)
Fixpoint endswith_sep (path : string) : bool :=
  match path with
  | EmptyString => false
  | String c EmptyString => Ascii.eqb c "/"
  | String _ path' => endswith_sep path'
  end.

(** [join(a, b)] *)
Definition join (a b : string) : string :=
  if startswith_sep b then b
  else if (String.eqb a EmptyString || endswith_sep a)%bool then a ++ b
  else a ++ "/" ++ b.

End PyPath.

(** ** What a command starts

    Each command of the scripts first looks for its input files with
    [os.path.isfile]; it prints a message and returns when one is missing,
    and otherwise names the files it is about to write (with moviepy or
    Whisper, which are not modelled). *)

Inductive started (A : Type) : Type :=
| NotFound (message : string)
| Output (paths : A).

Arguments NotFound {A} message.
Arguments Output {A} paths.

(** The parsed command line: the attributes of [args] in [main].  [None]
    is Python's [None], the default of the options that were not given. *)
Record Args : Type := mkArgs {
  args_input_file : option string;
  args_replace_audio : option string;
  args_combine : option (string * string * string);
  args_transcribe : bool;
  args_model : string;
  args_clean_srt : option (string * string);
  args_prompt : option string;
  args_srt_to_text : option (string * string)
}.

(** The call that [main] makes. *)
Inductive call : Type :=
| call_combine_videos (video1 video2 output : string)
| call_replace_audio (input_file : option string) (enhanced_wav : string)
| call_transcribe_audio (input_file : option string) (model : string)
| call_clean_srt_with_openai (srt_path output_srt_path : string)
                              (prompt : option string)
| call_srt_to_text (srt_path output_txt_path : string)
| call_extract_mp3 (input_file : string)
| call_print_help.

Module LessonPipelineCommands.

Import PyPath.

Definition PROCESSED_VIDEO_DIR : string := "data/processed_videos".
Definition MP3_DIR : string := "data/mp3".
Definition SRT_DIR : string := "transcripts/srt".
Definition TXT_DIR : string := "transcripts/txt".

Section Files.

(** [os.path.isfile] *)
Variable isfile : string -> bool.

(** [extract_mp3(input_path)]: the path given to [write_audiofile]. *)
Definition extract_mp3 (input_path : string) : started string :=
  if negb (isfile input_path) then NotFound ("File not found: " ++ input_path)
  else
    let '(filename, _) := splitext (basename input_path) in
    let output_path := join MP3_DIR (filename ++ ".mp3") in
    Output output_path.

(** [replace_audio(input_video_path, enhanced_wav_path)]: the path given to
    [write_videofile]. *)
Definition replace_audio (input_video_path enhanced_wav_path : string)
  : started string :=
  if negb (isfile input_video_path)
  then NotFound ("Video file not found: " ++ input_video_path)
  else if negb (isfile enhanced_wav_path)
  then NotFound ("Enhanced WAV file not found: " ++ enhanced_wav_path)
  else
    let '(filename, ext) := splitext (basename input_video_path) in
    let output_path := join PROCESSED_VIDEO_DIR (filename ++ "_enhanced" ++ ext) in
    Output output_path.

(** [combine_videos(video1_path, video2_path, output_path=None)]: the path
    given to [write_videofile]. *)
Definition combine_videos (video1_path video2_path : string)
           (output_path : option string) : started string :=
  if negb (isfile video1_path)
  then NotFound ("First video file not found: " ++ video1_path)
  else if negb (isfile video2_path)
  then NotFound ("Second video file not found: " ++ video2_path)
  else
    let output_path :=
      match output_path with
      | None => join PROCESSED_VIDEO_DIR "combined.mp4"
      | Some output_path => join PROCESSED_VIDEO_DIR (basename output_path)
      end in
    Output output_path.

(** [transcribe_audio(input_path, model_name)]: [transcript_path] and
    [srt_path], the two files it opens for writing. *)
Definition transcribe_audio_paths (input_path : string)
  : started (string * string) :=
  if negb (isfile input_path) then NotFound ("File not found: " ++ input_path)
  else
    let '(filename, _) := splitext (basename input_path) in
    let transcript_path := join TXT_DIR (filename ++ ".txt") in
    let srt_path := join SRT_DIR (filename ++ ".srt") in
    Output (transcript_path, srt_path).

End Files.

(** The [if]/[elif] chain of [main]; a string or a list is true when it is
    not [None] and not empty. *)
Definition main (args : Args) : call :=
  match args_combine args with
  | Some (video1, video2, output) => call_combine_videos video1 video2 output
  | None =>
  match args_replace_audio args with
  | Some (String c w) => call_replace_audio (args_input_file args) (String c w)
  | _ =>
  if args_transcribe args
  then call_transcribe_audio (args_input_file args) (args_model args)
  else
  match args_clean_srt args with
  | Some (srt_path, output_srt_path) =>
      call_clean_srt_with_openai srt_path output_srt_path (args_prompt args)
  | None =>
  match args_srt_to_text args with
  | Some (srt_path, output_txt_path) => call_srt_to_text srt_path output_txt_path
  | None =>
  match args_input_file args with
  | Some (String c p) => call_extract_mp3 (String c p)
  | _ => call_print_help
  end end end end end.

End LessonPipelineCommands.

Module ExtractMp3Commands.

Import PyPath.

Section Files.

(** [os.path.isfile] *)
Variable isfile : string -> bool.

(** [extract_mp3(input_path)]: the path given to [write_audiofile], in the
    current directory. *)
Definition extract_mp3 (input_path : string) : started string :=
  if negb (isfile input_path) then NotFound ("File not found: " ++ input_path)
  else
    let '(filename, _) := splitext (basename input_path) in
    let output_path := filename ++ ".mp3" in
    Output output_path.

(** [replace_audio(input_video_path, enhanced_wav_path)] *)
Definition replace_audio (input_video_path enhanced_wav_path : string)
  : started string :=
  if negb (isfile input_video_path)
  then NotFound ("Video file not found: " ++ input_video_path)
  else if negb (isfile enhanced_wav_path)
  then NotFound ("Enhanced WAV file not found: " ++ enhanced_wav_path)
  else
    let '(filename, ext) := splitext (basename input_video_path) in
    let output_path := filename ++ "_enhanced" ++ ext in
    Output output_path.

(** [combine_videos(video1_path, video2_path, output_path)] *)
Definition combine_videos (video1_path video2_path output_path : string)
  : started string :=
  if negb (isfile video1_path)
  then NotFound ("First video file not found: " ++ video1_path)
  else if negb (isfile video2_path)
  then NotFound ("Second video file not found: " ++ video2_path)
  else Output output_path.

(** [transcribe_audio(input_path, model_name)]: [transcript_path] and
    [srt_path]. *)
Definition transcribe_audio_paths (input_path : string)
  : started (string * string) :=
  if negb (isfile input_path) then NotFound ("File not found: " ++ input_path)
  else
    let transcript_path := fst (splitext (basename input_path)) ++ ".txt" in
    let srt_path := fst (splitext (basename input_path)) ++ ".srt" in
    Output (transcript_path, srt_path).

End Files.

(** The [if]/[elif] chain of [main]: this parser has no [--clean-srt],
    [--prompt] and [--srt-to-text]. *)
Definition main (args : Args) : call :=
  match args_combine args with
  | Some (video1, video2, output) => call_combine_videos video1 video2 output
  | None =>
  match args_replace_audio args with
  | Some (String c w) => call_replace_audio (args_input_file args) (String c w)
  | _ =>
  if args_transcribe args
  then call_transcribe_audio (args_input_file args) (args_model args)
  else
  match args_input_file args with
  | Some (String c p) => call_extract_mp3 (String c p)
  | _ => call_print_help
  end end end.

End ExtractMp3Commands.

(** ** The time format of the specification

    The fields as the specification words them, on the exact number of
    seconds [n/d] ([0 <= n], [0 < d]): [h = floor(seconds/3600)],
    [m = floor((seconds mod 3600)/60)], [s = floor(seconds mod 60)] and
    [ms = floor((seconds - floor(seconds)) * 1000)]. *)

Definition spec_format_srt_time (n d : Z) : string :=
  let h := n / (3600 * d) in
  let m := (n mod (3600 * d)) / (60 * d) in
  let s := (n mod (60 * d)) / d in
  let ms := ((n mod d) * 1000) / d in
  PyStr.format_int 2 h ++ ":" ++ PyStr.format_int 2 m ++ ":"
    ++ PyStr.format_int 2 s ++ "," ++ PyStr.format_int 3 ms.

(** ** Inputs of the examples of the specification *)

(** [{start=0, end=1.5, text="hello"}], the first segment of a
    transcription. *)
Definition hello_segments : list Segment :=
  [mkSegment 0 (PyFloat.of_Z 0) (PyFloat.of_ratio 15 10) "hello"].

(** [[{0,1,"a"},{2,3,"b"}]], numbered 0 and 1 as Whisper does. *)
Definition two_segments : list Segment :=
  [mkSegment 0 (PyFloat.of_Z 0) (PyFloat.of_Z 1) "a";
   mkSegment 1 (PyFloat.of_Z 2) (PyFloat.of_Z 3) "b"].



(** ["a\n\nb"] *)
Definition two_paragraphs : string := "a" ++ PyStr.nl ++ PyStr.nl ++ "b".

(** ["1\n\n00:00:00,000 --> 00:00:01,000\nx"]: an index line and a timing
    line with an empty line between them. *)
Definition spaced_markup : string :=
  "1" ++ PyStr.nl ++ PyStr.nl ++ "00:00:00,000 --> 00:00:01,000" ++ PyStr.nl ++ "x".

(** The double written [3661.999]. *)
Definition seconds_3661_999 : PyFloat.float := PyFloat.of_ratio 3661999 1000.



(** One segment whose text has a carriage return between two letters. *)
Definition cr_segments : list Segment :=
  [mkSegment 0 (PyFloat.of_Z 0) (PyFloat.of_Z 1) (String "a" (String cr "b"))].

(** ** Shapes of the written text *)

(** Every character of [s] is in the class [cls]. *)
Fixpoint all_chars (cls : ascii -> bool) (s : string) : bool :=
  match s with
  | EmptyString => true
  | String c s' => cls c && all_chars cls s'
  end.

(** No carriage return in [s]. *)
Definition no_cr (s : string) : bool :=
  all_chars (fun c => negb (Ascii.eqb c cr)) s.

(** An item that repeats its class a fixed number of times. *)
Definition exact_item (it : Re.item) : Prop :=
  match it with Re.Rep _ lo hi => hi = Some lo end.

(** [t] is matched as a whole by [\d{2}:\d{2}:\d{2},\d{3}]. *)
Definition is_timestamp (t : string) : bool :=
  match Re.match_here Re.timestamp t with
  | Some EmptyString => true
  | _ => false
  end.


(** A segment whose block [srt_to_text] undoes: the index line is not
    negative, both times are formatted with two digits of hours, and the
    stripped text is one line that is not empty, with no newline and no
    carriage return in it. *)
Definition clean_segment (segment : Segment) : bool :=
  (0 <=? seg_id segment + 1)
  && is_timestamp (LessonPipeline.time_text (seg_start segment))
  && is_timestamp (LessonPipeline.time_text (seg_end segment))
  && PyStr.one_line (PyStr.strip (seg_text segment))
  && negb (String.eqb (PyStr.strip (seg_text segment)) EmptyString)
  && no_cr (PyStr.strip (seg_text segment)).

(** ** Bounds on doubles

    The quantities in which the proofs below bound the results of the
    arithmetic of [PyFloat]. *)

(** Nothing was lost in a right shift. *)
Definition shr_exact (mrs : shr_record) : bool := negb (shr_r mrs || shr_s mrs).

(** Zero, or finite with exponent at most 971 and [digits + e <= k]: the
    absolute value is below [2^k]. *)
Definition okf (k : Z) (x : spec_float) : Prop :=
  match x with
  | S754_zero _ => True
  | S754_finite _ m e => e <= 971 /\ Zpos (digits2_pos m) + e <= k
  | _ => False
  end.

(** The largest mantissa of a double. *)
Definition M53 : Z := 2 ^ 53 - 1.

(** Zero, or finite and at most the largest double in absolute value. *)
Definition lemax (x : spec_float) : Prop :=
  match x with
  | S754_zero _ => True
  | S754_finite _ m e => e <= 971 /\ Zpos m <= M53 * 2 ^ (971 - e)
  | _ => False
  end.

Definition vfin (x : spec_float) : Prop :=
  valid_binary PyFloat.prec PyFloat.emax x = true /\ PyFloat.is_finite x = true.

(** The doubles [3600.0], [60.0] and [1000.0]. *)
Definition c3600 : spec_float := S754_finite false 7916483719987200 (-41).
Definition c60 : spec_float := S754_finite false 8444249301319680 (-47).
Definition c1000 : spec_float := S754_finite false 8796093022208000 (-43).

(** ** The exact value of a double *)

(** The value of a finite double counted in units of [2^-1074], the smallest
    positive double: an integer. *)
Definition scaled (x : spec_float) : Z :=
  match x with
  | S754_finite s m e => cond_Zopp s (Zpos m * 2 ^ (e + 1074))
  | _ => 0
  end.

(** A double that is a real number and not negative: [+0.0] or a positive
    double. *)
Definition nonneg (x : spec_float) : bool :=
  PyFloat.is_real x && negb (PyFloat.sign_bit x).

(** A time from 0 up to 360000 seconds, a hundred hours. *)
Definition subtitle_time (seconds : PyFloat.float) : bool :=
  nonneg seconds && PyFloat.ltb seconds (PyFloat.of_Z 360000).


(** * Facts about binary64 rounding *)

Section Binary64.
Import PyFloat.

Lemma digits2_log2 (p : positive) : Zpos (digits2_pos p) = Z.log2 (Zpos p) + 1.
Proof.
  induction p as [p IH|p IH|]; simpl digits2_pos.
  - rewrite Pos2Z.inj_succ, IH. 
    change (Z.pos p~1) with (2 * Z.pos p + 1). rewrite Z.log2_succ_double by lia. lia.
  - rewrite Pos2Z.inj_succ, IH.
    change (Z.pos p~0) with (2 * Z.pos p). rewrite Z.log2_double by lia. lia.
  - reflexivity.
Qed.

Lemma Zdigits2_nonneg m : 0 <= Zdigits2 m.
Proof. destruct m; simpl; lia. Qed.

Lemma Zdigits2_pos_lt m k : 0 < m -> 0 <= k -> (Zdigits2 m <= k <-> m < 2 ^ k).
Proof.
  intros Hm Hk. destruct m as [|p|p]; try lia. simpl Zdigits2.
  rewrite digits2_log2.
  pose proof (Z.log2_lt_pow2 (Zpos p) k Hm). lia.
Qed.

Lemma Zdigits2_le m k : 0 <= m -> 0 <= k -> (Zdigits2 m <= k <-> m < 2 ^ k).
Proof.
  intros Hm Hk. destruct (Z.eq_dec m 0) as [->|].
  - simpl. split; intros; [apply Z.pow_pos_nonneg|]; lia.
  - apply Zdigits2_pos_lt; lia.
Qed.

Lemma Zdigits2_ge m k : 0 < m -> 0 < k -> (k <= Zdigits2 m <-> 2 ^ (k - 1) <= m).
Proof.
  intros Hm Hk. destruct m as [|p|p]; try lia. simpl Zdigits2.
  rewrite digits2_log2.
  pose proof (Z.log2_le_pow2 (Zpos p) (k - 1) Hm). lia.
Qed.

(* one step of shift *)
Lemma shr_1_m mrs : 0 <= shr_m mrs -> shr_m (shr_1 mrs) = shr_m mrs / 2.
Proof.
  destruct mrs as [m r s]. simpl. intros Hm.
  destruct m as [|[p|p|]|p]; simpl shr_m; try lia; try reflexivity.
  - change (Z.pos p~1) with (2 * Z.pos p + 1). Z.div_mod_to_equations. lia.
  - change (Z.pos p~0) with (2 * Z.pos p). Z.div_mod_to_equations. lia.
Qed.

Lemma shr_1_exact mrs :
  0 <= shr_m mrs -> shr_exact mrs = true -> shr_m mrs mod 2 = 0 -> shr_exact (shr_1 mrs) = true.
Proof.
  destruct mrs as [m r s]. unfold shr_exact. simpl. intros Hm He Hmod.
  destruct r, s; simpl in He; try discriminate.
  destruct m as [|[p|p|]|p]; simpl; try reflexivity; try lia.
  - change (Z.pos p~1) with (2 * Z.pos p + 1) in Hmod.
    revert Hmod. Z.div_mod_to_equations. lia.
  - discriminate.
Qed.

Lemma iter_pos_shr p : forall mrs, 0 <= shr_m mrs ->
  shr_m (iter_pos shr_1 p mrs) = shr_m mrs / 2 ^ Zpos p /\
  (shr_exact mrs = true -> shr_m mrs mod 2 ^ Zpos p = 0 -> shr_exact (iter_pos shr_1 p mrs) = true).
Proof.
  assert (Hcomp : forall q (f : shr_record -> shr_record),
     (forall mrs, 0 <= shr_m mrs ->
        shr_m (f mrs) = shr_m mrs / 2 ^ q /\
        (shr_exact mrs = true -> shr_m mrs mod 2 ^ q = 0 -> shr_exact (f mrs) = true)) ->
     0 < q ->
     forall mrs, 0 <= shr_m mrs ->
        shr_m (f (f mrs)) = shr_m mrs / 2 ^ (2 * q) /\
        (shr_exact mrs = true -> shr_m mrs mod 2 ^ (2 * q) = 0 -> shr_exact (f (f mrs)) = true)).
  { intros q f Hf Hq mrs Hm.
    destruct (Hf mrs Hm) as [H1 H2].
    assert (Hm' : 0 <= shr_m (f mrs)).
    { rewrite H1. apply Z.div_pos; [lia|]. apply Z.pow_pos_nonneg; lia. }
    destruct (Hf (f mrs) Hm') as [H3 H4].
    assert (Hp : 0 < 2 ^ q) by (apply Z.pow_pos_nonneg; lia).
    replace (2 * q) with (q + q) by lia. rewrite Z.pow_add_r by lia.
    split.
    - rewrite H3, H1. apply Z.div_div; lia.
    - intros He Hmod.
      assert (Hd : shr_m mrs = 2 ^ q * 2 ^ q * (shr_m mrs / (2 ^ q * 2 ^ q))).
      { apply Z.div_exact; [nia|]. exact Hmod. }
      set (k := shr_m mrs / (2 ^ q * 2 ^ q)) in Hd.
      assert (Hmq : shr_m mrs mod 2 ^ q = 0).
      { rewrite Hd. replace (2 ^ q * 2 ^ q * k) with ((2 ^ q * k) * 2 ^ q) by ring.
        apply Z.mod_mul. lia. }
      apply H4; [apply H2; assumption|].
      rewrite H1, Hd. replace (2 ^ q * 2 ^ q * k) with ((2 ^ q * k) * 2 ^ q) by ring.
      rewrite Z.div_mul by lia. rewrite Z.mul_comm. apply Z.mod_mul. lia. }
  induction p as [p IH|p IH|]; intros mrs Hm.
  - simpl iter_pos.
    assert (Hm1 : 0 <= shr_m (shr_1 mrs)).
    { rewrite shr_1_m by assumption. apply Z.div_pos; lia. }
    destruct (Hcomp (Zpos p) (iter_pos shr_1 p) IH ltac:(lia) (shr_1 mrs) Hm1) as [H1 H2].
    change (Z.pos p~1) with (1 + 2 * Z.pos p). rewrite Z.pow_add_r by lia.
    change (2 ^ 1) with 2.
    assert (Hp : 0 < 2 ^ (2 * Z.pos p)) by (apply Z.pow_pos_nonneg; lia).
    split.
    + rewrite H1, shr_1_m by assumption. apply Z.div_div; lia.
    + intros He Hmod.
      assert (Hd : shr_m mrs = 2 * 2 ^ (2 * Z.pos p) * (shr_m mrs / (2 * 2 ^ (2 * Z.pos p)))).
      { apply Z.div_exact; [nia|]. exact Hmod. }
      set (k := shr_m mrs / (2 * 2 ^ (2 * Z.pos p))) in Hd.
      apply H2.
      * apply shr_1_exact; try assumption.
        rewrite Hd. replace (2 * 2 ^ (2 * Z.pos p) * k) with ((2 ^ (2 * Z.pos p) * k) * 2) by ring.
        apply Z.mod_mul. lia.
      * rewrite shr_1_m by assumption. rewrite Hd.
        replace (2 * 2 ^ (2 * Z.pos p) * k) with ((2 ^ (2 * Z.pos p) * k) * 2) by ring.
        rewrite Z.div_mul by lia. rewrite Z.mul_comm. apply Z.mod_mul. lia.
  - simpl iter_pos.
    change (Z.pos p~0) with (2 * Z.pos p).
    apply (Hcomp (Zpos p) (iter_pos shr_1 p) IH ltac:(lia) mrs Hm).
  - simpl iter_pos. change (2 ^ 1) with 2. split.
    + apply shr_1_m; assumption.
    + apply shr_1_exact; assumption.
Qed.

Lemma fexp_eq x : fexp prec emax x = Z.max (x - 53) (-1074).
Proof. reflexivity. Qed.

Lemma pow2_pos k : 0 <= k -> 0 < 2 ^ k.
Proof. intros; apply Z.pow_pos_nonneg; lia. Qed.

Lemma Zdigits2_div m j :
  0 <= m -> 0 <= j -> Zdigits2 (m / 2 ^ j) + j <= Z.max (Zdigits2 m) j.
Proof.
  intros Hm Hj. pose proof (pow2_pos j Hj) as Hp.
  assert (Hq : 0 <= m / 2 ^ j) by (apply Z.div_pos; lia).
  destruct (Z.eq_dec (m / 2 ^ j) 0) as [E|NE].
  - rewrite E. simpl. lia.
  - assert (Hd : j <= Zdigits2 m).
    { destruct (Z_lt_le_dec (Zdigits2 m) j) as [L|]; [|lia]. exfalso.
      assert (m < 2 ^ j).
      { apply (Z.lt_le_trans _ (2 ^ Zdigits2 m)).
        - apply Zdigits2_le; try lia. apply Zdigits2_nonneg.
        - apply Z.pow_le_mono_r; try lia. }
      apply NE. apply Z.div_small. lia. }
    assert (m / 2 ^ j < 2 ^ (Zdigits2 m - j)).
    { apply Z.div_lt_upper_bound; [lia|]. rewrite <- Z.pow_add_r by lia.
      replace (j + (Zdigits2 m - j)) with (Zdigits2 m) by lia.
      apply Zdigits2_le; try lia. }
    assert (Zdigits2 (m / 2 ^ j) <= Zdigits2 m - j) by (apply Zdigits2_le; lia).
    lia.
Qed.

Lemma Zdigits2_mono a b : 0 <= a <= b -> Zdigits2 a <= Zdigits2 b.
Proof.
  intros H. apply Zdigits2_le; try lia. apply Zdigits2_nonneg.
  apply (Z.le_lt_trans _ b); [lia|]. apply Zdigits2_le; try lia. apply Zdigits2_nonneg.
Qed.

Lemma Zdigits2_succ a : 0 <= a -> Zdigits2 (a + 1) <= Zdigits2 a + 1.
Proof.
  intros H. pose proof (Zdigits2_nonneg a).
  apply Zdigits2_le; try lia.
  assert (a < 2 ^ Zdigits2 a) by (apply Zdigits2_le; lia).
  rewrite Z.pow_add_r by lia. change (2 ^ 1) with 2. lia.
Qed.

Lemma round_nearest_even_bounds m l :
  m <= round_nearest_even m l <= m + 1.
Proof.
  destruct l as [|[| |]]; simpl; try lia. destruct (Z.even m); lia.
Qed.

Lemma round_nearest_even_exact m : round_nearest_even m loc_Exact = m.
Proof. reflexivity. Qed.

Lemma loc_of_exact mrs : shr_exact mrs = true -> loc_of_shr_record mrs = loc_Exact.
Proof. destruct mrs as [m [|] [|]]; unfold shr_exact; simpl; congruence. Qed.

Lemma shr_fexp_spec m e l :
  0 <= m ->
  let e' := Z.max e (fexp prec emax (Zdigits2 m + e)) in
  exists mrs,
    shr_fexp prec emax m e l = (mrs, e') /\
    shr_m mrs = m / 2 ^ (e' - e) /\
    (l = loc_Exact -> m mod 2 ^ (e' - e) = 0 -> loc_of_shr_record mrs = loc_Exact) /\
    (e' = e -> loc_of_shr_record mrs = l).
Proof.
  intros Hm e'. unfold shr_fexp, shr.
  set (f := fexp prec emax (Zdigits2 m + e)) in *.
  assert (Hl : loc_of_shr_record (shr_record_of_loc m l) = l).
  { destruct l as [|[| |]]; reflexivity. }
  assert (Hsm : shr_m (shr_record_of_loc m l) = m).
  { destruct l as [|[| |]]; reflexivity. }
  destruct (f - e) as [|p|p] eqn:E.
  - exists (shr_record_of_loc m l). replace e' with e by lia.
    rewrite Z.sub_diag. simpl (2 ^ 0). rewrite Z.div_1_r.
    split; [reflexivity|]. split; [exact Hsm|]. split.
    + intros -> _. reflexivity.
    + intros _. exact Hl.
  - exists (iter_pos shr_1 p (shr_record_of_loc m l)).
    assert (He : e' - e = Zpos p) by lia. rewrite He.
    assert (H0 : 0 <= shr_m (shr_record_of_loc m l)) by lia.
    destruct (iter_pos_shr p _ H0) as [H1 H2].
    rewrite Hsm in *.
    split; [f_equal; lia|]. split; [exact H1|]. split.
    + intros -> Hmod. apply loc_of_exact. apply H2; [reflexivity|exact Hmod].
    + lia.
  - exists (shr_record_of_loc m l). replace e' with e by lia.
    rewrite Z.sub_diag. simpl (2 ^ 0). rewrite Z.div_1_r.
    split; [reflexivity|]. split; [exact Hsm|]. split.
    + intros -> _. reflexivity.
    + intros _. exact Hl.
Qed.

Lemma okf_mono k k' x : k <= k' -> okf k x -> okf k' x.
Proof. destruct x; simpl; intros; try tauto. lia. Qed.

Lemma binary_round_aux_okf s m e l k :
  0 <= m -> e <= 971 -> Zdigits2 m + e <= k -> -1074 <= k -> k <= 1023 ->
  okf (k + 1) (binary_round_aux prec emax s m e l).
Proof.
  intros Hm He Hd Hk Hk'.
  unfold binary_round_aux.
  destruct (shr_fexp_spec m e l Hm) as (mrs1 & -> & Hm1 & _ & _).
  remember (Z.max e (fexp prec emax (Zdigits2 m + e))) as e1 eqn:Ee1.
  rewrite fexp_eq in Ee1.
  assert (He1 : e <= e1 <= 971) by lia.
  assert (Hm1' : 0 <= shr_m mrs1).
  { rewrite Hm1. apply Z.div_pos; [lia|apply pow2_pos; lia]. }
  assert (Hd1 : Zdigits2 (shr_m mrs1) + e1 <= k).
  { rewrite Hm1. pose proof (Zdigits2_div m (e1 - e) Hm ltac:(lia)).
    pose proof (Zdigits2_nonneg m). lia. }
  remember (round_nearest_even (shr_m mrs1) (loc_of_shr_record mrs1)) as m2 eqn:Em2.
  assert (Hm2 : 0 <= m2 /\ Zdigits2 m2 <= Zdigits2 (shr_m mrs1) + 1).
  { pose proof (round_nearest_even_bounds (shr_m mrs1) (loc_of_shr_record mrs1)) as B.
    rewrite <- Em2 in B. split; [lia|].
    pose proof (Zdigits2_mono m2 (shr_m mrs1 + 1) ltac:(lia)).
    pose proof (Zdigits2_succ (shr_m mrs1) Hm1'). lia. }
  destruct Hm2 as [Hm2 Hd2].
  destruct (shr_fexp_spec m2 e1 loc_Exact Hm2) as (mrs2 & -> & Hm3 & _ & _).
  remember (Z.max e1 (fexp prec emax (Zdigits2 m2 + e1))) as e2 eqn:Ee2.
  rewrite fexp_eq in Ee2.
  assert (He2 : e1 <= e2 <= 971) by lia.
  assert (Hd3 : Zdigits2 (shr_m mrs2) + e2 <= k + 1).
  { rewrite Hm3. pose proof (Zdigits2_div m2 (e2 - e1) Hm2 ltac:(lia)).
    pose proof (Zdigits2_nonneg m2). lia. }
  assert (Hm3' : 0 <= shr_m mrs2).
  { rewrite Hm3. apply Z.div_pos; [lia|apply pow2_pos; lia]. }
  change (emax - prec) with 971.
  destruct (shr_m mrs2) as [|p|p] eqn:E3; [exact I| |lia].
  change (Zdigits2 (Z.pos p)) with (Z.pos (digits2_pos p)) in Hd3.
  destruct (Z.leb_spec e2 971) as [L|L]; [|lia].
  split; lia.
Qed.

Lemma binary_round_aux_cases s m e l :
  match binary_round_aux prec emax s m e l with
  | S754_zero s' | S754_infinity s' | S754_finite s' _ _ => s' = s
  | S754_nan => True
  end.
Proof.
  unfold binary_round_aux.
  destruct (shr_fexp prec emax m e l) as [mrs1 e1].
  destruct (shr_fexp prec emax _ e1 loc_Exact) as [mrs2 e2].
  destruct (shr_m mrs2); try reflexivity; try exact I.
  destruct (e2 <=? emax - prec); reflexivity.
Qed.

Lemma okf_sign_round_aux k s m e l :
  okf k (binary_round_aux prec emax s m e l) ->
  sign_bit (binary_round_aux prec emax s m e l) = s.
Proof.
  pose proof (binary_round_aux_cases s m e l) as H.
  destruct (binary_round_aux prec emax s m e l); simpl; intros; tauto.
Qed.

Lemma pos_iter_xO m d : Zpos (Pos.iter xO m d) = Zpos m * 2 ^ Zpos d.
Proof.
  induction d as [|d IH] using Pos.peano_ind.
  - simpl. lia.
  - rewrite Pos.iter_succ, Pos2Z.inj_succ, Z.pow_succ_r by lia.
    rewrite Pos2Z.inj_xO, IH. ring.
Qed.

Lemma shl_align_spec mx ex ex' :
  exists mz, shl_align mx ex ex' = (mz, Z.min ex ex') /\
             Zpos mz = Zpos mx * 2 ^ (ex - Z.min ex ex').
Proof.
  unfold shl_align. destruct (ex' - ex) as [|d|d] eqn:E.
  - exists mx. replace (Z.min ex ex') with ex by lia. rewrite Z.sub_diag. split; [reflexivity|simpl; lia].
  - exists mx. replace (Z.min ex ex') with ex by lia. rewrite Z.sub_diag. split; [reflexivity|simpl; lia].
  - exists (Pos.iter xO mx d). replace (Z.min ex ex') with ex' by lia.
    split; [reflexivity|]. rewrite pos_iter_xO. f_equal. f_equal. lia.
Qed.

Lemma Zdigits2_mul_pow2 m j : 0 < m -> 0 <= j -> Zdigits2 (m * 2 ^ j) = Zdigits2 m + j.
Proof.
  intros Hm Hj. pose proof (pow2_pos j Hj).
  destruct m as [|p|p]; try lia.
  destruct (Z.pos p * 2 ^ j) as [|q|q] eqn:E; try lia.
  simpl Zdigits2. rewrite !digits2_log2. rewrite <- E.
  rewrite Z.log2_mul_pow2 by lia. lia.
Qed.

Lemma binary_round_okf s mx ex k :
  ex <= 971 -> Zpos (digits2_pos mx) + ex <= k -> -1074 <= k -> k <= 1023 ->
  okf (k + 1) (binary_round prec emax s mx ex).
Proof.
  intros He Hd Hk Hk'. unfold binary_round.
  destruct (shl_align_spec mx ex (fexp prec emax (Z.pos (digits2_pos mx) + ex)))
    as (mz & -> & Hmz).
  set (ez := Z.min ex _) in *.
  apply binary_round_aux_okf; try lia.
  rewrite Hmz. rewrite Zdigits2_mul_pow2 by lia. simpl Zdigits2. lia.
Qed.

Lemma binary_round_sign k s mx ex :
  okf k (binary_round prec emax s mx ex) ->
  sign_bit (binary_round prec emax s mx ex) = s.
Proof.
  unfold binary_round. destruct (shl_align _ _ _) as [mz ez].
  apply okf_sign_round_aux.
Qed.

Lemma binary_normalize_okf m e sz k :
  e <= 971 -> Zdigits2 m + e <= k -> -1074 <= k -> k <= 1023 ->
  okf (k + 1) (binary_normalize prec emax m e sz).
Proof.
  intros He Hd Hk Hk'. destruct m as [|p|p]; simpl binary_normalize.
  - exact I.
  - apply binary_round_okf; assumption.
  - apply binary_round_okf; assumption.
Qed.

Lemma binary_normalize_sign m e sz k :
  m <> 0 -> okf k (binary_normalize prec emax m e sz) ->
  sign_bit (binary_normalize prec emax m e sz) = (m <? 0).
Proof.
  intros Hm. destruct m as [|p|p]; simpl binary_normalize; try lia; intros H.
  - apply binary_round_sign in H. exact H.
  - apply binary_round_sign in H. exact H.
Qed.

Lemma M53_digits m : 0 <= m <= M53 -> Zdigits2 m <= 53.
Proof. intros H. apply Zdigits2_le; try lia. unfold M53 in H. lia. Qed.

Lemma binary_round_aux_max s m e :
  0 <= m -> e <= 971 -> m <= M53 * 2 ^ (971 - e) ->
  okf 1024 (binary_round_aux prec emax s m e loc_Exact).
Proof.
  intros Hm He Hb.
  pose proof (pow2_pos (971 - e) ltac:(lia)) as Hp.
  assert (Hlt : m < 2 ^ (1024 - e)).
  { replace (1024 - e) with (53 + (971 - e)) by lia. rewrite Z.pow_add_r by lia.
    unfold M53 in Hb. nia. }
  assert (Hd : Zdigits2 m <= 1024 - e) by (apply Zdigits2_le; lia).
  destruct (Z_le_gt_dec (Zdigits2 m + e) 1023) as [Hs|Hs].
  { apply (binary_round_aux_okf s m e loc_Exact 1023); lia. }
  unfold binary_round_aux.
  destruct (shr_fexp_spec m e loc_Exact Hm) as (mrs1 & -> & Hm1 & Hex & _).
  remember (Z.max e (fexp prec emax (Zdigits2 m + e))) as e1 eqn:Ee1.
  rewrite fexp_eq in Ee1.
  assert (He1 : e1 = 971) by lia. clear Ee1. subst e1.
  remember (round_nearest_even (shr_m mrs1) (loc_of_shr_record mrs1)) as m2 eqn:Em2.
  assert (Hm1' : 0 <= shr_m mrs1).
  { rewrite Hm1. apply Z.div_pos; lia. }
  assert (Hm2 : 0 <= m2 <= M53).
  { pose proof (round_nearest_even_bounds (shr_m mrs1) (loc_of_shr_record mrs1)) as B.
    rewrite <- Em2 in B. split; [lia|].
    destruct (Z.eq_dec (m mod 2 ^ (971 - e)) 0) as [E0|N0].
    - rewrite (Hex eq_refl E0) in Em2. simpl in Em2. subst m2. rewrite Hm1.
      apply Z.div_le_upper_bound; lia.
    - pose proof (Z.div_mod m (2 ^ (971 - e)) ltac:(lia)) as Hdm.
      pose proof (Z.mod_pos_bound m (2 ^ (971 - e)) Hp) as Hmb.
      rewrite <- Hm1 in Hdm.
      assert (shr_m mrs1 < M53) by nia. lia. }
  destruct (shr_fexp_spec m2 971 loc_Exact ltac:(lia)) as (mrs2 & -> & Hm3 & _ & _).
  remember (Z.max 971 (fexp prec emax (Zdigits2 m2 + 971))) as e2 eqn:Ee2.
  rewrite fexp_eq in Ee2.
  pose proof (M53_digits m2 Hm2) as Hd2.
  assert (He2 : e2 = 971) by lia. clear Ee2. subst e2.
  rewrite Z.sub_diag in Hm3. simpl (2 ^ 0) in Hm3. rewrite Z.div_1_r in Hm3.
  rewrite Hm3. change (emax - prec) with 971.
  destruct m2 as [|p|p]; [exact I| |lia].
  change (971 <=? 971) with true. cbv iota.
  split; [lia|]. change (Zdigits2 (Z.pos p)) with (Z.pos (digits2_pos p)) in Hd2. lia.
Qed.

Lemma binary_round_max s mx ex :
  ex <= 971 -> Zpos mx <= M53 * 2 ^ (971 - ex) ->
  okf 1024 (binary_round prec emax s mx ex).
Proof.
  intros He Hb. unfold binary_round.
  destruct (shl_align_spec mx ex (fexp prec emax (Z.pos (digits2_pos mx) + ex)))
    as (mz & -> & Hmz).
  remember (Z.min ex (fexp prec emax (Z.pos (digits2_pos mx) + ex))) as ez eqn:Eez.
  assert (ez <= ex) by lia.
  apply binary_round_aux_max; try lia.
  rewrite Hmz. replace (971 - ez) with ((971 - ex) + (ex - ez)) by lia.
  rewrite Z.pow_add_r by lia.
  pose proof (pow2_pos (ex - ez) ltac:(lia)). nia.
Qed.

Lemma binary_normalize_max m e sz :
  e <= 971 -> Z.abs m <= M53 * 2 ^ (971 - e) ->
  okf 1024 (binary_normalize prec emax m e sz).
Proof.
  intros He Hb. destruct m as [|p|p]; simpl binary_normalize.
  - exact I.
  - apply binary_round_max; [lia|]. simpl in Hb. exact Hb.
  - apply binary_round_max; [lia|]. simpl in Hb. exact Hb.
Qed.

(** exact rounding of a canonical number given with a smaller exponent *)
Lemma binary_round_aux_exact s m e j :
  0 <= j ->
  fexp prec emax (Zpos (digits2_pos m) + e) = e -> e <= 971 ->
  binary_round_aux prec emax s (Zpos m * 2 ^ j) (e - j) loc_Exact = S754_finite s m e.
Proof.
  intros Hj Hc He.
  pose proof (pow2_pos j Hj) as Hp.
  assert (Hd : Zdigits2 (Z.pos m * 2 ^ j) + (e - j) = Zpos (digits2_pos m) + e).
  { rewrite Zdigits2_mul_pow2 by lia. simpl Zdigits2. lia. }
  unfold binary_round_aux.
  destruct (shr_fexp_spec (Z.pos m * 2 ^ j) (e - j) loc_Exact ltac:(lia))
    as (mrs1 & -> & Hm1 & Hex & _).
  rewrite Hd, Hc in *.
  assert (X1 : Z.max (e - j) e = e) by lia. rewrite X1 in *.
  assert (X2 : e - (e - j) = j) by lia. rewrite X2 in *.
  rewrite Z.div_mul in Hm1 by lia.
  rewrite (Hex eq_refl (Z.mod_mul (Z.pos m) (2 ^ j) ltac:(lia))). rewrite Hm1.
  simpl round_nearest_even.
  destruct (shr_fexp_spec (Z.pos m) e loc_Exact ltac:(lia)) as (mrs2 & -> & Hm3 & _ & _).
  simpl Zdigits2 in *. rewrite Hc in *.
  rewrite Z.max_id in *.
  rewrite Z.sub_diag in Hm3. simpl (2 ^ 0) in Hm3. rewrite Z.div_1_r in Hm3.
  rewrite Hm3. change (emax - prec) with 971.
  destruct (Z.leb_spec e 971); [reflexivity|lia].
Qed.

Lemma Zdigits2_abs z : Zdigits2 (Z.abs z) = Zdigits2 z.
Proof. destruct z; reflexivity. Qed.

Lemma Zdigits2_lt_pow2 z k : 0 <= k -> Z.abs z < 2 ^ k -> Zdigits2 z <= k.
Proof.
  intros Hk H. rewrite <- Zdigits2_abs. apply Zdigits2_le; lia.
Qed.

Lemma digits2_pos_lt m : Zpos m < 2 ^ Zpos (digits2_pos m).
Proof.
  pose proof (Zdigits2_le (Zpos m) (Zpos (digits2_pos m)) ltac:(lia) ltac:(lia)) as H.
  apply H. simpl. lia.
Qed.

Lemma digits2_pos_ge m : 2 ^ (Zpos (digits2_pos m) - 1) <= Zpos m.
Proof.
  apply (Zdigits2_ge (Zpos m) (Zpos (digits2_pos m))); try lia. simpl. lia.
Qed.

Lemma pow2_le a b : 0 <= a <= b -> 2 ^ a <= 2 ^ b.
Proof. intros. apply Z.pow_le_mono_r; lia. Qed.

Lemma okf_pow m e k : e <= 971 -> Zpos (digits2_pos m) + e <= k -> Zpos m < 2 ^ (k - e).
Proof.
  intros He Hd. apply (Z.lt_le_trans _ _ _ (digits2_pos_lt m)).
  apply pow2_le. lia.
Qed.

(** the aligned mantissa of the operands of an addition *)
Lemma align_fst mx ex ez :
  ez <= ex -> Zpos (fst (shl_align mx ex ez)) = Zpos mx * 2 ^ (ex - ez).
Proof.
  intros H. destruct (shl_align_spec mx ex ez) as (mz & E & Hmz).
  rewrite E. simpl fst. rewrite Hmz. replace (Z.min ex ez) with ez by lia. reflexivity.
Qed.

Lemma align_lt mx ex ez k :
  ez <= ex -> Zpos (digits2_pos mx) + ex <= k ->
  Zpos (fst (shl_align mx ex ez)) < 2 ^ (k - ez).
Proof.
  intros H Hd. rewrite align_fst by assumption.
  replace (k - ez) with ((k - ex) + (ex - ez)) by lia.
  rewrite Z.pow_add_r by lia.
  pose proof (pow2_pos (ex - ez) ltac:(lia)).
  pose proof (digits2_pos_lt mx).
  assert (2 ^ Zpos (digits2_pos mx) <= 2 ^ (k - ex)) by (apply pow2_le; lia).
  nia.
Qed.

Lemma cond_Zopp_abs s z : Z.abs (cond_Zopp s z) = Z.abs z.
Proof. destruct s; simpl; lia. Qed.

Lemma addsub_okf (sgn : bool) sx mx ex sy my ey k :
  ex <= 971 -> ey <= 971 ->
  Zpos (digits2_pos mx) + ex <= k -> Zpos (digits2_pos my) + ey <= k ->
  -1074 <= k -> k <= 1022 ->
  let ez := Z.min ex ey in
  let X := cond_Zopp sx (Zpos (fst (shl_align mx ex ez))) in
  let Y := cond_Zopp sy (Zpos (fst (shl_align my ey ez))) in
  okf (k + 2) (binary_normalize prec emax (if sgn then X + Y else X - Y) ez false).
Proof.
  intros Hex Hey Hdx Hdy Hk Hk' ez X Y.
  replace (k + 2) with ((k + 1) + 1) by lia.
  apply binary_normalize_okf; try lia.
  assert (Z.abs X < 2 ^ (k - ez)).
  { unfold X. rewrite cond_Zopp_abs. simpl Z.abs. apply align_lt; lia. }
  assert (Z.abs Y < 2 ^ (k - ez)).
  { unfold Y. rewrite cond_Zopp_abs. simpl Z.abs. apply align_lt; lia. }
  assert (Zdigits2 (if sgn then X + Y else X - Y) <= k + 1 - ez); [|lia].
  apply Zdigits2_lt_pow2; [lia|].
  replace (k + 1 - ez) with (1 + (k - ez)) by lia. rewrite Z.pow_add_r by lia.
  change (2 ^ 1) with 2. destruct sgn; lia.
Qed.

Lemma sub_okf k x y :
  okf k x -> okf k y -> -1074 <= k -> k <= 1022 -> okf (k + 2) (sub x y).
Proof.
  intros Hx Hy Hk Hk'.
  destruct x as [sx|sx| |sx mx ex], y as [sy|sy| |sy my ey]; simpl in Hx, Hy; try tauto.
  - simpl. destruct sx, sy; exact I.
  - simpl. lia.
  - simpl. lia.
  - destruct Hx, Hy. apply (addsub_okf false); assumption.
Qed.

Lemma add_okf k x y :
  okf k x -> okf k y -> -1074 <= k -> k <= 1022 -> okf (k + 2) (add x y).
Proof.
  intros Hx Hy Hk Hk'.
  destruct x as [sx|sx| |sx mx ex], y as [sy|sy| |sy my ey]; simpl in Hx, Hy; try tauto.
  - simpl. destruct sx, sy; exact I.
  - simpl. lia.
  - simpl. lia.
  - destruct Hx, Hy. apply (addsub_okf true); assumption.
Qed.

Lemma okf_lemax k x : okf k x -> k <= 1023 -> lemax x.
Proof.
  destruct x as [s|s| |s m e]; unfold okf, lemax; try tauto. intros [He Hd] Hk. split; [lia|].
  pose proof (okf_pow m e 1023 He ltac:(lia)) as H.
  replace (1023 - e) with (52 + (971 - e)) in H by lia. rewrite Z.pow_add_r in H by lia.
  pose proof (pow2_pos (971 - e) ltac:(lia)). unfold M53. nia.
Qed.

Lemma lemax_okf x : lemax x -> okf 1024 x.
Proof.
  destruct x as [s|s| |s m e]; unfold okf, lemax; try tauto. intros [He Hb]. split; [lia|].
  assert (Zdigits2 (Zpos m) <= 1024 - e); [|unfold Zdigits2 in *; lia].
  apply Zdigits2_le; try lia.
  replace (1024 - e) with (53 + (971 - e)) by lia. rewrite Z.pow_add_r by lia.
  pose proof (pow2_pos (971 - e) ltac:(lia)). unfold M53 in Hb. nia.
Qed.

Lemma sub_same_sign s mx ex my ey :
  lemax (S754_finite s mx ex) -> lemax (S754_finite s my ey) ->
  okf 1024 (sub (S754_finite s mx ex) (S754_finite s my ey)).
Proof.
  intros [Hex Hbx] [Hey Hby]. unfold sub, SFsub.
  set (ez := Z.min ex ey).
  apply binary_normalize_max; [lia|].
  rewrite !align_fst by lia.
  assert (HX : Zpos mx * 2 ^ (ex - ez) <= M53 * 2 ^ (971 - ez)).
  { replace (971 - ez) with ((971 - ex) + (ex - ez)) by lia. rewrite Z.pow_add_r by lia.
    pose proof (pow2_pos (ex - ez) ltac:(lia)). nia. }
  assert (HY : Zpos my * 2 ^ (ey - ez) <= M53 * 2 ^ (971 - ez)).
  { replace (971 - ez) with ((971 - ey) + (ey - ez)) by lia. rewrite Z.pow_add_r by lia.
    pose proof (pow2_pos (ey - ez) ltac:(lia)). nia. }
  assert (0 <= Zpos mx * 2 ^ (ex - ez)).
  { pose proof (pow2_pos (ex - ez) ltac:(lia)). nia. }
  assert (0 <= Zpos my * 2 ^ (ey - ez)).
  { pose proof (pow2_pos (ey - ez) ltac:(lia)). nia. }
  destruct s; unfold cond_Zopp; lia.
Qed.

Lemma div_core_spec mx ex my ey :
  let D1 := Zpos (digits2_pos mx) + ex in
  let D2 := Zpos (digits2_pos my) + ey in
  exists q e' l,
    SFdiv_core_binary prec emax (Zpos mx) ex (Zpos my) ey = (q, e', l) /\
    0 <= q /\ e' <= fexp prec emax (D1 - D2) /\
    Zdigits2 q + e' <= Z.max e' (D1 - D2 + 1).
Proof.
  intros D1 D2. unfold SFdiv_core_binary.
  change (Zdigits2 (Z.pos mx)) with (Zpos (digits2_pos mx)).
  change (Zdigits2 (Z.pos my)) with (Zpos (digits2_pos my)).
  fold D1. fold D2.
  remember (Z.min (fexp prec emax (D1 - D2)) (ex - ey)) as e' eqn:Ee'.
  remember (ex - ey - e') as s eqn:Es.
  assert (Hs : 0 <= s) by lia.
  remember (match s with Z.pos _ => Z.shiftl (Z.pos mx) s | 0 => Z.pos mx | Z.neg _ => 0 end)
    as m' eqn:Em'.
  assert (Hm' : m' = Zpos mx * 2 ^ s).
  { subst m'. destruct s as [|p|p] eqn:E; try lia.
    apply Z.shiftl_mul_pow2. lia. }
  cbv zeta.
  destruct (Z.div_eucl m' (Z.pos my)) as [q r] eqn:E.
  exists q, e', (new_location (Z.pos my) r).
  assert (Hq : q = m' / Zpos my) by (unfold Z.div; rewrite E; reflexivity).
  pose proof (pow2_pos s Hs) as Hps.
  assert (Hq0 : 0 <= q) by (rewrite Hq; apply Z.div_pos; nia).
  split; [reflexivity|]. split; [exact Hq0|]. split; [lia|].
  pose proof (digits2_pos_lt mx) as Hx.
  pose proof (digits2_pos_ge my) as Hy.
  set (d1 := Zpos (digits2_pos mx)) in *.
  set (d2 := Zpos (digits2_pos my)) in *.
  assert (Hd1 : 0 < d1) by (unfold d1; lia).
  assert (Hd2 : 0 < d2) by (unfold d2; lia).
  assert (Hmlt : m' < 2 ^ (d1 + s)).
  { rewrite Hm', Z.pow_add_r by lia. nia. }
  assert (Hqm : Zpos my * q <= m').
  { rewrite Hq. apply Z.mul_div_le. lia. }
  pose proof (pow2_pos (d2 - 1) ltac:(lia)) as Hp2.
  destruct (Z_lt_le_dec (d1 + s - d2 + 1) 0) as [J|J].
  - assert (q = 0).
    { rewrite Hq. apply Z.div_small. split; [nia|].
      apply (Z.lt_le_trans _ _ _ Hmlt). apply (Z.le_trans _ (2 ^ (d2 - 1))); [|lia].
      apply pow2_le. lia. }
    subst q. rewrite H. simpl Zdigits2. lia.
  - assert (Zdigits2 q <= d1 + s - d2 + 1).
    { apply Zdigits2_le; try lia.
      destruct (Z_lt_le_dec q (2 ^ (d1 + s - d2 + 1))) as [L|L]; [exact L|exfalso].
      assert (2 ^ (d1 + s) <= q * 2 ^ (d2 - 1)).
      { replace (d1 + s) with ((d1 + s - d2 + 1) + (d2 - 1)) by lia.
        rewrite Z.pow_add_r by lia. nia. }
      nia. }
    unfold D1, D2. fold d1 d2. lia.
Qed.

Lemma div_okf a x sy my ey k :
  okf a x ->
  a - (Zpos (digits2_pos my) + ey) + 1 <= k -> -1074 <= k -> k <= 1023 ->
  okf (k + 1) (div x (S754_finite sy my ey)).
Proof.
  intros Hx Ha Hk Hk'.
  destruct x as [sx|sx| |sx mx ex]; unfold okf in Hx; try tauto; try exact I.
  destruct Hx as [Hex Hdx]. unfold div, SFdiv.
  destruct (div_core_spec mx ex my ey) as (q & e' & l & -> & Hq & He' & Hd).
  rewrite fexp_eq in He'.
  apply binary_round_aux_okf; lia.
Qed.

Lemma mul_okf a x sy my ey k :
  okf a x -> ey <= 0 ->
  a + (Zpos (digits2_pos my) + ey) <= k -> -1074 <= k -> k <= 1023 ->
  okf (k + 1) (mul x (S754_finite sy my ey)).
Proof.
  intros Hx Hey Ha Hk Hk'.
  destruct x as [sx|sx| |sx mx ex]; unfold okf in Hx; try tauto; try exact I.
  destruct Hx as [Hex Hdx]. unfold mul, SFmul.
  apply binary_round_aux_okf; try lia.
  assert (Zdigits2 (Z.pos (mx * my)) <= Zpos (digits2_pos mx) + Zpos (digits2_pos my)); [|lia].
  apply Zdigits2_le; try lia.
  rewrite Pos2Z.inj_mul, Z.pow_add_r by lia.
  pose proof (digits2_pos_lt mx). pose proof (digits2_pos_lt my). nia.
Qed.

Lemma fmod_okf x sy my ey :
  okf 1024 x ->
  -1074 <= Zpos (digits2_pos my) + ey -> Zpos (digits2_pos my) + ey <= 1023 ->
  okf (Zpos (digits2_pos my) + ey + 1) (fmod x (S754_finite sy my ey)) /\
  (nonzero (fmod x (S754_finite sy my ey)) = true ->
   sign_bit (fmod x (S754_finite sy my ey)) = sign_bit x).
Proof.
  intros Hx Hlo Hhi.
  destruct x as [sx|sx| |sx mx ex]; unfold okf in Hx; try tauto.
  { destruct Hx as [Hex Hdx]. unfold fmod.
    remember (Z.min ex ey) as e eqn:Ee.
    rewrite !Z.shiftl_mul_pow2 by lia.
    remember (Z.rem (Z.pos mx * 2 ^ (ex - e)) (Z.pos my * 2 ^ (ey - e))) as r eqn:Er.
    pose proof (pow2_pos (ex - e) ltac:(lia)) as Hp1.
    pose proof (pow2_pos (ey - e) ltac:(lia)) as Hp2.
    assert (Hr : 0 <= r < Z.pos my * 2 ^ (ey - e)).
    { subst r. apply Z.rem_bound_pos; nia. }
    assert (Hd : Zdigits2 (cond_Zopp sx r) + e <= Zpos (digits2_pos my) + ey).
    { rewrite <- Zdigits2_abs, cond_Zopp_abs, Zdigits2_abs.
      pose proof (Zdigits2_mono r (Z.pos my * 2 ^ (ey - e)) ltac:(lia)) as Hm.
      rewrite Zdigits2_mul_pow2 in Hm by lia.
      change (Zdigits2 (Z.pos my)) with (Zpos (digits2_pos my)) in Hm. lia. }
    assert (Hok : okf (Z.pos (digits2_pos my) + ey + 1)
                      (binary_normalize prec emax (cond_Zopp sx r) e sx)).
    { apply binary_normalize_okf; lia. }
    split; [exact Hok|].
    destruct (Z.eq_dec r 0) as [E0|N0].
    + rewrite E0. destruct sx; simpl; discriminate.
    + intros _.
      assert (Hne : cond_Zopp sx r <> 0) by (destruct sx; unfold cond_Zopp; lia).
      rewrite (binary_normalize_sign _ _ _ _ Hne Hok).
      destruct sx; unfold cond_Zopp, sign_bit; lia. }
Qed.

Lemma floor_okf a x : okf a x -> 0 <= a -> a <= 1021 -> okf (a + 2) (floor x).
Proof.
  intros Hx Ha Ha'.
  destruct x as [s|s| |s m e]; unfold okf in Hx; try tauto; try exact I.
  destruct Hx as [He Hd]. unfold floor.
  destruct (Z.leb_spec 0 e) as [L|L].
  - unfold okf. lia.
  - rewrite Z.shiftr_div_pow2 by lia.
    replace (a + 2) with ((a + 1) + 1) by lia.
    apply binary_normalize_okf; try lia.
    rewrite Z.add_0_r.
    pose proof (okf_pow m e a He Hd) as Hm.
    replace (a - e) with (a + (- e)) in Hm by lia. rewrite Z.pow_add_r in Hm by lia.
    pose proof (pow2_pos (- e) ltac:(lia)) as Hp.
    pose proof (pow2_pos a Ha) as Hpa.
    apply Zdigits2_lt_pow2; [lia|].
    rewrite Z.pow_add_r by lia. change (2 ^ 1) with 2.
    destruct s; unfold cond_Zopp.
    + assert (- 2 ^ a <= - Z.pos m / 2 ^ (- e)).
      { apply Z.div_le_lower_bound; [lia|]. nia. }
      assert (- Z.pos m / 2 ^ (- e) <= 0).
      { apply Z.div_le_upper_bound; lia. }
      lia.
    + assert (0 <= Z.pos m / 2 ^ (- e)) by (apply Z.div_pos; lia).
      assert (Z.pos m / 2 ^ (- e) < 2 ^ a).
      { apply Z.div_lt_upper_bound; [lia|]. nia. }
      lia.
Qed.

Lemma of_Z_okf z k :
  Zdigits2 z <= k -> -1074 <= k -> k <= 1023 -> okf (k + 1) (of_Z z).
Proof. intros. apply binary_normalize_okf; lia. Qed.

Lemma of_Z_max z : Z.abs z <= M53 * 2 ^ 971 -> okf 1024 (of_Z z).
Proof. intros. apply binary_normalize_max; [lia|]. exact H. Qed.

Lemma of_Z_exact s m e :
  0 <= e -> bounded prec emax m e = true ->
  of_Z (cond_Zopp s (Zpos m * 2 ^ e)) = S754_finite s m e.
Proof.
  intros He Hb. unfold bounded, canonical_mantissa in Hb.
  apply andb_prop in Hb. destruct Hb as [Hc Hle].
  apply Z.eqb_eq in Hc. apply Z.leb_le in Hle. change (emax - prec) with 971 in Hle.
  pose proof (pow2_pos e He) as Hp.
  destruct (Z.pos m * 2 ^ e) as [|p|p] eqn:E; try lia.
  assert (Hdp : Z.pos (digits2_pos p) = Z.pos (digits2_pos m) + e).
  { change (Z.pos (digits2_pos p)) with (Zdigits2 (Z.pos p)). rewrite <- E.
    rewrite Zdigits2_mul_pow2 by lia. reflexivity. }
  assert (Hr : forall s', binary_round prec emax s' p 0 = S754_finite s' m e).
  { intros s'. unfold binary_round.
    destruct (shl_align_spec p 0 (fexp prec emax (Z.pos (digits2_pos p) + 0))) as (mz & -> & Hmz).
    rewrite Z.add_0_r, Hdp, Hc in *.
    assert (X : Z.min 0 e = 0) by lia. rewrite X in *.
    simpl in Hmz. rewrite Pos.mul_1_r in Hmz. injection Hmz as ->.
    rewrite <- E. replace 0 with (e - e) at 1 by lia.
    apply binary_round_aux_exact; lia. }
  unfold of_Z. destruct s; unfold cond_Zopp; simpl binary_normalize; apply Hr.
Qed.

Lemma sub_diag_finite s m e :
  sub (S754_finite s m e) (S754_finite s m e) = S754_zero false.
Proof. unfold sub, SFsub. rewrite Z.sub_diag. reflexivity. Qed.

Lemma valid_finite s m e :
  valid_binary prec emax (S754_finite s m e) = true ->
  -1074 <= e <= 971 /\ Zpos (digits2_pos m) <= 53 /\ lemax (S754_finite s m e).
Proof.
  unfold valid_binary, bounded, canonical_mantissa. intros Hb.
  apply andb_prop in Hb. destruct Hb as [Hc Hle].
  apply Z.eqb_eq in Hc. apply Z.leb_le in Hle. change (emax - prec) with 971 in Hle.
  rewrite fexp_eq in Hc.
  assert (Hd : Zpos (digits2_pos m) <= 53) by lia.
  split; [lia|]. split; [exact Hd|]. unfold lemax. split; [lia|].
  pose proof (digits2_pos_lt m) as Hlt.
  assert (2 ^ Zpos (digits2_pos m) <= 2 ^ 53) by (apply pow2_le; lia).
  pose proof (pow2_pos (971 - e) ltac:(lia)). unfold M53. nia.
Qed.

Lemma to_int_ret k x : okf k x -> exists z, to_int x = ret z.
Proof.
  destruct x as [s|s| |s m e]; unfold okf; try tauto; intros _; eexists; reflexivity.
Qed.

Lemma of_int_ret k z : okf k (of_Z z) -> of_int z = ret (of_Z z).
Proof.
  unfold of_int. destruct (of_Z z); unfold okf; try tauto; reflexivity.
Qed.

Lemma okf_one : okf 1 one.
Proof. vm_compute. split; discriminate. Qed.

Lemma float_div_mod_okf vx my ey T :
  let wx := S754_finite false my ey in
  let Dy := Zpos (digits2_pos my) + ey in
  okf 1024 vx -> okf T (sub vx (fmod vx wx)) ->
  ey <= 971 -> 1 <= Dy -> Dy <= T -> T - Dy + 8 <= 1023 ->
  okf (T - Dy + 8) (fst (float_div_mod vx wx)).
Proof.
  intros wx Dy Hvx Ht Hey HD1 HD2 HT.
  unfold float_div_mod.
  remember (fmod vx wx) as mod0 eqn:Emod.
  remember (div (sub vx mod0) wx) as div0 eqn:Ediv.
  assert (Hdiv0 : okf (T - Dy + 2) div0).
  { subst div0. unfold wx. replace (T - Dy + 2) with ((T - Dy + 1) + 1) by lia.
    apply (div_okf T); try assumption; fold Dy; lia. }
  pose proof okf_one as H1.
  assert (Hdiv1 : okf (T - Dy + 4) (sub div0 one)).
  { replace (T - Dy + 4) with ((T - Dy + 2) + 2) by lia.
    apply sub_okf; try lia; try assumption. apply (okf_mono 1); [lia|assumption]. }
  assert (Hfl : forall d, okf (T - Dy + 4) d ->
            okf (T - Dy + 8)
              (if nonzero d
               then if ltb half (sub d (floor d)) then add (floor d) one else floor d
               else copysign_zero (div vx wx))).
  { intros d Hd.
    assert (Hf : okf (T - Dy + 6) (floor d)).
    { replace (T - Dy + 6) with ((T - Dy + 4) + 2) by lia. apply floor_okf; try lia; assumption. }
    destruct (nonzero d); [|exact I].
    destruct (ltb half (sub d (floor d))).
    - replace (T - Dy + 8) with ((T - Dy + 6) + 2) by lia.
      apply add_okf; try lia; try assumption. apply (okf_mono 1); [lia|assumption].
    - apply (okf_mono (T - Dy + 6)); [lia|assumption]. }
  destruct (nonzero mod0).
  - destruct (negb (Bool.eqb (ltb wx pos_zero) (ltb mod0 pos_zero))); cbv iota beta; simpl fst.
    + apply Hfl. exact Hdiv1.
    + apply Hfl. apply (okf_mono (T - Dy + 2)); [lia|assumption].
  - cbv iota beta; simpl fst. apply Hfl. apply (okf_mono (T - Dy + 2)); [lia|assumption].
Qed.

Lemma rem_okf vx my ey :
  let wx := S754_finite false my ey in
  let Dy := Zpos (digits2_pos my) + ey in
  okf 1024 vx -> ey <= 971 -> -1074 <= Dy -> Dy <= 1000 ->
  exists r, rem vx wx = ret r /\ okf (Dy + 3) r.
Proof.
  intros wx Dy Hvx Hey HD1 HD2. unfold rem. simpl nonzero. cbv iota.
  eexists. split; [reflexivity|].
  destruct (fmod_okf vx false my ey Hvx ltac:(fold Dy; lia) ltac:(fold Dy; lia)) as [Hm _].
  fold wx Dy in Hm.
  destruct (nonzero (fmod vx wx)); [|exact I].
  destruct (negb (Bool.eqb (ltb wx pos_zero) (ltb (fmod vx wx) pos_zero))).
  - replace (Dy + 3) with ((Dy + 1) + 2) by lia. apply add_okf; try lia; try assumption.
    unfold wx, okf. fold Dy. lia.
  - apply (okf_mono (Dy + 1)); [lia|assumption].
Qed.

Lemma vfin_lemax x : vfin x -> lemax x.
Proof.
  intros [Hv Hf]. destruct x as [s|s| |s m e]; try discriminate; [exact I|].
  apply valid_finite in Hv. tauto.
Qed.

Lemma sub_fmod_okf x my ey :
  let wx := S754_finite false my ey in
  let Dy := Zpos (digits2_pos my) + ey in
  vfin x -> -1074 <= Dy -> Dy <= 1022 ->
  okf 1024 (sub x (fmod x wx)).
Proof.
  intros wx Dy Hx HD1 HD2.
  pose proof (vfin_lemax x Hx) as Hl. pose proof (lemax_okf x Hl) as Ho.
  destruct (fmod_okf x false my ey Ho ltac:(fold Dy; lia) ltac:(fold Dy; lia)) as [Hm Hs].
  fold wx Dy in Hm, Hs.
  pose proof (okf_lemax _ _ Hm ltac:(lia)) as Hlm.
  destruct (fmod x wx) as [s'|s'| |s' m' e'] eqn:E; unfold okf in Hm; try tauto.
  - destruct x as [s|s| |s m e]; unfold lemax in Hl; try tauto;
      try (destruct s, s'; exact I); try (apply lemax_okf; exact Hl).
  - destruct x as [s|s| |s m e]; unfold lemax in Hl; try tauto;
      try discriminate E.
    specialize (Hs eq_refl). simpl in Hs. subst s'.
    apply sub_same_sign; assumption.
Qed.

Lemma frac_okf x :
  vfin x ->
  exists i fi, to_int x = ret i /\ of_int i = ret fi /\ okf 56 (sub x fi).
Proof.
  intros [Hv Hf].
  destruct x as [s|s| |s m e]; try discriminate.
  - exists 0, (S754_zero false). split; [reflexivity|]. split; [reflexivity|].
    destruct s; exact I.
  - pose proof (valid_finite s m e Hv) as (He & Hd & Hl).
    exists (cond_Zopp s (Z.shiftl (Z.pos m) e)).
    destruct (Z_le_gt_dec 0 e) as [L|L].
    + exists (S754_finite s m e).
      split; [reflexivity|].
      rewrite Z.shiftl_mul_pow2 by lia.
      split.
      * unfold of_int. rewrite of_Z_exact by (try lia; exact Hv). reflexivity.
      * rewrite sub_diag_finite. exact I.
    + exists (of_Z (cond_Zopp s (Z.shiftl (Z.pos m) e))).
      split; [reflexivity|].
      rewrite Z.shiftl_div_pow2 by lia.
      pose proof (pow2_pos (- e) ltac:(lia)) as Hp.
      assert (Hq : 0 <= Z.pos m / 2 ^ (- e) <= Z.pos m).
      { split; [apply Z.div_pos; lia|]. apply Z.div_le_upper_bound; [lia|]. nia. }
      assert (Hi : okf 54 (of_Z (cond_Zopp s (Z.pos m / 2 ^ (- e))))).
      { apply (of_Z_okf _ 53); try lia.
        rewrite <- Zdigits2_abs, cond_Zopp_abs, Zdigits2_abs.
        pose proof (Zdigits2_mono _ _ Hq) as Hm.
        change (Zdigits2 (Z.pos m)) with (Z.pos (digits2_pos m)) in Hm. lia. }
      split; [apply (of_int_ret 54); exact Hi|].
      apply (sub_okf 54); try lia; try assumption.
      unfold okf. lia.
Qed.

Lemma bind_ret {A B : Type} (a : A) (k : A -> result B) : bind (ret a) k = k a.
Proof. reflexivity. Qed.

Lemma of_int_3600 : of_int 3600 = ret c3600.
Proof. vm_compute. reflexivity. Qed.
Lemma of_int_60 : of_int 60 = ret c60.
Proof. vm_compute. reflexivity. Qed.
Lemma of_int_1000 : of_int 1000 = ret c1000.
Proof. vm_compute. reflexivity. Qed.

Lemma floordiv_3600_ret x :
  vfin x -> exists h, (q <- floordiv x c3600 ;; to_int q) = ret h.
Proof.
  intros Hx. unfold floordiv. simpl nonzero. cbv iota. rewrite bind_ret.
  apply (to_int_ret 1020).
  pose proof (sub_fmod_okf x 7916483719987200 (-41) Hx ltac:(vm_compute; discriminate)
                ltac:(vm_compute; discriminate)) as Ht.
  pose proof (lemax_okf x (vfin_lemax x Hx)) as Ho.
  apply (float_div_mod_okf x 7916483719987200 (-41) 1024 Ho Ht);
    vm_compute; discriminate.
Qed.

Lemma floordiv_60_ret r :
  okf 15 r -> exists m, (q <- floordiv r c60 ;; to_int q) = ret m.
Proof.
  intros Hr. unfold floordiv. simpl nonzero. cbv iota. rewrite bind_ret.
  apply (to_int_ret 19).
  assert (Ho : okf 1024 r) by (apply (okf_mono 15); [lia|assumption]).
  destruct (fmod_okf r false 8444249301319680 (-47) Ho ltac:(vm_compute; discriminate)
              ltac:(vm_compute; discriminate)) as [Hm _].
  assert (Ht : okf 17 (sub r (fmod r c60))).
  { apply (sub_okf 15); try lia; try assumption.
    revert Hm. apply okf_mono. vm_compute. discriminate. }
  apply (float_div_mod_okf r 8444249301319680 (-47) 17 Ho Ht);
    vm_compute; discriminate.
Qed.

Lemma format_srt_time_total x :
  vfin x ->
  exists h m s ms,
    LessonPipeline.format_srt_time x =
    ret (PyStr.format_int 2 h ++ ":" ++ PyStr.format_int 2 m ++ ":"
           ++ PyStr.format_int 2 s ++ "," ++ PyStr.format_int 3 ms)%string.
Proof.
  intros Hx.
  pose proof (lemax_okf x (vfin_lemax x Hx)) as Ho.
  destruct (floordiv_3600_ret x Hx) as [h Hh].
  destruct (rem_okf x 7916483719987200 (-41) Ho ltac:(vm_compute; discriminate)
              ltac:(vm_compute; discriminate) ltac:(vm_compute; discriminate))
    as (r1 & Hr1 & Hr1o).
  destruct (floordiv_60_ret r1 Hr1o) as [m Hm].
  destruct (rem_okf x 8444249301319680 (-47) Ho ltac:(vm_compute; discriminate)
              ltac:(vm_compute; discriminate) ltac:(vm_compute; discriminate))
    as (r2 & Hr2 & Hr2o).
  destruct (to_int_ret _ _ Hr2o) as [s Hs].
  destruct (frac_okf x Hx) as (i & fi & Hi & Hfi & Hfo).
  assert (Hms : okf 67 (mul (sub x fi) c1000)).
  { apply (mul_okf 56 _ false 8796093022208000 (-43) 66); try assumption;
      vm_compute; discriminate. }
  destruct (to_int_ret _ _ Hms) as [ms Hmsv].
  exists h, m, s, ms.
  unfold LessonPipeline.format_srt_time.
  rewrite of_int_3600, of_int_60, of_int_1000, !bind_ret.
  unfold bind in Hh, Hm.
  fold c3600 c60 in Hr1, Hr2.
  destruct (floordiv x c3600) as [e1|q1]; [discriminate Hh|].
  rewrite bind_ret, Hh, bind_ret, Hr1, bind_ret.
  destruct (floordiv r1 c60) as [e2|q2]; [discriminate Hm|].
  rewrite bind_ret, Hm, bind_ret, Hr2, bind_ret, Hs, bind_ret, Hi, bind_ret, Hfi, bind_ret.
  rewrite Hmsv, bind_ret. reflexivity.
Qed.

Lemma is_real_vfin x : is_real x = true -> vfin x.
Proof. unfold is_real, vfin. intros H. apply andb_prop in H. exact H. Qed.

End Binary64.

(** * Facts about strings and patterns *)

Section StringFacts.
Import PyStr.

Lemma append_nil_r (s : string) : s ++ "" = s.
Proof. induction s as [|c s IH]; simpl; [reflexivity|now rewrite IH]. Qed.

Lemma append_assoc (a b c : string) : (a ++ b) ++ c = a ++ (b ++ c).
Proof. induction a as [|x a IH]; simpl; [reflexivity|now rewrite IH]. Qed.



Lemma lstrip_suffix s : exists w, s = w ++ lstrip s.
Proof.
  induction s as [|c s [w IH]]; simpl.
  - exists "". reflexivity.
  - destruct (isspace c).
    + exists (String c w). simpl. now rewrite <- IH.
    + exists "". reflexivity.
Qed.

Lemma rstrip_prefix s : exists w, s = rstrip s ++ w.
Proof.
  induction s as [|c s [w IH]]; simpl.
  - exists "". reflexivity.
  - destruct (rstrip s) as [|c' r] eqn:E.
    + destruct (isspace c).
      * exists (String c s). reflexivity.
      * exists s. reflexivity.
    + exists w. simpl. simpl in IH. now rewrite <- IH.
Qed.

Lemma lstrip_head s :
  match lstrip s with
  | String c _ => isspace c = false
  | EmptyString => True
  end.
Proof.
  induction s as [|c s IH]; simpl; [exact I|].
  destruct (isspace c) eqn:E; [exact IH|exact E].
Qed.

Lemma rstrip_head c s :
  isspace c = false -> exists r, rstrip (String c s) = String c r.
Proof.
  intros H. simpl. destruct (rstrip s).
  - rewrite H. eexists; reflexivity.
  - eexists; reflexivity.
Qed.

Lemma strip_head s :
  match strip s with
  | String c _ => isspace c = false
  | EmptyString => True
  end.
Proof.
  unfold strip. pose proof (lstrip_head s) as H.
  destruct (lstrip s) as [|c t]; [exact I|].
  destruct (rstrip_head c t H) as [r ->]. exact H.
Qed.




Lemma rstrip_idem s : rstrip (rstrip s) = rstrip s.
Proof.
  induction s as [|c s IH]; [reflexivity|]. simpl rstrip.
  destruct (rstrip s) as [|c' r] eqn:E.
  - destruct (isspace c) eqn:Ec; [reflexivity|]. simpl. rewrite Ec. reflexivity.
  - change (rstrip (String c (String c' r))) with
      (match rstrip (String c' r) with
       | EmptyString => if isspace c then EmptyString else String c EmptyString
       | r0 => String c r0
       end).
    rewrite IH. reflexivity.
Qed.

Lemma lstrip_fixed s :
  match s with String c _ => isspace c = false | EmptyString => True end ->
  lstrip s = s.
Proof. destruct s as [|c t]; [reflexivity|]. simpl. intros ->. reflexivity. Qed.

Lemma strip_idem s : strip (strip s) = strip s.
Proof.
  unfold strip at 1. rewrite (lstrip_fixed (strip s) (strip_head s)).
  unfold strip. apply rstrip_idem.
Qed.

Lemma strip_sub s : exists a b, s = a ++ strip s ++ b.
Proof.
  destruct (lstrip_suffix s) as [a Ha]. destruct (rstrip_prefix (lstrip s)) as [b Hb].
  exists a, b. unfold strip. rewrite <- Hb. exact Ha.
Qed.

(** empty lines *)

Lemma starts_app a b :
  starts_with_newline (a ++ b) =
  match a with EmptyString => starts_with_newline b | _ => starts_with_newline a end.
Proof. destruct a; reflexivity. Qed.

Lemma has_blank_line_suffix w s :
  has_blank_line (w ++ s) = false -> has_blank_line s = false.
Proof.
  induction w as [|c w IH]; simpl; [tauto|].
  intros H. apply orb_false_iff in H. apply IH. tauto.
Qed.

Lemma has_blank_line_prefix s w :
  has_blank_line (s ++ w) = false -> has_blank_line s = false.
Proof.
  induction s as [|c s IH]; simpl; [reflexivity|].
  intros H. apply orb_false_iff in H. destruct H as [H1 H2].
  rewrite (IH H2), orb_false_r.
  destruct (Ascii.eqb c newline); [|reflexivity]. simpl in *.
  rewrite starts_app in H1. destruct s; [reflexivity|exact H1].
Qed.

Lemma has_blank_line_strip s :
  has_blank_line s = false -> has_blank_line (strip s) = false.
Proof.
  intros H. destruct (strip_sub s) as (a & b & E). rewrite E in H.
  apply has_blank_line_suffix in H. apply has_blank_line_prefix in H. exact H.
Qed.




End StringFacts.

Section SplitFacts.
Import PyStr.








End SplitFacts.

Section RegexFacts.
Import PyStr Re.

Lemma string_length_app (a b : string) :
  String.length (a ++ b) = (String.length a + String.length b)%nat.
Proof. induction a as [|c a IH]; simpl; [reflexivity|now rewrite IH]. Qed.

(** a match is a prefix: what [match_here] returns is a suffix of the text *)
Lemma rep_suffix cls k :
  (forall x r, k x = Some r -> exists m, x = m ++ r) ->
  forall s lo hi r, rep cls lo hi k s = Some r -> exists m, s = m ++ r.
Proof.
  intros Hk. induction s as [|c s IH]; intros lo hi r H.
  - simpl in H. destruct lo; [apply Hk; exact H|discriminate].
  - cbn [rep] in H.
    assert (Hstop : match lo with O => k (String c s) | S _ => None end = Some r ->
                    exists m, String c s = m ++ r).
    { destruct lo; [apply Hk|discriminate]. }
    destruct (cls c && may_take hi)%bool; [|apply Hstop; exact H].
    destruct (rep cls (Nat.pred lo) (option_map Nat.pred hi) k s) as [r'|] eqn:E.
    + injection H as ->. destruct (IH _ _ _ E) as [m ->].
      exists (String c m). reflexivity.
    + apply Hstop. exact H.
Qed.

Lemma match_here_suffix p : forall s r, match_here p s = Some r -> exists m, s = m ++ r.
Proof.
  induction p as [|[cls lo hi] p IH]; intros s r H.
  - simpl in H. injection H as ->. exists "". reflexivity.
  - simpl in H. apply (rep_suffix cls (match_here p) IH) in H. exact H.
Qed.

(** a match stays a match when the text goes on *)
Lemma rep_extend cls k k' w :
  (forall x r, k x = Some r -> exists r', k' (x ++ w) = Some r') ->
  forall s lo hi r, rep cls lo hi k s = Some r ->
    exists r', rep cls lo hi k' (s ++ w) = Some r'.
Proof.
  intros Hk. induction s as [|c s IH]; intros lo hi r H.
  - simpl in H. destruct lo; [|discriminate].
    destruct (Hk _ _ H) as [r' Hr']. simpl in Hr'. simpl.
    destruct w as [|c w]; cbn [rep].
    + eexists; exact Hr'.
    + destruct (cls c && may_take hi)%bool; [|eexists; exact Hr'].
      destruct (rep cls (Nat.pred 0) (option_map Nat.pred hi) k' w); eexists;
        [reflexivity|exact Hr'].
  - change (String c s ++ w) with (String c (s ++ w)). cbn [rep] in *.
    assert (Hstop : match lo with O => k (String c s) | S _ => None end = Some r ->
                    exists r', match lo with O => k' (String c (s ++ w)) | S _ => None end
                               = Some r').
    { destruct lo; [|discriminate]. intros H'. apply (Hk _ _ H'). }
    destruct (cls c && may_take hi)%bool; [|apply Hstop; exact H].
    destruct (rep cls (Nat.pred lo) (option_map Nat.pred hi) k s) as [r1|] eqn:E.
    + destruct (IH _ _ _ E) as [r' ->]. eexists; reflexivity.
    + destruct (rep cls (Nat.pred lo) (option_map Nat.pred hi) k' (s ++ w));
        [eexists; reflexivity|apply Hstop; exact H].
Qed.

Lemma match_here_extend p w :
  forall s r, match_here p s = Some r -> exists r', match_here p (s ++ w) = Some r'.
Proof.
  induction p as [|[cls lo hi] p IH]; intros s r H.
  - eexists; reflexivity.
  - simpl in *. apply (rep_extend cls (match_here p) (match_here p) w IH) in H. exact H.
Qed.

Lemma search_suffix p w s : search p (w ++ s) = false -> search p s = false.
Proof.
  induction w as [|c w IH]; [tauto|].
  change (String c w ++ s) with (String c (w ++ s)). cbn [search].
  destruct (match_here p (String c (w ++ s))); [discriminate|exact IH].
Qed.

Lemma search_prefix p s w : search p (s ++ w) = false -> search p s = false.
Proof.
  induction s as [|c s IH]; intros H.
  - cbn [search]. destruct (match_here p "") as [r|] eqn:E; [|reflexivity].
    destruct (match_here_extend p w _ _ E) as [r' E'].
    change ("" ++ w) with w in *.
    destruct w; cbn [search] in H; rewrite E' in H; discriminate.
  - change (String c s ++ w) with (String c (s ++ w)) in H. cbn [search] in *.
    destruct (match_here p (String c s)) as [r|] eqn:E.
    + destruct (match_here_extend p w _ _ E) as [r' E'].
      change (String c s ++ w) with (String c (s ++ w)) in E'. rewrite E' in H. discriminate.
    + destruct (match_here p (String c (s ++ w))); [discriminate|]. apply IH. exact H.
Qed.

Lemma search_strip p s : search p s = false -> search p (strip s) = false.
Proof.
  intros H. destruct (strip_sub s) as (a & b & E). rewrite E in H.
  apply search_suffix in H. apply search_prefix in H. exact H.
Qed.

Lemma search_head p s : search p s = false -> match_here p s = None.
Proof.
  destruct s; cbn [search]; destruct (match_here p _); congruence.
Qed.

(** without a match, [re.sub] returns its argument *)
Lemma sub_no_match p repl s : search p s = false -> sub p repl s = s.
Proof.
  unfold sub. induction s as [|c s IH]; intros H.
  - cbn [sub_aux]. rewrite (search_head _ _ H). reflexivity.
  - cbn [sub_aux]. pose proof (search_head _ _ H) as Hh. rewrite Hh.
    cbn [search] in H. rewrite Hh in H.
    rewrite (IH H). reflexivity.
Qed.

Lemma sub_aux_skip p repl m rest :
  sub_aux p repl (String.length m) (m ++ rest) = sub_aux p repl 0 rest.
Proof.
  induction m as [|c m IH]; [reflexivity|].
  change (String c m ++ rest) with (String c (m ++ rest)). cbn [String.length sub_aux].
  exact IH.
Qed.

Lemma sub_match p repl c m rest :
  match_here p (String c m ++ rest) = Some rest ->
  sub p repl (String c m ++ rest) = repl ++ sub p repl rest.
Proof.
  intros H. unfold sub.
  change (String c m ++ rest) with (String c (m ++ rest)) in *.
  cbn [sub_aux]. rewrite H.
  cbn [String.length]. rewrite string_length_app.
  replace (S (String.length m + String.length rest) - String.length rest)%nat
    with (S (String.length m)) by lia.
  rewrite sub_aux_skip. reflexivity.
Qed.

Lemma sub_no_match_here p repl c s :
  match_here p (String c s) = None ->
  sub p repl (String c s) = String c (sub p repl s).
Proof. intros H. unfold sub. cbn [sub_aux]. rewrite H. reflexivity. Qed.

End RegexFacts.

Section EmptyLines.
Import PyStr Re.

Lemma star_newline t :
  exists r, rep (Ascii.eqb newline) 0 None (match_here []) t = Some r /\
            starts_with_newline r = false.
Proof.
  induction t as [|c t (r & IH & Hr)].
  - exists "". split; reflexivity.
  - cbn [rep]. destruct (Ascii.eqb_spec newline c) as [<-|Hn].
    + cbn [andb may_take Nat.pred option_map]. rewrite IH. exists r. split; [reflexivity|exact Hr].
    + cbn [andb]. exists (String c t). split; [reflexivity|].
      cbn [starts_with_newline]. destruct (Ascii.eqb_spec c newline); congruence.
Qed.

Lemma match_here_empty_lines s :
  match_here empty_lines s = rep (Ascii.eqb newline) 2 None (match_here []) s.
Proof. reflexivity. Qed.

Lemma empty_lines_some s r :
  match_here empty_lines s = Some r ->
  (exists t, s = String newline (String newline t)) /\ starts_with_newline r = false.
Proof.
  rewrite match_here_empty_lines. intros H.
  destruct s as [|c s]; [discriminate H|]. cbn [rep] in H.
  destruct (Ascii.eqb_spec newline c) as [<-|]; [|discriminate H].
  cbn [andb may_take Nat.pred option_map] in H.
  destruct s as [|c' s]; [discriminate H|]. cbn [rep] in H.
  destruct (Ascii.eqb_spec newline c') as [<-|]; [|discriminate H].
  cbn [andb may_take Nat.pred option_map] in H.
  destruct (star_newline s) as (r0 & E & Hr0). rewrite E in H. injection H as <-.
  split; [exists s; reflexivity|exact Hr0].
Qed.

Lemma empty_lines_none c s :
  match_here empty_lines (String c s) = None ->
  (Ascii.eqb c newline && starts_with_newline s)%bool = false.
Proof.
  intros H. destruct (Ascii.eqb_spec c newline) as [->|]; [|reflexivity].
  destruct s as [|c' s]; [reflexivity|]. cbn [andb starts_with_newline].
  destruct (Ascii.eqb_spec c' newline) as [->|]; [|reflexivity].
  exfalso. rewrite match_here_empty_lines in H. cbn [rep] in H.
  rewrite Ascii.eqb_refl in H. cbn [andb may_take Nat.pred option_map] in H.
  destruct (star_newline s) as (r0 & E & _). rewrite E in H. discriminate H.
Qed.

Lemma collapse_spec n : forall s, (String.length s <= n)%nat ->
  has_blank_line (sub empty_lines nl s) = false /\
  starts_with_newline (sub empty_lines nl s) = starts_with_newline s.
Proof.
  induction n as [|n IH]; intros s Hlen.
  - destruct s; [|simpl in Hlen; lia]. split; reflexivity.
  - destruct s as [|c s]; [split; reflexivity|].
    destruct (match_here empty_lines (String c s)) as [rest|] eqn:E.
    + destruct (empty_lines_some _ _ E) as [[t Ht] Hrest].
      destruct (match_here_suffix _ _ _ E) as [m Hm].
      destruct m as [|c0 m].
      { simpl in Hm. subst rest. rewrite Ht in Hrest. discriminate Hrest. }
      rewrite Hm in E. rewrite Hm, (sub_match _ _ _ _ _ E).
      assert (Hl : (String.length rest <= n)%nat).
      { rewrite Hm in Hlen. change (String c0 m ++ rest) with (String c0 (m ++ rest)) in Hlen.
        cbn [String.length] in Hlen. rewrite string_length_app in Hlen. lia. }
      destruct (IH rest Hl) as [H1 H2].
      change (nl ++ sub empty_lines nl rest) with (String newline (sub empty_lines nl rest)).
      cbn [has_blank_line starts_with_newline]. rewrite Ascii.eqb_refl, H1, H2, Hrest.
      rewrite <- Hm, Ht. split; reflexivity.
    + rewrite (sub_no_match_here _ _ _ _ E).
      assert (Hl : (String.length s <= n)%nat) by (simpl in Hlen; lia).
      destruct (IH s Hl) as [H1 H2].
      cbn [has_blank_line starts_with_newline]. rewrite H1, H2, (empty_lines_none _ _ E).
      split; reflexivity.
Qed.

Lemma collapse_no_blank s : has_blank_line (sub empty_lines nl s) = false.
Proof. apply (collapse_spec (String.length s) s). lia. Qed.

Lemma no_blank_no_search s : has_blank_line s = false -> search empty_lines s = false.
Proof.
  induction s as [|c s IH]; intros H.
  - reflexivity.
  - cbn [search]. destruct (match_here empty_lines (String c s)) as [r|] eqn:E.
    + destruct (empty_lines_some _ _ E) as [[t Ht] _]. rewrite Ht in H.
      cbn [has_blank_line starts_with_newline] in H. rewrite Ascii.eqb_refl in H. discriminate H.
    + apply IH. cbn [has_blank_line] in H. apply orb_false_iff in H. tauto.
Qed.

Lemma collapse_plain s : has_blank_line s = false -> sub empty_lines nl s = s.
Proof. intros H. apply sub_no_match. apply no_blank_no_search. exact H. Qed.

End EmptyLines.

(** * Facts about the loop of [transcribe_audio] *)

Section Loop.
Import PyStr PyFloat LessonPipeline.

Lemma format_time_text x :
  is_real x = true -> format_srt_time x = inr (time_text x).
Proof.
  intros H. destruct (format_srt_time_total x (is_real_vfin x H)) as (h & m & s & ms & E).
  unfold time_text. rewrite E. reflexivity.
Qed.








End Loop.

(** * More facts about the loop and about [srt_to_text] *)

Section LoopMore.
Import PyStr PyFloat LessonPipeline.

Lemma format_srt_time_not_finite x :
  is_finite x = false -> format_srt_time x = raise ValueError.
Proof.
  destruct x as [s|s| |s m e]; try discriminate; intros _.
  - destruct s; vm_compute; reflexivity.
  - vm_compute. reflexivity.
Qed.


Lemma write_segments_app a : forall f b,
  write_segments f (a ++ b)
  = match write_segments f a with
    | (f', inr _) => write_segments f' b
    | (f', inl e) => (f', inl e)
    end.
Proof.
  induction a as [|segment a IH]; intros f b.
  - reflexivity.
  - cbn [app write_segments]. destruct (write_segment f segment) as [f' [e|u]].
    + reflexivity.
    + apply IH.
Qed.

Lemma write_segment_grows f segment :
  exists w, fst (write_segment f segment) = f ++ w.
Proof.
  unfold write_segment, write.
  destruct (format_srt_time (seg_start segment)) as [e|t0].
  - eexists. reflexivity.
  - destruct (format_srt_time (seg_end segment)) as [e|t1].
    + eexists. reflexivity.
    + cbn [fst]. eexists. rewrite !append_assoc. reflexivity.
Qed.

Lemma write_segments_grows segments : forall f,
  exists w, fst (write_segments f segments) = f ++ w.
Proof.
  induction segments as [|segment rest IH]; intros f.
  - exists "". cbn. rewrite append_nil_r. reflexivity.
  - cbn [write_segments]. destruct (write_segment_grows f segment) as [w Hw].
    destruct (write_segment f segment) as [f' [e|u]]; cbn [fst] in *.
    + exists w. exact Hw.
    + destruct (IH f') as [w' Hw']. exists (w ++ w').
      rewrite Hw', Hw, append_assoc. reflexivity.
Qed.

End LoopMore.

Section PatternShapes.
Import PyStr Re.

(** a class repeated exactly [n] times takes [n] characters and goes on *)
Lemma rep_exact_cont cls k : forall n s,
  rep cls n (Some n) k s
  = match rep cls n (Some n) (fun r => Some r) s with
    | Some r => k r
    | None => None
    end.
Proof.
  induction n as [|n IH]; intros s.
  - destruct s as [|c s]; cbn [rep may_take andb]; rewrite ?andb_false_r; reflexivity.
  - destruct s as [|c s]; cbn [rep may_take Nat.pred option_map]; [reflexivity|].
    rewrite andb_true_r. destruct (cls c); [|reflexivity].
    rewrite (IH s).
    destruct (rep cls n (Some n) (fun r => Some r) s) as [r|]; [|reflexivity].
    destruct (k r); reflexivity.
Qed.

Lemma match_here_exact_app p : Forall exact_item p ->
  forall q s r, match_here p s = Some r -> match_here (p ++ q)%list s = match_here q r.
Proof.
  induction 1 as [|[cls lo hi] p Hx Hp IH]; intros q s r H.
  - cbn in H. injection H as ->. reflexivity.
  - cbn [exact_item] in Hx. subst hi. cbn [app match_here] in *.
    rewrite rep_exact_cont in H. rewrite rep_exact_cont.
    destruct (rep cls lo (Some lo) (fun r0 => Some r0) s) as [r1|]; [|discriminate H].
    apply IH. exact H.
Qed.

Lemma rep_exact_extend cls w : forall n s r,
  rep cls n (Some n) (fun r0 => Some r0) s = Some r ->
  rep cls n (Some n) (fun r0 => Some r0) (s ++ w) = Some (r ++ w).
Proof.
  induction n as [|n IH]; intros s r H.
  - destruct s as [|c s]; cbn [rep may_take andb] in H; rewrite ?andb_false_r in H;
      injection H as <-.
    + change ("" ++ w) with w. destruct w as [|c w]; cbn [rep may_take andb];
        rewrite ?andb_false_r; reflexivity.
    + change (String c s ++ w) with (String c (s ++ w)).
      cbn [rep may_take andb]. rewrite andb_false_r. reflexivity.
  - destruct s as [|c s]; cbn [rep may_take Nat.pred option_map] in H; [discriminate H|].
    change (String c s ++ w) with (String c (s ++ w)).
    cbn [rep may_take Nat.pred option_map].
    rewrite andb_true_r in *. destruct (cls c); [|discriminate H].
    destruct (rep cls n (Some n) (fun r0 => Some r0) s) as [r1|] eqn:E; [|discriminate H].
    injection H as <-. rewrite (IH _ _ E). reflexivity.
Qed.

Lemma match_here_exact_extend p w : Forall exact_item p ->
  forall s r, match_here p s = Some r -> match_here p (s ++ w) = Some (r ++ w).
Proof.
  induction 1 as [|[cls lo hi] p Hx Hp IH]; intros s r H.
  - cbn in *. injection H as ->. reflexivity.
  - cbn [exact_item] in Hx. subst hi. cbn [match_here] in *.
    rewrite rep_exact_cont in H. rewrite rep_exact_cont.
    destruct (rep cls lo (Some lo) (fun r0 => Some r0) s) as [r1|] eqn:E; [|discriminate H].
    rewrite (rep_exact_extend _ _ _ _ _ E). apply IH. exact H.
Qed.

(** what a repetition has taken when it succeeds *)
Lemma rep_some_inv cls k : forall s lo hi r,
  rep cls lo hi k s = Some r ->
  exists d rest, s = d ++ rest /\ all_chars cls d = true
                 /\ (lo <= String.length d)%nat
                 /\ (forall h, hi = Some h -> (String.length d <= h)%nat)
                 /\ k rest = Some r.
Proof.
  induction s as [|c s IH]; intros lo hi r H.
  - cbn [rep] in H. destruct lo; [|discriminate H].
    exists "", "". repeat split; [apply Nat.le_refl|intros; cbn; lia|exact H].
  - cbn [rep] in H.
    assert (Hstop : match lo with O => k (String c s) | S _ => None end = Some r ->
      exists d rest, String c s = d ++ rest /\ all_chars cls d = true
                     /\ (lo <= String.length d)%nat
                     /\ (forall h, hi = Some h -> (String.length d <= h)%nat)
                     /\ k rest = Some r).
    { destruct lo; [|discriminate]. intros Hk.
      exists "", (String c s). repeat split; [apply Nat.le_refl|intros; cbn; lia|exact Hk]. }
    destruct (cls c) eqn:Ec; [|apply Hstop; exact H].
    destruct (may_take hi) eqn:Em; cbn [andb] in H; [|apply Hstop; exact H].
    destruct (rep cls (Nat.pred lo) (option_map Nat.pred hi) k s) as [r1|] eqn:E.
    + injection H as <-. destruct (IH _ _ _ E) as (d & rest & -> & Hd & Hl & Hh & Hk).
      exists (String c d), rest. cbn [all_chars String.length]. rewrite Ec, Hd.
      repeat split; [lia| |exact Hk].
      intros h ->. destruct h as [|h]; [discriminate Em|].
      specialize (Hh h eq_refl). lia.
    + apply Hstop. exact H.
Qed.

(** the longest repetition is tried first *)
Lemma rep_greedy cls k rest r :
  match rest with String c _ => cls c = false | EmptyString => True end ->
  k rest = Some r ->
  forall d lo, all_chars cls d = true -> (lo <= String.length d)%nat ->
    rep cls lo None k (d ++ rest) = Some r.
Proof.
  intros Hrest Hk. induction d as [|c d IH]; intros lo Hd Hl.
  - cbn in Hl. assert (lo = 0%nat) by lia. subst lo. change ("" ++ rest) with rest.
    destruct rest as [|c rest']; cbn [rep]; [exact Hk|].
    rewrite Hrest. cbn [andb]. exact Hk.
  - change (String c d ++ rest) with (String c (d ++ rest)). cbn [rep].
    cbn [all_chars] in Hd. apply andb_prop in Hd. destruct Hd as [Hc Hd].
    rewrite Hc. cbn [may_take andb option_map].
    rewrite (IH (Nat.pred lo) Hd); [reflexivity|]. cbn [String.length] in Hl. lia.
Qed.

End PatternShapes.

Section Markup.
Import PyStr Re LessonPipeline.





Lemma timestamp_exact : Forall exact_item timestamp.
Proof. repeat constructor. Qed.

Lemma is_timestamp_match t : is_timestamp t = true -> match_here timestamp t = Some "".
Proof.
  unfold is_timestamp. destruct (match_here timestamp t) as [[|c r]|]; [reflexivity|discriminate..].
Qed.

Lemma match_here_cons cls lo hi p s :
  match_here (Rep cls lo hi :: p) s = rep cls lo hi (match_here p) s.
Proof. reflexivity. Qed.

(** a pattern of fixed repetitions that takes the whole of [m] takes [m]
    at the head of any text *)
Lemma match_here_exact_prefix p q m w :
  Forall exact_item p -> match_here p m = Some "" ->
  match_here (p ++ q)%list (m ++ w) = match_here q w.
Proof.
  intros Hp Hm. apply (match_here_exact_app p Hp).
  apply (match_here_exact_extend p w Hp m "" Hm).
Qed.

Lemma timing_match t0 t1 rest :
  is_timestamp t0 = true -> is_timestamp t1 = true ->
  match_here ([lit newline] ++ (timestamp ++
       ([lit " "; lit "-"; lit "-"; lit ">"; lit " "] ++ (timestamp ++ [lit newline]))))%list
    (nl ++ t0 ++ " --> " ++ t1 ++ nl ++ rest) = Some rest.
Proof.
  intros H0 H1.
  rewrite match_here_exact_prefix; [|repeat constructor|reflexivity].
  rewrite match_here_exact_prefix; [|exact timestamp_exact|apply is_timestamp_match; exact H0].
  rewrite match_here_exact_prefix; [|repeat constructor|reflexivity].
  rewrite match_here_exact_prefix; [|exact timestamp_exact|apply is_timestamp_match; exact H1].
  apply (match_here_exact_extend [lit newline] rest ltac:(repeat constructor) nl "").
  reflexivity.
Qed.

(** the pattern of [srt_to_text] matches an index line and a timing line *)
Lemma markup_match d t0 t1 rest :
  all_chars isdigit d = true -> (1 <= String.length d)%nat ->
  is_timestamp t0 = true -> is_timestamp t1 = true ->
  match_here index_and_timing (d ++ nl ++ t0 ++ " --> " ++ t1 ++ nl ++ rest) = Some rest.
Proof.
  intros Hd Hl H0 H1.
  change index_and_timing with
    (digits1 :: ([lit newline] ++ (timestamp ++
       ([lit " "; lit "-"; lit "-"; lit ">"; lit " "] ++ (timestamp ++ [lit newline])))))%list.
  unfold digits1. rewrite match_here_cons.
  apply rep_greedy; [reflexivity| |exact Hd|exact Hl].
  apply timing_match; assumption.
Qed.





End Markup.

Section Decode.
Import PyStr Re LessonPipeline.

















End Decode.

(** * Reading the [.srt] file back *)

Section ReadBack.
Import PyStr Re LessonPipeline.











End ReadBack.

Section Lengths.
Import PyStr Re LessonPipeline.

(** a substitution by at most one character for matches that are not
    empty does not make the text longer *)
Lemma sub_aux_length p repl :
  (String.length repl <= 1)%nat ->
  (forall s r, match_here p s = Some r -> (String.length r < String.length s)%nat) ->
  forall s skip, (String.length (sub_aux p repl skip s) <= String.length s)%nat.
Proof.
  intros Hrepl Hp. induction s as [|c s IH]; intros skip.
  - cbn [sub_aux]. destruct skip; [|apply Nat.le_refl].
    destruct (match_here p "") as [r|] eqn:E; [|apply Nat.le_refl].
    apply Hp in E. cbn in E. lia.
  - cbn [sub_aux]. destruct skip as [|n].
    + destruct (match_here p (String c s)) as [r|] eqn:E.
      * apply Hp in E.
        destruct (String.length (String c s) - String.length r)%nat as [|n] eqn:En; [lia|].
        rewrite string_length_app. specialize (IH n). cbn [String.length]. lia.
      * cbn [String.length]. specialize (IH 0%nat). lia.
    + specialize (IH n). cbn [String.length]. lia.
Qed.

Lemma index_and_timing_not_empty s r :
  match_here index_and_timing s = Some r -> (String.length r < String.length s)%nat.
Proof.
  change index_and_timing with (digits1 :: List.tl index_and_timing).
  unfold digits1. rewrite match_here_cons. intros H.
  apply rep_some_inv in H. destruct H as (d & rest & -> & _ & Hl & _ & H).
  apply match_here_suffix in H. destruct H as [m ->].
  rewrite !string_length_app. lia.
Qed.

Lemma empty_lines_not_empty s r :
  match_here empty_lines s = Some r -> (String.length r < String.length s)%nat.
Proof.
  rewrite match_here_empty_lines. intros H.
  apply rep_some_inv in H. destruct H as (d & rest & -> & _ & Hl & _ & H).
  cbn in H. injection H as ->. rewrite string_length_app. lia.
Qed.

Lemma strip_length s : (String.length (strip s) <= String.length s)%nat.
Proof.
  destruct (strip_sub s) as (a & b & E). rewrite E at 2.
  rewrite !string_length_app. lia.
Qed.

Lemma write_segment_from f segment :
  write_segment f segment
  = (f ++ fst (write_segment "" segment), snd (write_segment "" segment)).
Proof.
  unfold write_segment, write.
  destruct (format_srt_time (seg_start segment)) as [e|t0]; [reflexivity|].
  destruct (format_srt_time (seg_end segment)) as [e|t1]; [reflexivity|].
  cbn [fst snd]. rewrite !append_assoc. reflexivity.
Qed.

(** what the loop writes does not depend on what the file holds *)
Lemma write_segments_from segments : forall f,
  write_segments f segments
  = (f ++ fst (write_segments "" segments), snd (write_segments "" segments)).
Proof.
  induction segments as [|segment rest IH]; intros f.
  - cbn. rewrite append_nil_r. reflexivity.
  - cbn [write_segments]. rewrite (write_segment_from f segment).
    destruct (write_segment "" segment) as [w [e|u]]; cbn [fst snd]; [reflexivity|].
    rewrite (IH (f ++ w)), (IH w). cbn [fst snd].
    rewrite !append_assoc. reflexivity.
Qed.


End Lengths.

(** * Facts about the paths *)

Section Paths.
Import PyPath.

Lemma rfind_ge c s : -1 <= rfind c s.
Proof.
  induction s as [|a s IH]; cbn [rfind]; [lia|].
  destruct (0 <=? rfind c s) eqn:E; [apply Z.leb_le in E; lia|].
  destruct (Ascii.eqb a c); lia.
Qed.

Lemma rfind_lt c s : rfind c s < Z.of_nat (String.length s).
Proof.
  induction s as [|a s IH]; cbn [rfind String.length]; [lia|].
  destruct (0 <=? rfind c s) eqn:E; [lia|].
  destruct (Ascii.eqb a c); lia.
Qed.

Lemma rfind_app c a b :
  rfind c (a ++ b)
  = if 0 <=? rfind c b then Z.of_nat (String.length a) + rfind c b else rfind c a.
Proof.
  induction a as [|x a IH].
  - change ("" ++ b) with b. cbn [String.length rfind].
    destruct (0 <=? rfind c b) eqn:E; [lia|].
    apply Z.leb_gt in E. pose proof (rfind_ge c b). lia.
  - change (String x a ++ b) with (String x (a ++ b)). cbn [rfind String.length].
    rewrite IH. destruct (0 <=? rfind c b) eqn:E.
    + apply Z.leb_le in E.
      destruct (0 <=? Z.of_nat (String.length a) + rfind c b) eqn:E2; [lia|].
      apply Z.leb_gt in E2. lia.
    + reflexivity.
Qed.

(** no [c] in [a ++ b]: none in [a] and none in [b] *)
Lemma rfind_none_app c a b :
  rfind c (a ++ b) = -1 <-> rfind c a = -1 /\ rfind c b = -1.
Proof.
  rewrite rfind_app. pose proof (rfind_ge c b). pose proof (rfind_ge c a).
  destruct (0 <=? rfind c b) eqn:E; [apply Z.leb_le in E|apply Z.leb_gt in E]; lia.
Qed.

Lemma slice_app i : forall p, slice_to i p ++ slice_from i p = p.
Proof.
  induction i as [|i IH]; intros [|c p]; cbn [slice_to slice_from]; try reflexivity.
  change (String c (slice_to i p) ++ slice_from i p)
    with (String c (slice_to i p ++ slice_from i p)).
  rewrite IH. reflexivity.
Qed.

Lemma basename_cons a s :
  basename (String a s)
  = if 0 <=? rfind "/" s then basename s
    else if Ascii.eqb a "/" then s else String a s.
Proof.
  unfold basename. cbn [rfind]. pose proof (rfind_ge "/" s) as Hg.
  destruct (0 <=? rfind "/" s) eqn:E.
  - apply Z.leb_le in E.
    replace (Z.to_nat (rfind "/" s + 1 + 1)) with (S (Z.to_nat (rfind "/" s + 1))) by lia.
    reflexivity.
  - destruct (Ascii.eqb a "/"); reflexivity.
Qed.

(** [basename(p)] has no separator *)
Lemma basename_no_sep p : rfind "/" (basename p) = -1.
Proof.
  induction p as [|a p IH]; [reflexivity|]. rewrite basename_cons.
  destruct (0 <=? rfind "/" p) eqn:E; [exact IH|].
  apply Z.leb_gt in E. pose proof (rfind_ge "/" p) as Hg.
  destruct (Ascii.eqb a "/") eqn:Ea; [lia|].
  cbn [rfind]. rewrite Ea. destruct (0 <=? rfind "/" p) eqn:E2; [apply Z.leb_le in E2; lia|].
  reflexivity.
Qed.

Lemma basename_fixed p : rfind "/" p = -1 -> basename p = p.
Proof. unfold basename. intros ->. reflexivity. Qed.

(** [basename] forgets what is before a separator *)
Lemma basename_after_sep a b : basename (a ++ String "/" b) = basename b.
Proof.
  induction a as [|x a IH].
  - change ("" ++ String "/" b) with (String "/" b). rewrite basename_cons.
    destruct (0 <=? rfind "/" b) eqn:E; [reflexivity|].
    apply Z.leb_gt in E. pose proof (rfind_ge "/" b).
    cbn. symmetry. apply basename_fixed. lia.
  - change (String x a ++ String "/" b) with (String x (a ++ String "/" b)).
    rewrite basename_cons, IH.
    assert (H : 0 <= rfind "/" (a ++ String "/" b)).
    { rewrite rfind_app. pose proof (rfind_ge "/" b). cbn [rfind].
      destruct (0 <=? rfind "/" b) eqn:E; [apply Z.leb_le in E|].
      - replace (0 <=? rfind "/" b + 1) with true by (symmetry; apply Z.leb_le; lia). lia.
      - cbn. lia. }
    apply Z.leb_le in H. rewrite H. reflexivity.
Qed.

Lemma skip_leading_dots_app fuel p : forall filenameIndex dotIndex,
  fst (skip_leading_dots fuel p filenameIndex dotIndex)
    ++ snd (skip_leading_dots fuel p filenameIndex dotIndex) = p.
Proof.
  induction fuel as [|fuel IH]; intros f d; cbn [skip_leading_dots].
  - cbn. apply append_nil_r.
  - destruct (f <? d); [|cbn; apply append_nil_r].
    destruct (negb _); [cbn [fst snd]; apply slice_app|apply IH].
Qed.

(** [splitext] loses no character *)
Lemma splitext_app p : fst (splitext p) ++ snd (splitext p) = p.
Proof.
  unfold splitext. destruct (_ <? _); [apply skip_leading_dots_app|].
  cbn. apply append_nil_r.
Qed.

Lemma splitext_no_sep p :
  rfind "/" p = -1 ->
  rfind "/" (fst (splitext p)) = -1 /\ rfind "/" (snd (splitext p)) = -1.
Proof.
  intros H. rewrite <- (splitext_app p) in H. apply rfind_none_app in H. exact H.
Qed.

Lemma no_sep_start name : rfind "/" name = -1 -> startswith_sep name = false.
Proof.
  destruct name as [|c name]; [reflexivity|]. cbn [rfind startswith_sep].
  pose proof (rfind_ge "/" name).
  destruct (0 <=? rfind "/" name) eqn:E; [apply Z.leb_le in E; lia|].
  destruct (Ascii.eqb c "/"); [discriminate|reflexivity].
Qed.

(** [join] of a directory of the scripts and a name without separator *)
Lemma join_name dir name :
  startswith_sep name = false ->
  (String.eqb dir "" || endswith_sep dir)%bool = false ->
  join dir name = dir ++ "/" ++ name.
Proof. unfold join. intros -> ->. reflexivity. Qed.

Lemma append_inv_l a : forall b c : string, a ++ b = a ++ c -> b = c.
Proof.
  induction a as [|x a IH]; intros b c H; [exact H|]. injection H as H. apply IH, H.
Qed.

(** the name that a command makes of the stem of its input *)
Lemma stem_no_sep p e :
  rfind "/" e = -1 -> rfind "/" (fst (splitext (basename p)) ++ e) = -1.
Proof.
  intros He. apply rfind_none_app. split; [|exact He].
  apply splitext_no_sep, basename_no_sep.
Qed.

Lemma stem_ext_eq p e :
  rfind "/" e = -1 ->
  (fst (splitext (basename p)) ++ e = p
   <-> rfind "/" p = -1 /\ snd (splitext p) = e).
Proof.
  intros He. split.
  - intros H. assert (Hp : rfind "/" p = -1).
    { rewrite <- H. apply stem_no_sep, He. }
    split; [exact Hp|]. rewrite (basename_fixed _ Hp) in H.
    assert (H2 : fst (splitext p) ++ e = fst (splitext p) ++ snd (splitext p)).
    { rewrite splitext_app. exact H. }
    apply append_inv_l in H2. symmetry. exact H2.
  - intros [Hp Hx]. rewrite (basename_fixed _ Hp), <- Hx. apply splitext_app.
Qed.

Lemma basename_in_dir dir name :
  rfind "/" name = -1 -> basename (dir ++ "/" ++ name) = name.
Proof.
  intros H. change (dir ++ "/" ++ name) with (dir ++ String "/" name).
  rewrite basename_after_sep. apply basename_fixed, H.
Qed.

(** the name that [replace_audio] makes is longer than the name it read *)
Lemma enhanced_longer p :
  let '(filename, ext) := splitext (basename p) in
  rfind "/" (filename ++ "_enhanced" ++ ext) = -1
  /\ filename ++ "_enhanced" ++ ext <> basename p.
Proof.
  pose proof (splitext_app (basename p)) as Ha.
  pose proof (splitext_no_sep _ (basename_no_sep p)) as [Hs He].
  destruct (splitext (basename p)) as [filename ext]. cbn [fst snd] in *. split.
  - apply rfind_none_app. split; [exact Hs|]. apply rfind_none_app. split; [reflexivity|exact He].
  - intros E. rewrite <- Ha in E. apply (f_equal String.length) in E.
    rewrite !string_length_app in E. cbn in E. lia.
Qed.

End Paths.

(** * Exact operations on doubles *)

Section Exact.
Import PyFloat.

Lemma nonneg_cases x :
  nonneg x = true ->
  x = S754_zero false \/ exists m e, x = S754_finite false m e /\ bounded prec emax m e = true.
Proof.
  unfold nonneg, is_real. destruct x as [[|]|[|]| |[|] m e]; cbn; try discriminate.
  - left. reflexivity.
  - rewrite !andb_false_r. discriminate.
  - rewrite !andb_true_r. intros H. right. exists m, e. split; [reflexivity|exact H].
Qed.

Lemma nonneg_finite m e : bounded prec emax m e = true -> nonneg (S754_finite false m e) = true.
Proof. unfold nonneg, is_real. cbn. intros ->. reflexivity. Qed.

Lemma bounded_canonical m e :
  bounded prec emax m e = true ->
  -1074 <= e <= 971 /\ Zpos (digits2_pos m) <= 53
  /\ fexp prec emax (Zpos (digits2_pos m) + e) = e.
Proof.
  unfold bounded, canonical_mantissa. intros H. apply andb_prop in H. destruct H as [Hc He].
  apply Z.eqb_eq in Hc. apply Z.leb_le in He. change (emax - prec) with 971 in He.
  pose proof Hc as Hc'. rewrite fexp_eq in Hc'. repeat split; lia.
Qed.

Lemma scaled_nonneg x : nonneg x = true -> 0 <= scaled x.
Proof.
  intros H. destruct (nonneg_cases x H) as [->|(m & e & -> & Hb)]; [cbn; lia|].
  cbn [scaled cond_Zopp]. destruct (bounded_canonical m e Hb) as [He _].
  pose proof (pow2_pos (e + 1074) ltac:(lia)). lia.
Qed.

Lemma scaled_finite_pos m e : -1074 <= e -> 0 < scaled (S754_finite false m e).
Proof.
  intros He. cbn [scaled cond_Zopp]. pose proof (pow2_pos (e + 1074) ltac:(lia)). lia.
Qed.

(** [binary_normalize] of the value of a double is that double *)
Lemma normalize_to m e m0 e0 sz :
  bounded prec emax m e = true -> 0 < m0 -> -1074 <= e0 ->
  m0 * 2 ^ (e0 + 1074) = Zpos m * 2 ^ (e + 1074) ->
  binary_normalize prec emax m0 e0 sz = S754_finite false m e.
Proof.
  intros Hb Hm0 He0 Hv. destruct (bounded_canonical m e Hb) as (He & Hd & Hc).
  destruct m0 as [|p0|p0]; try lia. cbn [binary_normalize]. unfold binary_round.
  assert (Hdig : Zpos (digits2_pos p0) + e0 = Zpos (digits2_pos m) + e).
  { assert (H1 : Zdigits2 (Zpos p0 * 2 ^ (e0 + 1074)) = Zdigits2 (Zpos m * 2 ^ (e + 1074)))
      by (rewrite Hv; reflexivity).
    rewrite !Zdigits2_mul_pow2 in H1 by lia. cbn [Zdigits2] in H1. lia. }
  rewrite Hdig, Hc.
  destruct (Z_le_gt_dec e0 e) as [L|L].
  - assert (Hs : shl_align p0 e0 e = (p0, e0)).
    { unfold shl_align. destruct (e - e0) eqn:E; try reflexivity. lia. }
    rewrite Hs.
    assert (Hp : Zpos p0 = Zpos m * 2 ^ (e - e0)).
    { replace (e + 1074) with ((e - e0) + (e0 + 1074)) in Hv by lia.
      rewrite (Z.pow_add_r 2 (e - e0) (e0 + 1074)) in Hv by lia.
      pose proof (pow2_pos (e0 + 1074) ltac:(lia)). nia. }
    rewrite Hp. replace e0 with (e - (e - e0)) at 2 by lia.
    apply binary_round_aux_exact; [lia|exact Hc|lia].
  - destruct (shl_align_spec p0 e0 e) as (mz & Hs & Hmz). rewrite Hs.
    replace (Z.min e0 e) with e in * by lia.
    assert (Hp : Zpos mz = Zpos m).
    { rewrite Hmz. replace (e0 + 1074) with ((e0 - e) + (e + 1074)) in Hv by lia.
      rewrite (Z.pow_add_r 2 (e0 - e) (e + 1074)) in Hv by lia.
      pose proof (pow2_pos (e + 1074) ltac:(lia)). nia. }
    rewrite Hp. pose proof (binary_round_aux_exact false m e 0 ltac:(lia) Hc ltac:(lia)) as Hx.
    rewrite Z.pow_0_r, Z.mul_1_r, Z.sub_0_r in Hx. exact Hx.
Qed.

(** a value of at most 53 bits above [2^-1074] is the value of a double *)
Lemma representable r e0 :
  0 < r -> Zdigits2 r <= 53 -> -1074 <= e0 -> Zdigits2 r + e0 <= 1024 ->
  exists m e, bounded prec emax m e = true
              /\ Zpos m * 2 ^ (e + 1074) = r * 2 ^ (e0 + 1074).
Proof.
  intros Hr Hd He0 Hmax.
  set (e := fexp prec emax (Zdigits2 r + e0)).
  assert (Ee : e = Z.max (Zdigits2 r + e0 - 53) (-1074)) by apply fexp_eq.
  assert (Hle : -1074 <= e <= e0) by lia.
  pose proof (pow2_pos (e0 - e) ltac:(lia)) as Hp.
  assert (HM : 0 < r * 2 ^ (e0 - e)) by nia.
  destruct (r * 2 ^ (e0 - e)) as [|m|m] eqn:EM; try lia.
  exists m, e. split.
  - unfold bounded, canonical_mantissa. apply andb_true_intro. split.
    + apply Z.eqb_eq.
      assert (Hdm : Zpos (digits2_pos m) = Zdigits2 r + (e0 - e)).
      { change (Zpos (digits2_pos m)) with (Zdigits2 (Zpos m)). rewrite <- EM.
        apply Zdigits2_mul_pow2; lia. }
      rewrite Hdm. replace (Zdigits2 r + (e0 - e) + e) with (Zdigits2 r + e0) by lia.
      reflexivity.
    + apply Z.leb_le. change (emax - prec) with 971. lia.
  - rewrite <- EM. replace (e0 + 1074) with ((e0 - e) + (e + 1074)) by lia.
    rewrite (Z.pow_add_r 2 (e0 - e) (e + 1074)) by lia. ring.
Qed.

(** two doubles that are not negative and have the same value are the same *)
Lemma scaled_inj x y :
  nonneg x = true -> nonneg y = true -> scaled x = scaled y -> x = y.
Proof.
  intros Hx Hy E.
  destruct (nonneg_cases x Hx) as [->|(m & e & -> & Hb)];
    destruct (nonneg_cases y Hy) as [->|(m' & e' & -> & Hb')].
  - reflexivity.
  - destruct (bounded_canonical m' e' Hb') as [He _].
    pose proof (scaled_finite_pos m' e' ltac:(lia)).
    change (scaled (S754_zero false)) with 0 in E. lia.
  - destruct (bounded_canonical m e Hb) as [He _].
    pose proof (scaled_finite_pos m e ltac:(lia)).
    change (scaled (S754_zero false)) with 0 in E. lia.
  - cbn [scaled cond_Zopp] in E.
    destruct (bounded_canonical m e Hb) as [He _].
    destruct (bounded_canonical m' e' Hb') as [He' _].
    rewrite <- (normalize_to m e (Zpos m') e' false Hb ltac:(lia) ltac:(lia) (eq_sym E)).
    apply (normalize_to m' e' (Zpos m') e' false Hb'); [lia|lia|reflexivity].
Qed.

(** [binary_normalize] of a value that a double has *)
Lemma normalize_value z m0 e0 sz :
  nonneg z = true -> 0 <= m0 -> -1074 <= e0 ->
  m0 * 2 ^ (e0 + 1074) = scaled z ->
  binary_normalize prec emax m0 e0 sz = match m0 with 0 => S754_zero sz | _ => z end.
Proof.
  intros Hz Hm0 He0 Hv. destruct m0 as [|p0|p0]; [reflexivity| |lia].
  destruct (nonneg_cases z Hz) as [->|(m & e & -> & Hb)].
  - cbn [scaled] in Hv. pose proof (pow2_pos (e0 + 1074) ltac:(lia)). lia.
  - apply normalize_to; [exact Hb|lia|lia|exact Hv].
Qed.

Lemma to_int_nonneg x : nonneg x = true -> to_int x = ret (scaled x / 2 ^ 1074).
Proof.
  intros H. destruct (nonneg_cases x H) as [->|(m & e & -> & Hb)]; [reflexivity|].
  destruct (bounded_canonical m e Hb) as [He _].
  cbn [to_int scaled cond_Zopp]. f_equal.
  destruct (Z_le_gt_dec 0 e) as [L|L].
  - rewrite Z.shiftl_mul_pow2 by lia. rewrite (Z.pow_add_r 2 e 1074) by lia.
    rewrite Z.mul_assoc, Z.div_mul; [reflexivity|]. pose proof (pow2_pos 1074); lia.
  - rewrite Z.shiftl_div_pow2 by lia.
    replace 1074 with ((e + 1074) + - e) at 2 by lia.
    rewrite (Z.pow_add_r 2 (e + 1074) (- e)) by lia.
    rewrite (Z.mul_comm (Zpos m)), Z.div_mul_cancel_l; [reflexivity| |].
    + pose proof (pow2_pos (- e)); lia.
    + pose proof (pow2_pos (e + 1074)); lia.
Qed.

Lemma scaled_finite m e :
  scaled (S754_finite false m e) = Zpos m * 2 ^ (e + 1074).
Proof. reflexivity. Qed.

(** the doubles of the integers below [2^53] *)
Lemma of_Z_nonneg z :
  0 <= z < 2 ^ 53 -> nonneg (of_Z z) = true /\ scaled (of_Z z) = z * 2 ^ 1074.
Proof.
  intros Hz. destruct (Z.eq_dec z 0) as [->|Hn]; [split; reflexivity|].
  assert (Hd : Zdigits2 z <= 53) by (apply Zdigits2_le; lia).
  destruct (representable z 0 ltac:(lia) Hd ltac:(lia) ltac:(lia)) as (m & e & Hb & Hv).
  unfold of_Z. rewrite (normalize_to m e z 0 false Hb ltac:(lia) ltac:(lia) (eq_sym Hv)).
  split; [apply nonneg_finite, Hb|]. rewrite scaled_finite, Hv. reflexivity.
Qed.

(** [fmod] of doubles that are not negative is the exact remainder *)
Lemma fmod_nonneg x my ey :
  nonneg x = true -> bounded prec emax my ey = true ->
  nonneg (fmod x (S754_finite false my ey)) = true
  /\ scaled (fmod x (S754_finite false my ey))
     = scaled x mod scaled (S754_finite false my ey).
Proof.
  intros Hx Hy. destruct (bounded_canonical my ey Hy) as (Hey & Hdy & _).
  destruct (nonneg_cases x Hx) as [->|(mx & ex & -> & Hb)].
  - cbn [fmod]. split; [reflexivity|]. cbn [scaled]. rewrite Z.mod_0_l; [reflexivity|].
    pose proof (scaled_finite_pos my ey ltac:(lia)). cbn [scaled cond_Zopp] in *. lia.
  - destruct (bounded_canonical mx ex Hb) as (Hex & Hdx & _).
    unfold fmod. remember (Z.min ex ey) as e eqn:Ee.
    rewrite !Z.shiftl_mul_pow2 by lia. rewrite !scaled_finite.
    pose proof (pow2_pos (ex - e) ltac:(lia)) as Hp1.
    pose proof (pow2_pos (ey - e) ltac:(lia)) as Hp2.
    pose proof (pow2_pos (e + 1074) ltac:(lia)) as Hp3.
    rewrite Z.rem_mod_nonneg by nia.
    remember ((Z.pos mx * 2 ^ (ex - e)) mod (Z.pos my * 2 ^ (ey - e))) as r eqn:Er.
    assert (Hr : 0 <= r < Z.pos my * 2 ^ (ey - e)).
    { subst r. apply Z.mod_pos_bound. nia. }
    assert (Hra : r <= Z.pos mx * 2 ^ (ex - e)).
    { subst r. apply Z.mod_le; nia. }
    assert (Hval : r * 2 ^ (e + 1074)
                   = (Z.pos mx * 2 ^ (ex + 1074)) mod (Z.pos my * 2 ^ (ey + 1074))).
    { replace (ex + 1074) with ((ex - e) + (e + 1074)) by lia.
      replace (ey + 1074) with ((ey - e) + (e + 1074)) by lia.
      rewrite (Z.pow_add_r 2 (ex - e)), (Z.pow_add_r 2 (ey - e)) by lia.
      rewrite !Z.mul_assoc, Z.mul_mod_distr_r by nia. subst r. reflexivity. }
    cbn [cond_Zopp]. rewrite <- Hval.
    destruct (Z.eq_dec r 0) as [E0|N0].
    + rewrite E0. cbn. split; reflexivity.
    + assert (H53 : r < 2 ^ 53).
      { pose proof (digits2_pos_lt mx) as Hlx. pose proof (digits2_pos_lt my) as Hly.
        assert (2 ^ Zpos (digits2_pos mx) <= 2 ^ 53) by (apply pow2_le; lia).
        assert (2 ^ Zpos (digits2_pos my) <= 2 ^ 53) by (apply pow2_le; lia).
        destruct (Z_le_gt_dec ex ey) as [L|L].
        - replace (ex - e) with 0 in * by lia. change (2 ^ 0) with 1 in *. lia.
        - replace (ey - e) with 0 in * by lia. change (2 ^ 0) with 1 in *. lia. }
      assert (Hd : Zdigits2 r <= 53) by (apply Zdigits2_le; lia).
      destruct (representable r e ltac:(lia) Hd ltac:(lia) ltac:(lia)) as (m & e' & Hb' & Hv).
      rewrite (normalize_to m e' r e false Hb' ltac:(lia) ltac:(lia) (eq_sym Hv)).
      split; [apply nonneg_finite, Hb'|]. rewrite scaled_finite. exact Hv.
Qed.

(** a subtraction whose result is a double is exact *)
Lemma sub_exact x y z :
  nonneg x = true -> nonneg y = true -> nonneg z = true ->
  scaled z = scaled x - scaled y -> sub x y = z.
Proof.
  intros Hx Hy Hz Hv. pose proof (scaled_nonneg z Hz) as Hz0.
  destruct (nonneg_cases y Hy) as [->|(my & ey & -> & Hby)].
  - change (scaled (S754_zero false)) with 0 in Hv. rewrite Z.sub_0_r in Hv.
    rewrite (scaled_inj z x Hz Hx Hv).
    destruct (nonneg_cases x Hx) as [->|(mx & ex & -> & Hbx)]; reflexivity.
  - destruct (bounded_canonical my ey Hby) as (Hey & _).
    pose proof (scaled_finite_pos my ey ltac:(lia)) as Hy0.
    destruct (nonneg_cases x Hx) as [->|(mx & ex & -> & Hbx)].
    + change (scaled (S754_zero false)) with 0 in Hv. lia.
    + destruct (bounded_canonical mx ex Hbx) as (Hex & _).
      destruct (Z.eq_dec (scaled z) 0) as [E0|N0].
      * assert (E : S754_finite false mx ex = S754_finite false my ey).
        { apply scaled_inj; [exact Hx|exact Hy|lia]. }
        injection E as -> ->. rewrite sub_diag_finite.
        symmetry. apply scaled_inj; [exact Hz|reflexivity|exact E0].
      * unfold sub, SFsub. cbn [cond_Zopp].
        rewrite !align_fst by lia.
        remember (Z.min ex ey) as e eqn:Ee.
        pose proof (pow2_pos (e + 1074) ltac:(lia)) as Hp.
        assert (Hval : (Z.pos mx * 2 ^ (ex - e) - Z.pos my * 2 ^ (ey - e)) * 2 ^ (e + 1074)
                       = scaled z).
        { rewrite Hv, !scaled_finite.
          replace (ex + 1074) with ((ex - e) + (e + 1074)) by lia.
          replace (ey + 1074) with ((ey - e) + (e + 1074)) by lia.
          rewrite (Z.pow_add_r 2 (ex - e)), (Z.pow_add_r 2 (ey - e)) by lia. ring. }
        rewrite (normalize_value z _ e false Hz); [| nia | lia | exact Hval].
        destruct (Z.pos mx * 2 ^ (ex - e) - Z.pos my * 2 ^ (ey - e)) eqn:E; [|reflexivity..].
        rewrite Z.mul_0_l in Hval. lia.
Qed.

(** a division whose result is a double is exact *)
Lemma div_exact x my ey z :
  nonneg x = true -> bounded prec emax my ey = true -> nonneg z = true ->
  scaled x * 2 ^ 1074 = scaled z * scaled (S754_finite false my ey) ->
  div x (S754_finite false my ey) = z.
Proof.
  intros Hx Hy Hz Hv. destruct (bounded_canonical my ey Hy) as (Hey & Hdy & _).
  pose proof (scaled_finite_pos my ey ltac:(lia)) as Hy0.
  pose proof (pow2_pos 1074 ltac:(lia)) as HU.
  destruct (nonneg_cases x Hx) as [->|(mx & ex & -> & Hbx)].
  - change (scaled (S754_zero false)) with 0 in Hv.
    assert (E0 : scaled z = 0) by nia.
    symmetry. apply scaled_inj; [exact Hz|reflexivity|exact E0].
  - destruct (bounded_canonical mx ex Hbx) as (Hex & Hdx & _).
    pose proof (scaled_finite_pos mx ex ltac:(lia)) as Hx0.
    destruct (nonneg_cases z Hz) as [->|(mz & ez & -> & Hbz)].
    { change (scaled (S754_zero false)) with 0 in Hv. nia. }
    destruct (bounded_canonical mz ez Hbz) as (Hez & Hdz & Hcz).
    rewrite !scaled_finite in *.
    unfold div, SFdiv, SFdiv_core_binary. cbn [xorb].
    change (Zdigits2 (Z.pos mx)) with (Zpos (digits2_pos mx)).
    change (Zdigits2 (Z.pos my)) with (Zpos (digits2_pos my)).
    set (d1 := Zpos (digits2_pos mx)) in *.
    set (d2 := Zpos (digits2_pos my)) in *.
    set (dz := Zpos (digits2_pos mz)) in *.
    assert (Hd1 : 0 < d1) by (unfold d1; lia).
    assert (Hd2 : 0 < d2) by (unfold d2; lia).
    assert (Hdz0 : 0 < dz) by (unfold dz; lia).
    (* the digits of the quotient *)
    assert (Hdig : d1 + ex - (d2 + ey) <= dz + ez).
    { pose proof (digits2_pos_ge mx) as G1. fold d1 in G1.
      pose proof (digits2_pos_lt my) as L2. fold d2 in L2.
      pose proof (digits2_pos_lt mz) as Lz. fold dz in Lz.
      destruct (Z_le_gt_dec (d1 + ex - (d2 + ey)) (dz + ez)) as [L|L]; [exact L|exfalso].
      assert (A : Z.pos mx * 2 ^ (ex + 1074) * 2 ^ 1074
                  < 2 ^ (dz + d2 + (ez + 1074) + (ey + 1074))).
      { rewrite Hv.
        rewrite (Z.pow_add_r 2 (dz + d2 + (ez + 1074)) (ey + 1074)),
          (Z.pow_add_r 2 (dz + d2) (ez + 1074)), (Z.pow_add_r 2 dz d2) by lia.
        pose proof (pow2_pos (ez + 1074) ltac:(lia)).
        pose proof (pow2_pos (ey + 1074) ltac:(lia)).
        assert (Z.pos mz * Z.pos my < 2 ^ dz * 2 ^ d2) by nia. nia. }
      assert (B : 2 ^ ((d1 - 1) + (ex + 1074) + 1074)
                  <= Z.pos mx * 2 ^ (ex + 1074) * 2 ^ 1074).
      { rewrite (Z.pow_add_r 2 ((d1 - 1) + (ex + 1074)) 1074),
          (Z.pow_add_r 2 (d1 - 1) (ex + 1074)) by lia.
        pose proof (pow2_pos (ex + 1074) ltac:(lia)).
        pose proof (pow2_pos 1074 ltac:(lia)). nia. }
      assert (C : 2 ^ (dz + d2 + (ez + 1074) + (ey + 1074))
                  <= 2 ^ ((d1 - 1) + (ex + 1074) + 1074)).
      { apply pow2_le. lia. }
      lia. }
    remember (Z.min (fexp prec emax (d1 + ex - (d2 + ey))) (ex - ey)) as e' eqn:Ee'.
    assert (He'z : e' <= ez).
    { rewrite <- Hcz. fold dz. rewrite !fexp_eq in *. lia. }
    remember (ex - ey - e') as s eqn:Es.
    assert (Hs : 0 <= s) by lia.
    remember (match s with Z.pos _ => Z.shiftl (Z.pos mx) s | 0 => Z.pos mx | Z.neg _ => 0 end)
      as m' eqn:Em'.
    assert (Hm' : m' = Zpos mx * 2 ^ s).
    { subst m'. destruct s as [|p|p] eqn:E; try lia.
      apply Z.shiftl_mul_pow2. lia. }
    assert (Hq : m' = Z.pos my * (Z.pos mz * 2 ^ (ez - e'))).
    { rewrite Hm'. rewrite fexp_eq in Ee'.
      set (g := ey + 1074 + e' + 1074).
      assert (Hg : 0 <= g) by (unfold g; lia).
      pose proof (pow2_pos g Hg) as Pg.
      assert (P1 : 2 ^ (ex + 1074) * 2 ^ 1074 = 2 ^ s * 2 ^ g).
      { rewrite <- !Z.pow_add_r by lia. f_equal. unfold g. lia. }
      assert (P2 : 2 ^ (ez + 1074) * 2 ^ (ey + 1074) = 2 ^ (ez - e') * 2 ^ g).
      { rewrite <- !Z.pow_add_r by lia. f_equal. unfold g. lia. }
      apply (Z.mul_reg_r _ _ (2 ^ g)); [lia|].
      transitivity (Z.pos mx * (2 ^ s * 2 ^ g)); [ring|]. rewrite <- P1.
      transitivity (Z.pos mz * Z.pos my * (2 ^ (ez - e') * 2 ^ g)); [|ring]. rewrite <- P2.
      transitivity (Z.pos mx * 2 ^ (ex + 1074) * 2 ^ 1074); [ring|]. rewrite Hv. ring. }
    cbv zeta.
    destruct (Z.div_eucl m' (Z.pos my)) as [q r] eqn:E.
    pose proof (Z_div_mod m' (Z.pos my) ltac:(lia)) as Hdm. rewrite E in Hdm.
    destruct Hdm as [Hdm Hr].
    pose proof (pow2_pos (ez - e') ltac:(lia)) as Pt.
    assert (Hq1 : q = m' / Z.pos my) by (apply (Zdiv_unique m' (Z.pos my) q r); lia).
    assert (Hq2 : Z.pos mz * 2 ^ (ez - e') = m' / Z.pos my).
    { apply (Zdiv_unique m' (Z.pos my) _ 0); lia. }
    assert (Hq3 : q = Z.pos mz * 2 ^ (ez - e')) by congruence.
    assert (Hr0 : r = 0) by (rewrite Hq3 in Hdm; lia).
    clear Hq1 Hq2. subst q r.
    assert (Hl : new_location (Z.pos my) 0 = loc_Exact).
    { unfold new_location, new_location_even, new_location_odd.
      destruct (Z.even (Z.pos my)); reflexivity. }
    rewrite Hl. replace e' with (ez - (ez - e')) at 2 by lia.
    apply binary_round_aux_exact; [lia|exact Hcz|lia].
Qed.

(** [floor] of a double that is an integer *)
Lemma floor_integer z n :
  nonneg z = true -> scaled z = n * 2 ^ 1074 -> floor z = z.
Proof.
  intros Hz Hv. destruct (nonneg_cases z Hz) as [->|(m & e & -> & Hb)]; [reflexivity|].
  destruct (bounded_canonical m e Hb) as (He & _).
  unfold floor. destruct (Z.leb_spec 0 e) as [L|L]; [reflexivity|].
  cbn [cond_Zopp]. rewrite Z.shiftr_div_pow2 by lia.
  rewrite scaled_finite in Hv.
  pose proof (pow2_pos (e + 1074) ltac:(lia)) as P1.
  pose proof (pow2_pos (- e) ltac:(lia)) as P2.
  assert (HU : 2 ^ 1074 = 2 ^ (- e) * 2 ^ (e + 1074)).
  { rewrite <- Z.pow_add_r by lia. f_equal. lia. }
  assert (Hm : Z.pos m = n * 2 ^ (- e)).
  { apply (Z.mul_reg_r _ _ (2 ^ (e + 1074))); [lia|]. rewrite Hv, HU. ring. }
  rewrite Hm, Z.div_mul by lia.
  assert (Hn : 0 < n) by nia.
  apply (normalize_to m e n 0 false Hb Hn ltac:(lia)).
  rewrite Hv. reflexivity.
Qed.


Lemma half_eq : half = S754_finite false 4503599627370496 (-53).
Proof. vm_compute. reflexivity. Qed.

Lemma nonneg_not_lt_zero x : nonneg x = true -> ltb x pos_zero = false.
Proof.
  intros H. destruct (nonneg_cases x H) as [->|(m & e & -> & _)]; reflexivity.
Qed.

(** [%] of doubles that are not negative is the exact remainder *)
Lemma rem_exact x my ey :
  nonneg x = true -> bounded prec emax my ey = true ->
  exists r, rem x (S754_finite false my ey) = ret r /\ nonneg r = true
            /\ scaled r = scaled x mod scaled (S754_finite false my ey).
Proof.
  intros Hx Hy. destruct (fmod_nonneg x my ey Hx Hy) as [Hn Hv].
  unfold rem. cbn [nonzero].
  rewrite (nonneg_not_lt_zero _ Hn).
  change (ltb (S754_finite false my ey) pos_zero) with false. cbn [Bool.eqb negb].
  destruct (nonneg_cases _ Hn) as [E|(m & e & E & Hb)]; rewrite E in *; cbn [nonzero].
  - exists (S754_zero false). repeat split. exact Hv.
  - eexists. repeat split; [exact Hn|exact Hv].
Qed.

Lemma div_sign_nonneg x my ey :
  nonneg x = true -> sign_bit (div x (S754_finite false my ey)) = false.
Proof.
  intros Hx. destruct (nonneg_cases x Hx) as [->|(m & e & -> & _)]; [reflexivity|].
  unfold div, SFdiv.
  destruct (SFdiv_core_binary prec emax (Z.pos m) e (Z.pos my) ey) as [[q e'] l].
  pose proof (binary_round_aux_cases (xorb false false) q e' l) as H.
  destruct (binary_round_aux prec emax (xorb false false) q e' l); cbn in *;
    try exact H; reflexivity.
Qed.

(** [//] by a double that is a positive integer, below [2^53]: the exact
    quotient rounded down *)
Lemma floordiv_exact x my ey C :
  nonneg x = true -> bounded prec emax my ey = true ->
  scaled (S754_finite false my ey) = C * 2 ^ 1074 -> 0 < C ->
  scaled x < 2 ^ 53 * 2 ^ 1074 ->
  exists q, floordiv x (S754_finite false my ey) = ret q /\ nonneg q = true
            /\ scaled q = scaled x / (C * 2 ^ 1074) * 2 ^ 1074.
Proof.
  intros Hx Hy HC HC0 Hlt.
  pose proof (pow2_pos 1074 ltac:(lia)) as HU.
  pose proof (scaled_nonneg x Hx) as HX0.
  destruct (fmod_nonneg x my ey Hx Hy) as [Hn Hv]. rewrite HC in Hv.
  set (wx := S754_finite false my ey) in *.
  set (n := scaled x / (C * 2 ^ 1074)).
  assert (HY : 0 < C * 2 ^ 1074) by nia.
  assert (Hdm : scaled x = C * 2 ^ 1074 * n + scaled x mod (C * 2 ^ 1074)).
  { apply Z.div_mod. lia. }
  pose proof (Z.mod_pos_bound (scaled x) (C * 2 ^ 1074) HY) as HR.
  assert (Hn0 : 0 <= n) by (apply Z.div_pos; lia).
  assert (HCn : 0 <= C * n < 2 ^ 53) by nia.
  assert (Hn53 : 0 <= n < 2 ^ 53) by nia.
  destruct (of_Z_nonneg (C * n) HCn) as [Hz1 Hs1].
  destruct (of_Z_nonneg n Hn53) as [Hz2 Hs2].
  assert (Esub : sub x (fmod x wx) = of_Z (C * n)).
  { apply sub_exact; try assumption. rewrite Hs1, Hv. lia. }
  assert (Ediv : div (of_Z (C * n)) wx = of_Z n).
  { apply div_exact; try assumption. fold wx. rewrite Hs1, Hs2, HC. ring. }
  unfold floordiv. change (nonzero wx) with true. cbv iota.
  exists (fst (float_div_mod x wx)). split; [reflexivity|].
  unfold float_div_mod. rewrite Esub, Ediv.
  rewrite (nonneg_not_lt_zero _ Hn).
  change (ltb wx pos_zero) with false. cbn [Bool.eqb negb].
  assert (Epair : (if nonzero (fmod x wx)
                   then (fmod x wx, of_Z n)
                   else (copysign_zero wx, of_Z n))
                  = ((if nonzero (fmod x wx) then fmod x wx else copysign_zero wx), of_Z n)).
  { destruct (nonzero (fmod x wx)); reflexivity. }
  rewrite Epair. cbn [fst].
  destruct (nonneg_cases _ Hz2) as [E|(m & e & E & Hb)]; rewrite E in *; cbn [nonzero].
  - unfold copysign_zero. pose proof (div_sign_nonneg x my ey Hx) as Hsg.
    fold wx in Hsg. rewrite Hsg.
    split; [reflexivity|]. change (scaled (S754_zero false)) with 0 in *. fold n. lia.
  - rewrite (floor_integer _ n Hz2 Hs2), sub_diag_finite, half_eq.
    change (ltb (S754_finite false 4503599627370496 (-53)) (S754_zero false)) with false.
    cbv iota. split; [exact Hz2|]. rewrite Hs2. fold n. reflexivity.
Qed.

(** the part of a double after the point is a double *)
Lemma frac_exact x :
  nonneg x = true -> scaled x < 2 ^ 53 * 2 ^ 1074 ->
  exists fi z,
    to_int x = ret (scaled x / 2 ^ 1074) /\ of_int (scaled x / 2 ^ 1074) = ret fi
    /\ sub x fi = z /\ nonneg z = true /\ scaled z = scaled x mod 2 ^ 1074.
Proof.
  intros Hx Hlt.
  pose proof (pow2_pos 1074 ltac:(lia)) as HU.
  pose proof (scaled_nonneg x Hx) as HX0.
  set (i := scaled x / 2 ^ 1074).
  assert (Hi : 0 <= i < 2 ^ 53).
  { split; [apply Z.div_pos; lia|]. apply Z.div_lt_upper_bound; lia. }
  destruct (of_Z_nonneg i Hi) as [Hfi Hsi].
  assert (Hdm : scaled x = 2 ^ 1074 * i + scaled x mod 2 ^ 1074) by (apply Z.div_mod; lia).
  assert (Hz : exists z, nonneg z = true /\ scaled z = scaled x mod 2 ^ 1074).
  { destruct (nonneg_cases x Hx) as [->|(m & e & -> & Hb)].
    - exists (S754_zero false). split; [reflexivity|]. cbn [scaled]. rewrite Z.mod_0_l; lia.
    - destruct (bounded_canonical m e Hb) as (He & Hd & _). rewrite scaled_finite.
      destruct (Z_le_gt_dec 0 e) as [L|L].
      + exists (S754_zero false). split; [reflexivity|].
        rewrite (Z.pow_add_r 2 e 1074), Z.mul_assoc, Z.mod_mul by lia. reflexivity.
      + pose proof (pow2_pos (- e) ltac:(lia)) as P1.
        pose proof (pow2_pos (e + 1074) ltac:(lia)) as P2.
        assert (HUe : 2 ^ 1074 = 2 ^ (- e) * 2 ^ (e + 1074)).
        { rewrite <- Z.pow_add_r by lia. f_equal. lia. }
        rewrite HUe, Z.mul_mod_distr_r by lia.
        set (r := Z.pos m mod 2 ^ (- e)).
        pose proof (Z.mod_pos_bound (Z.pos m) (2 ^ (- e)) P1) as Hr. fold r in Hr.
        assert (Hrm : r <= Z.pos m) by (apply Z.mod_le; lia).
        destruct (Z.eq_dec r 0) as [E0|N0].
        * exists (S754_zero false). rewrite E0. split; reflexivity.
        * pose proof (digits2_pos_lt m) as Hlm.
          assert (2 ^ Zpos (digits2_pos m) <= 2 ^ 53) by (apply pow2_le; lia).
          assert (Hdr : Zdigits2 r <= 53) by (apply Zdigits2_le; lia).
          destruct (representable r e ltac:(lia) Hdr ltac:(lia) ltac:(lia))
            as (m' & e' & Hb' & Hv').
          exists (S754_finite false m' e'). split; [apply nonneg_finite, Hb'|].
          rewrite scaled_finite. exact Hv'. }
  destruct Hz as (z & Hz & Hsz).
  exists (of_Z i), z. split; [apply to_int_nonneg, Hx|]. split.
  - unfold of_int. destruct (nonneg_cases _ Hfi) as [E|(m & e & E & _)]; rewrite E; reflexivity.
  - split; [|split; [exact Hz|exact Hsz]].
    apply sub_exact; try assumption. rewrite Hsz, Hsi. fold i. lia.
Qed.

(** ** Rounding to nearest *)

Lemma shr_1_r mrs :
  0 <= shr_m mrs -> shr_r (shr_1 mrs) = true -> 2 ^ 1 <= 2 * (shr_m mrs mod 2 ^ 1).
Proof.
  destruct mrs as [m r s]. cbn [shr_m]. intros Hm. change (2 ^ 1) with 2.
  destruct m as [|[p|p|]|p]; cbn [shr_1 shr_r]; try lia; try discriminate.
  intros _. change (Z.pos p~1) with (2 * Z.pos p + 1). Z.div_mod_to_equations. lia.
Qed.

(** the round bit after a shift: set when the part shifted out is at least
    half of the last place *)
Lemma iter_pos_shr_r p : forall mrs, 0 <= shr_m mrs ->
  shr_m (iter_pos shr_1 p mrs) = shr_m mrs / 2 ^ Zpos p /\
  (shr_r (iter_pos shr_1 p mrs) = true -> 2 ^ Zpos p <= 2 * (shr_m mrs mod 2 ^ Zpos p)).
Proof.
  assert (Hcomp : forall a b (f g : shr_record -> shr_record),
     0 < a -> 0 < b ->
     (forall mrs, 0 <= shr_m mrs ->
        shr_m (f mrs) = shr_m mrs / 2 ^ a /\
        (shr_r (f mrs) = true -> 2 ^ a <= 2 * (shr_m mrs mod 2 ^ a))) ->
     (forall mrs, 0 <= shr_m mrs ->
        shr_m (g mrs) = shr_m mrs / 2 ^ b /\
        (shr_r (g mrs) = true -> 2 ^ b <= 2 * (shr_m mrs mod 2 ^ b))) ->
     forall mrs, 0 <= shr_m mrs ->
        shr_m (f (g mrs)) = shr_m mrs / 2 ^ (b + a) /\
        (shr_r (f (g mrs)) = true -> 2 ^ (b + a) <= 2 * (shr_m mrs mod 2 ^ (b + a)))).
  { intros a b f g Ha Hb Hf Hg mrs Hm.
    pose proof (pow2_pos a ltac:(lia)) as Pa. pose proof (pow2_pos b ltac:(lia)) as Pb.
    destruct (Hg mrs Hm) as [G1 _].
    assert (Hm' : 0 <= shr_m (g mrs)) by (rewrite G1; apply Z.div_pos; lia).
    destruct (Hf (g mrs) Hm') as [F1 F2]. rewrite G1 in F1, F2.
    rewrite (Z.pow_add_r 2 b a) by lia. split.
    - rewrite F1. apply Z.div_div; lia.
    - intros Hr. specialize (F2 Hr).
      rewrite Z.rem_mul_r by lia.
      pose proof (Z.mod_pos_bound (shr_m mrs) (2 ^ b) Pb). nia. }
  assert (H1 : forall mrs, 0 <= shr_m mrs ->
        shr_m (shr_1 mrs) = shr_m mrs / 2 ^ 1 /\
        (shr_r (shr_1 mrs) = true -> 2 ^ 1 <= 2 * (shr_m mrs mod 2 ^ 1))).
  { intros mrs Hm. split; [apply shr_1_m, Hm|apply shr_1_r, Hm]. }
  induction p as [p IH|p IH|]; intros mrs Hm.
  - pose proof (Hcomp (Zpos p) (Zpos p) (iter_pos shr_1 p) (iter_pos shr_1 p)
                  ltac:(lia) ltac:(lia) IH IH) as H2.
    cbn [iter_pos]. replace (Z.pos p~1) with (1 + (Z.pos p + Z.pos p)) by lia.
    exact (Hcomp (Zpos p + Zpos p) 1
             (fun r => iter_pos shr_1 p (iter_pos shr_1 p r)) shr_1
             ltac:(lia) ltac:(lia) H2 H1 mrs Hm).
  - pose proof (Hcomp (Zpos p) (Zpos p) (iter_pos shr_1 p) (iter_pos shr_1 p)
                  ltac:(lia) ltac:(lia) IH IH) as H2.
    cbn [iter_pos]. replace (Z.pos p~0) with (Z.pos p + Z.pos p) by lia.
    exact (H2 mrs Hm).
  - cbn [iter_pos]. apply H1, Hm.
Qed.

Lemma shr_fexp_round m e :
  0 <= m ->
  let e' := Z.max e (fexp prec emax (Zdigits2 m + e)) in
  exists mrs,
    shr_fexp prec emax m e loc_Exact = (mrs, e') /\
    shr_m mrs = m / 2 ^ (e' - e) /\
    (shr_r mrs = true -> 2 ^ (e' - e) <= 2 * (m mod 2 ^ (e' - e))).
Proof.
  intros Hm e'. unfold shr_fexp, shr. cbn [shr_record_of_loc].
  set (f := fexp prec emax (Zdigits2 m + e)) in *.
  destruct (f - e) as [|p|p] eqn:E.
  - eexists. replace e' with e by lia. rewrite Z.sub_diag. change (2 ^ 0) with 1.
    rewrite Z.div_1_r. split; [reflexivity|]. split; [reflexivity|]. discriminate.
  - exists (iter_pos shr_1 p {| shr_m := m; shr_r := false; shr_s := false |}).
    assert (He : e' - e = Zpos p) by lia. rewrite He.
    destruct (iter_pos_shr_r p {| shr_m := m; shr_r := false; shr_s := false |} Hm)
      as [H1 H2]. cbn [shr_m] in *.
    split; [f_equal; lia|]. split; [exact H1|exact H2].
  - eexists. replace e' with e by lia. rewrite Z.sub_diag. change (2 ^ 0) with 1.
    rewrite Z.div_1_r. split; [reflexivity|]. split; [reflexivity|]. discriminate.
Qed.

Lemma round_up_r mrs :
  round_nearest_even (shr_m mrs) (loc_of_shr_record mrs) = shr_m mrs
  \/ (round_nearest_even (shr_m mrs) (loc_of_shr_record mrs) = shr_m mrs + 1
      /\ shr_r mrs = true).
Proof.
  destruct mrs as [m [|] [|]]; cbn; try (left; reflexivity); try (right; split; reflexivity).
  destruct (Z.even m); [left|right; split]; reflexivity.
Qed.

Lemma to_int_finite m e :
  -1074 <= e -> to_int (S754_finite false m e) = ret (Zpos m * 2 ^ (e + 1074) / 2 ^ 1074).
Proof.
  intros He. cbn [to_int cond_Zopp]. f_equal.
  destruct (Z_le_gt_dec 0 e) as [L|L].
  - rewrite Z.shiftl_mul_pow2 by lia. rewrite (Z.pow_add_r 2 e 1074) by lia.
    rewrite Z.mul_assoc, Z.div_mul; [reflexivity|]. pose proof (pow2_pos 1074); lia.
  - rewrite Z.shiftl_div_pow2 by lia.
    replace 1074 with ((e + 1074) + - e) at 2 by lia.
    rewrite (Z.pow_add_r 2 (e + 1074) (- e)) by lia.
    rewrite (Z.mul_comm (Zpos m)), Z.div_mul_cancel_l; [reflexivity| |].
    + pose proof (pow2_pos (- e)); lia.
    + pose proof (pow2_pos (e + 1074)); lia.
Qed.

(** [int] of a rounded value: the mantissa cut at the last place, or one
    more when the part cut off is at least half of the last place *)
Lemma round_aux_to_int P e :
  0 < P ->
  let e1 := Z.max e (fexp prec emax (Zdigits2 P + e)) in
  e1 <= 970 ->
  exists d,
    (d = 0 \/ (d = 1 /\ 2 ^ (e1 - e) <= 2 * (P mod 2 ^ (e1 - e))))
    /\ to_int (binary_round_aux prec emax false P e loc_Exact)
       = ret ((P / 2 ^ (e1 - e) + d) * 2 ^ (e1 + 1074) / 2 ^ 1074).
Proof.
  intros HP e1 He1. unfold binary_round_aux.
  destruct (shr_fexp_round P e ltac:(lia)) as (mrs1 & -> & Hm1 & Hr1). fold e1 in Hm1, Hr1 |- *.
  assert (Hlo : -1074 <= e1 /\ e <= e1 /\ Zdigits2 P + e - 53 <= e1).
  { unfold e1. rewrite fexp_eq. lia. }
  pose proof (pow2_pos (e1 - e) ltac:(lia)) as Pk.
  set (q := P / 2 ^ (e1 - e)) in *.
  assert (Hq0 : 0 <= q) by (apply Z.div_pos; lia).
  assert (Hq53 : q < 2 ^ 53).
  { pose proof (Zdigits2_div P (e1 - e) ltac:(lia) ltac:(lia)) as Hd. fold q in Hd.
    pose proof (Zdigits2_nonneg P).
    apply (Zdigits2_le q 53); lia. }
  set (m2 := round_nearest_even (shr_m mrs1) (loc_of_shr_record mrs1)).
  assert (Hd : exists d, m2 = q + d /\
            (d = 0 \/ (d = 1 /\ 2 ^ (e1 - e) <= 2 * (P mod 2 ^ (e1 - e))))).
  { unfold m2. destruct (round_up_r mrs1) as [E|[E Hr]]; rewrite E, Hm1.
    - exists 0. split; [lia|left; reflexivity].
    - exists 1. split; [reflexivity|right; split; [reflexivity|apply Hr1, Hr]]. }
  destruct Hd as (d & Em2 & Hd). exists d. split; [exact Hd|].
  assert (Hm2 : 0 <= m2 <= 2 ^ 53) by (destruct Hd as [->|[-> _]]; lia).
  destruct (shr_fexp_spec m2 e1 loc_Exact ltac:(lia)) as (mrs2 & -> & Hm3 & _ & _).
  set (e2 := Z.max e1 (fexp prec emax (Zdigits2 m2 + e1))) in *.
  rewrite <- Em2.
  pose proof (pow2_pos (e1 + 1074) ltac:(lia)) as P1.
  pose proof (pow2_pos 1074 ltac:(lia)) as PU.
  destruct (Z_lt_le_dec m2 (2 ^ 53)) as [L|L].
  - assert (Hdig : Zdigits2 m2 <= 53) by (apply Zdigits2_le; lia).
    assert (E2 : e2 = e1) by (unfold e2; rewrite fexp_eq; lia).
    rewrite E2, Z.sub_diag in Hm3. change (2 ^ 0) with 1 in Hm3. rewrite Z.div_1_r in Hm3.
    rewrite Hm3, E2. change (emax - prec) with 971.
    destruct m2 as [|p|p]; [|destruct (Z.leb_spec e1 971); [|lia]|lia].
    + reflexivity.
    + apply to_int_finite. lia.
  - assert (E53 : m2 = 2 ^ 53) by lia.
    assert (Hdig : Zdigits2 m2 = 54) by (rewrite E53; reflexivity).
    assert (E2 : e2 = e1 + 1) by (unfold e2; rewrite fexp_eq; lia).
    rewrite E2 in *. replace (e1 + 1 - e1) with 1 in Hm3 by lia.
    rewrite E53 in Hm3. change (2 ^ 53 / 2 ^ 1) with (2 ^ 52) in Hm3.
    rewrite Hm3. change (emax - prec) with 971.
    change (2 ^ 52) with (Z.pos 4503599627370496).
    destruct (Z.leb_spec (e1 + 1) 971); [|lia].
    rewrite to_int_finite by lia. f_equal. f_equal. rewrite E53.
    replace (e1 + 1 + 1074) with (1 + (e1 + 1074)) by lia.
    rewrite (Z.pow_add_r 2 1 (e1 + 1074)) by lia.
    change (Z.pos 4503599627370496) with (2 ^ 52). change (2 ^ 53) with (2 ^ 52 * 2 ^ 1). ring.
Qed.

(** the arithmetic of the milliseconds: [T] is the rounded product in units
    of [2^-1074], a multiple of the last place [E1] *)
Lemma ms_bounds F T E1 n b :
  0 < E1 -> 0 < n -> T = b * E1 -> 0 <= F ->
  1000 * F - E1 < T -> 2 * T <= 2000 * F + E1 ->
  2000 * F + E1 < 2000 * (E1 * n) ->
  1000 * F / (E1 * n) <= T / (E1 * n) <= 1000 * F / (E1 * n) + 1
  /\ 0 <= T / (E1 * n) <= 999.
Proof.
  intros HE Hn HT HF Hlo Hhi Hmax.
  set (U := E1 * n) in *. assert (HU : 0 < U) by (unfold U; nia).
  set (ms0 := 1000 * F / U).
  assert (Hms0 : 0 <= ms0) by (apply Z.div_pos; lia).
  assert (Hdm : 1000 * F = U * ms0 + (1000 * F) mod U) by (apply Z.div_mod; lia).
  pose proof (Z.mod_pos_bound (1000 * F) U HU) as Hr.
  assert (HEU : E1 <= U) by (unfold U; nia).
  assert (L1 : ms0 * U <= T).
  { assert (ms0 * n < b + 1) by (unfold U in *; nia).
    unfold U. nia. }
  assert (L2 : T < (ms0 + 2) * U) by nia.
  assert (L3 : T < 1000 * U) by lia.
  repeat split.
  - apply Z.div_le_lower_bound; lia.
  - assert (T / U < ms0 + 2) by (apply Z.div_lt_upper_bound; lia). lia.
  - apply Z.div_pos; lia.
  - assert (T / U < 1000) by (apply Z.div_lt_upper_bound; lia). lia.
Qed.

(** a double below one is at most [1 - 2^-53] *)
Lemma below_one m e :
  bounded prec emax m e = true -> Zpos m * 2 ^ (e + 1074) < 2 ^ 1074 ->
  e < 0 /\ Zpos m * 2 ^ (e + 1074) <= 2 ^ 1074 - 2 ^ 1021.
Proof.
  intros Hb Hlt. destruct (bounded_canonical m e Hb) as (He & Hd & _).
  pose proof (pow2_pos (e + 1074) ltac:(lia)) as P1.
  assert (He0 : e < 0).
  { destruct (Z_lt_le_dec e 0) as [L|L]; [exact L|exfalso].
    assert (2 ^ 1074 <= 2 ^ (e + 1074)) by (apply pow2_le; lia). nia. }
  split; [exact He0|].
  pose proof (digits2_pos_lt m) as Hm.
  assert (Hm53 : Zpos m < 2 ^ 53).
  { apply (Z.lt_le_trans _ _ _ Hm). apply pow2_le. lia. }
  destruct (Z_le_gt_dec (-53) e) as [L|L].
  - assert (HU : 2 ^ 1074 = 2 ^ (- e) * 2 ^ (e + 1074)).
    { rewrite <- Z.pow_add_r by lia. f_equal. lia. }
    assert (H1021 : 2 ^ 1021 <= 2 ^ (e + 1074)) by (apply pow2_le; lia).
    pose proof (pow2_pos (- e) ltac:(lia)) as P2.
    assert (Zpos m < 2 ^ (- e)) by nia.
    assert (Zpos m * 2 ^ (e + 1074) <= (2 ^ (- e) - 1) * 2 ^ (e + 1074)) by nia.
    lia.
  - assert (2 ^ (e + 1074) <= 2 ^ 1020) by (apply pow2_le; lia).
    assert (Zpos m * 2 ^ (e + 1074) <= 2 ^ 53 * 2 ^ 1020) by nia.
    change (2 ^ 53 * 2 ^ 1020) with (2 ^ 1073) in *.
    assert (2 ^ 1073 <= 2 ^ 1074 - 2 ^ 1021) by (vm_compute; discriminate).
    lia.
Qed.

(** [int(frac * 1000)] for a double [frac] below one: the milliseconds of
    [frac] or one more, and never a thousand *)
Lemma mul_1000_to_int z :
  nonneg z = true -> scaled z < 2 ^ 1074 ->
  exists ms, to_int (mul z c1000) = ret ms
             /\ scaled z * 1000 / 2 ^ 1074 <= ms <= scaled z * 1000 / 2 ^ 1074 + 1
             /\ 0 <= ms <= 999.
Proof.
  intros Hz Hlt. destruct (nonneg_cases z Hz) as [->|(mf & ef & -> & Hb)].
  - exists 0. split; [reflexivity|]. cbn. lia.
  - rewrite scaled_finite in *.
    destruct (bounded_canonical mf ef Hb) as (Hef & Hdf & _).
    destruct (below_one mf ef Hb Hlt) as [Hneg HF].
    set (W := 2 ^ (ef + 1074)) in *.
    assert (HW : 0 < W) by (apply pow2_pos; lia).
    set (F := Z.pos mf * W) in *.
    unfold mul, SFmul, c1000. cbn [xorb].
    set (P := Z.pos (mf * 8796093022208000)).
    assert (HP : P = Z.pos mf * (1000 * 2 ^ 43)) by (unfold P; rewrite Pos2Z.inj_mul; reflexivity).
    assert (HP0 : 0 < P) by (unfold P; lia).
    set (e := ef + -43).
    assert (HPW : P * W = 1000 * 2 ^ 43 * F) by (rewrite HP; unfold F; ring).
    (* the size of the product *)
    assert (Hdig : Zdigits2 P + e <= 10).
    { assert (H1 : Zdigits2 (P * W) <= 1127).
      { apply Zdigits2_le; [nia|lia|]. rewrite HPW.
        assert (1000 * 2 ^ 43 * F < 2 ^ 10 * 2 ^ 43 * 2 ^ 1074).
        { change (2 ^ 10) with 1024. nia. }
        change (2 ^ 10 * 2 ^ 43 * 2 ^ 1074) with (2 ^ 1127) in *. assumption. }
      unfold W in H1. rewrite Zdigits2_mul_pow2 in H1 by lia. unfold e. lia. }
    set (e1 := Z.max e (fexp prec emax (Zdigits2 P + e))).
    assert (He1 : -1074 <= e1 <= -43 /\ e <= e1).
    { unfold e1. rewrite fexp_eq. unfold e. lia. }
    destruct (round_aux_to_int P e HP0 ltac:(fold e1; lia)) as (d & Hd & Hti).
    fold e1 in Hd, Hti. rewrite Hti. eexists. split; [reflexivity|].
    set (K := 2 ^ (e1 - e)) in *.
    assert (HK : 0 < K) by (apply pow2_pos; lia).
    set (E1 := 2 ^ (e1 + 1074)).
    assert (HE1 : 0 < E1) by (apply pow2_pos; lia).
    set (q := P / K) in *.
    assert (HU : 2 ^ 1074 = E1 * 2 ^ (- e1)).
    { unfold E1. rewrite <- Z.pow_add_r by lia. f_equal. lia. }
    assert (HEKW : E1 * 2 ^ 43 = K * W).
    { unfold E1, K, W, e. rewrite <- !Z.pow_add_r by lia. f_equal. lia. }
    assert (Hdm : P = K * q + P mod K) by (apply Z.div_mod; lia).
    pose proof (Z.mod_pos_bound P K HK) as Hr.
    remember (P mod K) as r eqn:Er. remember (K * q) as X eqn:EX.
    pose proof (pow2_pos 43 ltac:(lia)) as P43.
    assert (HT : (q + d) * E1 * 2 ^ 43 = (X + d * K) * W).
    { rewrite <- Z.mul_assoc, HEKW, EX. ring. }
    assert (Hlo : 1000 * F - E1 < (q + d) * E1).
    { apply (Z.mul_lt_mono_pos_r (2 ^ 43)); [lia|].
      rewrite HT, Z.mul_sub_distr_r, HEKW.
      replace (1000 * F * 2 ^ 43) with (P * W) by (rewrite HPW; ring).
      rewrite <- Z.mul_sub_distr_r. apply Z.mul_lt_mono_pos_r; [lia|].
      destruct Hd as [->|[-> _]]; lia. }
    assert (Hhi : 2 * ((q + d) * E1) <= 2000 * F + E1).
    { apply (Z.mul_le_mono_pos_r _ _ (2 ^ 43)); [lia|].
      replace (2 * ((q + d) * E1) * 2 ^ 43) with (2 * ((q + d) * E1 * 2 ^ 43)) by ring.
      rewrite HT, (Z.mul_add_distr_r (2000 * F) E1 (2 ^ 43)), HEKW.
      replace (2000 * F * 2 ^ 43) with (2 * (P * W)) by (rewrite HPW; ring).
      replace (2 * (P * W) + K * W) with ((2 * P + K) * W) by ring.
      replace (2 * ((X + d * K) * W)) with ((2 * (X + d * K)) * W) by ring.
      apply Z.mul_le_mono_nonneg_r; [lia|].
      destruct Hd as [->|[-> Hh]]; lia. }
    assert (Hmax : 2000 * F + E1 < 2000 * (E1 * 2 ^ (- e1))).
    { rewrite <- HU.
      assert (E1 <= 2 ^ 1031) by (apply pow2_le; lia).
      assert (2 ^ 1031 < 2000 * 2 ^ 1021) by (vm_compute; reflexivity).
      lia. }
    pose proof (ms_bounds F ((q + d) * E1) E1 (2 ^ (- e1)) (q + d) HE1
                  (pow2_pos (- e1) ltac:(lia)) eq_refl ltac:(unfold F; nia)
                  Hlo Hhi Hmax) as Hms.
    rewrite <- HU in Hms. replace (F * 1000) with (1000 * F) by ring. exact Hms.
Qed.

Lemma bounded_c3600 : bounded prec emax 7916483719987200 (-41) = true.
Proof. vm_compute. reflexivity. Qed.

Lemma bounded_c60 : bounded prec emax 8444249301319680 (-47) = true.
Proof. vm_compute. reflexivity. Qed.

Lemma scaled_c3600 : scaled c3600 = 3600 * 2 ^ 1074.
Proof. vm_compute. reflexivity. Qed.

Lemma scaled_c60 : scaled c60 = 60 * 2 ^ 1074.
Proof. vm_compute. reflexivity. Qed.

(** the fields that [format_srt_time] computes for a double from 0 up to
    [2^53]: [X] is the double in units of [2^-1074] *)
Lemma format_srt_time_fields x :
  nonneg x = true -> scaled x < 2 ^ 53 * 2 ^ 1074 ->
  let X := scaled x in
  let U := 2 ^ 1074 in
  exists ms,
    LessonPipeline.format_srt_time x
    = ret (PyStr.format_int 2 (X / (3600 * U)) ++ ":"
             ++ PyStr.format_int 2 (X mod (3600 * U) / (60 * U)) ++ ":"
             ++ PyStr.format_int 2 (X mod (60 * U) / U) ++ ","
             ++ PyStr.format_int 3 ms)%string
    /\ X mod U * 1000 / U <= ms <= X mod U * 1000 / U + 1
    /\ 0 <= ms <= 999.
Proof.
  intros Hx Hlt X U.
  assert (HU : 0 < U) by (apply pow2_pos; lia).
  pose proof (scaled_nonneg x Hx) as HX0. fold X in HX0, Hlt.
  (* hours *)
  destruct (floordiv_exact x _ _ 3600 Hx bounded_c3600 scaled_c3600 ltac:(lia) Hlt)
    as (q1 & Hq1 & Hq1n & Hq1s).
  fold c3600 X U in Hq1, Hq1s.
  pose proof (to_int_nonneg q1 Hq1n) as Hh. rewrite Hq1s in Hh. fold U in Hh.
  rewrite Z.div_mul in Hh by lia.
  (* minutes *)
  destruct (rem_exact x _ _ Hx bounded_c3600) as (r1 & Hr1 & Hr1n & Hr1s).
  fold c3600 in Hr1, Hr1s. rewrite scaled_c3600 in Hr1s. fold X U in Hr1s.
  assert (H3600 : 0 <= X mod (3600 * U) < 3600 * U) by (apply Z.mod_pos_bound; lia).
  assert (Hr1lt : scaled r1 < 2 ^ 53 * 2 ^ 1074).
  { rewrite Hr1s. fold U. assert (3600 < 2 ^ 53) by (vm_compute; reflexivity). nia. }
  destruct (floordiv_exact r1 _ _ 60 Hr1n bounded_c60 scaled_c60 ltac:(lia) Hr1lt)
    as (q2 & Hq2 & Hq2n & Hq2s).
  fold c60 U in Hq2, Hq2s. rewrite Hr1s in Hq2s.
  pose proof (to_int_nonneg q2 Hq2n) as Hm. rewrite Hq2s in Hm. fold U in Hm.
  rewrite Z.div_mul in Hm by lia.
  (* seconds *)
  destruct (rem_exact x _ _ Hx bounded_c60) as (r2 & Hr2 & Hr2n & Hr2s).
  fold c60 in Hr2, Hr2s. rewrite scaled_c60 in Hr2s. fold X U in Hr2s.
  pose proof (to_int_nonneg r2 Hr2n) as Hs. rewrite Hr2s in Hs. fold U in Hs.
  (* milliseconds *)
  destruct (frac_exact x Hx Hlt) as (fi & z & Hi & Hfi & Hsub & Hzn & Hzs).
  fold X U in Hi, Hfi, Hzs.
  assert (Hzlt : scaled z < 2 ^ 1074).
  { rewrite Hzs. apply Z.mod_pos_bound. exact HU. }
  destruct (mul_1000_to_int z Hzn Hzlt) as (ms & Hms & Hms1 & Hms2).
  rewrite Hzs in Hms1. fold U in Hms1.
  exists ms. split; [|split; assumption].
  unfold LessonPipeline.format_srt_time.
  rewrite of_int_3600, of_int_60, of_int_1000, !bind_ret.
  rewrite Hq1, bind_ret, Hh, bind_ret, Hr1, bind_ret, Hq2, bind_ret, Hm, bind_ret.
  rewrite Hr2, bind_ret, Hs, bind_ret, Hi, bind_ret, Hfi, bind_ret, Hsub, Hms, bind_ret.
  reflexivity.
Qed.

(** [<] on doubles that are not negative is [<] on their values *)
Lemma ltb_scaled x y :
  nonneg x = true -> nonneg y = true -> ltb x y = true -> scaled x < scaled y.
Proof.
  intros Hx Hy.
  destruct (nonneg_cases x Hx) as [->|(m1 & e1 & -> & Hb1)];
    destruct (nonneg_cases y Hy) as [->|(m2 & e2 & -> & Hb2)];
    try discriminate.
  - intros _. destruct (bounded_canonical m2 e2 Hb2) as (He2 & _).
    pose proof (scaled_finite_pos m2 e2 ltac:(lia)). cbn [scaled] in *. lia.
  - destruct (bounded_canonical m1 e1 Hb1) as (He1 & Hd1 & Hc1).
    destruct (bounded_canonical m2 e2 Hb2) as (He2 & Hd2 & Hc2).
    rewrite !scaled_finite. unfold ltb, SFltb, SFcompare.
    destruct (Z.compare_spec e1 e2) as [E|L|G]; try discriminate.
    + subst e2. change (PosDef.Pos.compare_cont Eq m1 m2) with (Pos.compare m1 m2).
      destruct (Pos.compare_spec m1 m2) as [E|L|G]; try discriminate.
      intros _. pose proof (pow2_pos (e1 + 1074) ltac:(lia)). nia.
    + intros _. rewrite fexp_eq in Hc2.
      assert (Hd2' : Zpos (digits2_pos m2) = 53) by lia.
      pose proof (digits2_pos_ge m2) as G2. rewrite Hd2' in G2. change (53 - 1) with 52 in G2.
      pose proof (digits2_pos_lt m1) as L1.
      assert (2 ^ Zpos (digits2_pos m1) <= 2 ^ 53) by (apply pow2_le; lia).
      pose proof (pow2_pos (e1 + 1074) ltac:(lia)) as P1.
      assert (H2 : 2 * 2 ^ (e1 + 1074) <= 2 ^ (e2 + 1074)).
      { replace (2 * 2 ^ (e1 + 1074)) with (2 ^ (1 + (e1 + 1074)))
          by (rewrite (Z.pow_add_r 2 1 (e1 + 1074)) by lia; reflexivity).
        apply pow2_le. lia. }
      change (2 ^ 53) with (2 * 2 ^ 52) in *.
      assert (0 < 2 ^ 52) by (apply pow2_pos; lia). nia.
Qed.

End Exact.

Section Timestamps.
Import PyStr Re LessonPipeline.

Lemma in_range_Z n z : 0 <= z < Z.of_nat n -> In z (map Z.of_nat (seq 0 n)).
Proof.
  intros H. apply in_map_iff. exists (Z.to_nat z). split; [lia|].
  apply in_seq. lia.
Qed.

Lemma format_int_2 z :
  0 <= z <= 99 ->
  exists a b, format_int 2 z = String a (String b "")
              /\ isdigit a = true /\ isdigit b = true.
Proof.
  intros H.
  assert (Hall : forallb (fun z => match format_int 2 z with
                                   | String a (String b EmptyString) => isdigit a && isdigit b
                                   | _ => false
                                   end) (map Z.of_nat (seq 0 100)) = true)
    by (vm_compute; reflexivity).
  rewrite forallb_forall in Hall. specialize (Hall z (in_range_Z 100 z ltac:(lia))).
  destruct (format_int 2 z) as [|a [|b [|c s]]]; try discriminate.
  apply andb_prop in Hall. exists a, b. split; [reflexivity|exact Hall].
Qed.

Lemma format_int_3 z :
  0 <= z <= 999 ->
  exists a b c, format_int 3 z = String a (String b (String c ""))
                /\ isdigit a = true /\ isdigit b = true /\ isdigit c = true.
Proof.
  intros H.
  assert (Hall : forallb (fun z => match format_int 3 z with
                                   | String a (String b (String c EmptyString)) =>
                                       isdigit a && isdigit b && isdigit c
                                   | _ => false
                                   end) (map Z.of_nat (seq 0 1000)) = true)
    by (vm_compute; reflexivity).
  rewrite forallb_forall in Hall. specialize (Hall z (in_range_Z 1000 z ltac:(lia))).
  destruct (format_int 3 z) as [|a [|b [|c [|d s]]]]; try discriminate.
  apply andb_prop in Hall. destruct Hall as [Hall Hc]. apply andb_prop in Hall.
  exists a, b, c. split; [reflexivity|]. split; [apply Hall|]. split; [apply Hall|exact Hc].
Qed.

(** two digits, a colon, two digits, a colon, two digits, a comma and three
    digits are a time of the pattern *)
Lemma is_timestamp_fields h m s ms :
  0 <= h <= 99 -> 0 <= m <= 99 -> 0 <= s <= 99 -> 0 <= ms <= 999 ->
  is_timestamp (format_int 2 h ++ ":" ++ format_int 2 m ++ ":" ++ format_int 2 s
                  ++ "," ++ format_int 3 ms) = true
  /\ String.length (format_int 2 h ++ ":" ++ format_int 2 m ++ ":" ++ format_int 2 s
                      ++ "," ++ format_int 3 ms) = 12%nat.
Proof.
  intros Hh Hm Hs Hms.
  destruct (format_int_2 h Hh) as (h1 & h2 & -> & Hh1 & Hh2).
  destruct (format_int_2 m Hm) as (m1 & m2 & -> & Hm1 & Hm2).
  destruct (format_int_2 s Hs) as (s1 & s2 & -> & Hs1 & Hs2).
  destruct (format_int_3 ms Hms) as (a & b & c & -> & Ha & Hb & Hc).
  split; [|reflexivity].
  unfold is_timestamp, timestamp, digits, lit.
  cbn [append match_here rep may_take Nat.pred option_map].
  rewrite ?andb_false_r, Hh1, Hh2, Hm1, Hm2, Hs1, Hs2, Ha, Hb, Hc. reflexivity.
Qed.

End Timestamps.

Section SubtitleTimes.
Import PyStr PyFloat LessonPipeline.

Lemma subtitle_time_scaled x :
  subtitle_time x = true -> nonneg x = true /\ 0 <= scaled x < 360000 * 2 ^ 1074.
Proof.
  unfold subtitle_time. intros H. apply andb_prop in H. destruct H as [Hn Hl].
  split; [exact Hn|]. split; [apply scaled_nonneg, Hn|].
  destruct (of_Z_nonneg 360000 ltac:(split; [lia|vm_compute; reflexivity])) as [Hc Hs].
  rewrite <- Hs. apply ltb_scaled; assumption.
Qed.

(** a subtitle time is written [dd:dd:dd,ddd] *)
Lemma subtitle_time_text x :
  subtitle_time x = true ->
  format_srt_time x = ret (time_text x) /\ is_timestamp (time_text x) = true
  /\ String.length (time_text x) = 12%nat.
Proof.
  intros H. destruct (subtitle_time_scaled x H) as (Hn & H0 & Hlt).
  pose proof (pow2_pos 1074 ltac:(lia)) as HU.
  assert (H53 : scaled x < 2 ^ 53 * 2 ^ 1074).
  { assert (360000 < 2 ^ 53) by (vm_compute; reflexivity). nia. }
  destruct (format_srt_time_fields x Hn H53) as (ms & E & _ & Hms).
  unfold time_text. rewrite E. split; [reflexivity|]. unfold ret.
  cbv zeta in *.
  set (U := 2 ^ 1074) in *.
  assert (Hh : 0 <= scaled x / (3600 * U) <= 99).
  { split; [apply Z.div_pos; lia|].
    assert (scaled x / (3600 * U) < 100) by (apply Z.div_lt_upper_bound; lia). lia. }
  assert (Hm : 0 <= scaled x mod (3600 * U) / (60 * U) <= 99).
  { pose proof (Z.mod_pos_bound (scaled x) (3600 * U) ltac:(lia)) as Hb.
    split; [apply Z.div_pos; lia|].
    assert (scaled x mod (3600 * U) / (60 * U) < 60) by (apply Z.div_lt_upper_bound; lia).
    lia. }
  assert (Hs : 0 <= scaled x mod (60 * U) / U <= 99).
  { pose proof (Z.mod_pos_bound (scaled x) (60 * U) ltac:(lia)) as Hb.
    split; [apply Z.div_pos; lia|].
    assert (scaled x mod (60 * U) / U < 60) by (apply Z.div_lt_upper_bound; lia).
    lia. }
  apply is_timestamp_fields; assumption.
Qed.


End SubtitleTimes.

(** * Properties of the codec *)

Import PyStr.

(** [format_srt_time] on a few times: whole and half seconds, the time
    [1.9995] of the specification, and the two kinds of input on which
    [int] raises. *)
Example format_srt_time_examples :
  LessonPipeline.format_srt_time (PyFloat.of_Z 0) = ret "00:00:00,000"
  /\ LessonPipeline.format_srt_time (PyFloat.of_ratio 15 10) = ret "00:00:01,500"
  /\ LessonPipeline.format_srt_time (PyFloat.of_ratio 19995 10000)
     = ret "00:00:01,999"
  /\ LessonPipeline.format_srt_time (PyFloat.of_Z 360000) = ret "100:00:00,000"
  /\ LessonPipeline.format_srt_time S754_nan = raise ValueError
  /\ LessonPipeline.format_srt_time (S754_infinity false) = raise ValueError.
Proof. repeat split; vm_compute; reflexivity. Qed.







(** C3 (code bug): the start time [3661.999], the double
    [0x1.c9bff7ced9168p+11], is formatted as [01:01:01,998] by both scripts,
    not as [01:01:01,999]. *)
Theorem format_srt_time_3661_999 :
  seconds_3661_999 = S754_finite false 8052820962808168 (-41)
  /\ LessonPipeline.format_srt_time seconds_3661_999 = ret "01:01:01,998"
  /\ ExtractMp3.format_srt_time seconds_3661_999 = ret "01:01:01,998".
Proof. repeat split; vm_compute; reflexivity. Qed.

(** C4 (as amended): for every input in which the index-and-timing pattern
    matches nowhere, [srt_to_text] returns the input with every run of two or
    more newlines replaced by one newline, then stripped; it is the input
    stripped when the input has no two newlines in a row. *)
Theorem srt_to_text_without_markup (s : string) :
  Re.search Re.index_and_timing s = false ->
  LessonPipeline.srt_to_text s = strip (Re.sub Re.empty_lines nl s)
  /\ (has_blank_line s = false -> LessonPipeline.srt_to_text s = strip s).
Proof.
  intros H. unfold LessonPipeline.srt_to_text.
  rewrite (sub_no_match _ _ _ H). split; [reflexivity|].
  intros Hb. rewrite (collapse_plain _ Hb). reflexivity.
Qed.

Lemma srt_to_text_without_markup_witness :
  Re.search Re.index_and_timing "just a plain sentence" = false
  /\ (LessonPipeline.srt_to_text "just a plain sentence"
      = strip (Re.sub Re.empty_lines nl "just a plain sentence")
      /\ (has_blank_line "just a plain sentence" = false ->
          LessonPipeline.srt_to_text "just a plain sentence"
          = strip "just a plain sentence")).
Proof.
  split; [vm_compute; reflexivity|].
  apply (srt_to_text_without_markup "just a plain sentence"). vm_compute. reflexivity.
Defined.

(** C4 (as stated) fails: ["a\n\nb"] has no markup, and [srt_to_text]
    returns ["a\nb"], which is not the input stripped. *)
Lemma srt_to_text_changes_plain_text :
  Re.search Re.index_and_timing two_paragraphs = false
  /\ LessonPipeline.srt_to_text two_paragraphs = "a" ++ nl ++ "b"
  /\ LessonPipeline.srt_to_text two_paragraphs <> strip two_paragraphs.
Proof.
  repeat split; try (vm_compute; reflexivity).
  vm_compute. discriminate.
Qed.

(** C5 (as amended): [srt_to_text] applied twice is [srt_to_text] applied
    once on every input in which the index-and-timing pattern matches
    nowhere, neither before nor after the runs of newlines are collapsed. *)
Theorem srt_to_text_idempotent (s : string) :
  Re.search Re.index_and_timing s = false ->
  Re.search Re.index_and_timing (Re.sub Re.empty_lines nl s) = false ->
  LessonPipeline.srt_to_text (LessonPipeline.srt_to_text s)
  = LessonPipeline.srt_to_text s.
Proof.
  intros H1 H2. unfold LessonPipeline.srt_to_text.
  rewrite (sub_no_match _ _ _ H1).
  set (t := strip (Re.sub Re.empty_lines nl s)).
  assert (Ht1 : Re.search Re.index_and_timing t = false)
    by (apply search_strip; exact H2).
  assert (Ht2 : has_blank_line t = false)
    by (apply has_blank_line_strip; apply collapse_no_blank).
  rewrite (sub_no_match _ _ _ Ht1), (collapse_plain _ Ht2).
  apply strip_idem.
Qed.

Lemma srt_to_text_idempotent_witness :
  Re.search Re.index_and_timing "just a plain sentence" = false
  /\ Re.search Re.index_and_timing
       (Re.sub Re.empty_lines nl "just a plain sentence") = false
  /\ LessonPipeline.srt_to_text (LessonPipeline.srt_to_text "just a plain sentence")
     = LessonPipeline.srt_to_text "just a plain sentence".
Proof.
  split; [vm_compute; reflexivity|]. split; [vm_compute; reflexivity|].
  apply (srt_to_text_idempotent "just a plain sentence"); vm_compute; reflexivity.
Defined.

(** C5 (as stated) fails: in [spaced_markup] the pattern matches nowhere;
    the first pass removes the empty line between the index line and the
    timing line, and the second pass then strips them. *)
Lemma srt_to_text_not_idempotent :
  Re.search Re.index_and_timing spaced_markup = false
  /\ LessonPipeline.srt_to_text spaced_markup
     = "1" ++ nl ++ "00:00:00,000 --> 00:00:01,000" ++ nl ++ "x"
  /\ LessonPipeline.srt_to_text (LessonPipeline.srt_to_text spaced_markup) = "x"
  /\ LessonPipeline.srt_to_text (LessonPipeline.srt_to_text spaced_markup)
     <> LessonPipeline.srt_to_text spaced_markup.
Proof.
  repeat split; try (vm_compute; reflexivity).
  vm_compute. discriminate.
Qed.

(** C6: [srt_to_text] of the [.srt] text of [{0, 1.5, "hello"}] is
    ["hello"], and of the text of [[{0,1,"a"},{2,3,"b"}]] it is ["a\nb"]. *)
Theorem srt_to_text_round_trip :
  LessonPipeline.srt_to_text (fst (LessonPipeline.transcribe_audio hello_segments)) = "hello"
  /\ LessonPipeline.srt_to_text (fst (LessonPipeline.transcribe_audio two_segments))
     = "a" ++ nl ++ "b".
Proof. split; vm_compute; reflexivity. Qed.




(** C8: the [.srt] text of the single segment [{0, 1.5, "hello"}] is
    ["1\n00:00:00,000 --> 00:00:01,500\nhello\n\n"]. *)
Theorem write_srt_hello :
  LessonPipeline.transcribe_audio hello_segments
  = ("1" ++ nl ++ "00:00:00,000 --> 00:00:01,500" ++ nl ++ "hello" ++ nl ++ nl,
     inr tt).
Proof. vm_compute. reflexivity. Qed.




(** C10: the two scripts format every time alike, and their loops write
    the same block for the same segment and the same text for the same
    sequence. *)
Theorem scripts_agree :
  (forall seconds,
      ExtractMp3.format_srt_time seconds = LessonPipeline.format_srt_time seconds)
  /\ (forall f segment,
        ExtractMp3.write_segment f segment = LessonPipeline.write_segment f segment)
  /\ (forall segments,
        ExtractMp3.transcribe_audio segments = LessonPipeline.transcribe_audio segments).
Proof.
  split; [reflexivity|]. split; [reflexivity|].
  intros segments. unfold ExtractMp3.transcribe_audio, LessonPipeline.transcribe_audio.
  generalize EmptyString. induction segments as [|segment rest IH]; intros f.
  - reflexivity.
  - cbn [ExtractMp3.write_segments LessonPipeline.write_segments].
    change (ExtractMp3.write_segment f segment)
      with (LessonPipeline.write_segment f segment).
    destruct (LessonPipeline.write_segment f segment) as [f' [e|u]];
      [reflexivity|apply IH].
Qed.

(** * Further properties of the two scripts *)

(** X1. [format_srt_time], in both scripts, returns a text on every finite
    double and raises [ValueError] on NaN and on the two infinities: the
    float to which [//] gives NaN is what [int] refuses. *)
Theorem format_srt_time_raises_iff_not_finite (seconds : PyFloat.float) :
  valid_binary PyFloat.prec PyFloat.emax seconds = true ->
  (PyFloat.is_finite seconds = true ->
     exists t, LessonPipeline.format_srt_time seconds = ret t
               /\ ExtractMp3.format_srt_time seconds = ret t)
  /\ (PyFloat.is_finite seconds = false ->
        LessonPipeline.format_srt_time seconds = raise ValueError
        /\ ExtractMp3.format_srt_time seconds = raise ValueError).
Proof.
  intros Hv. split; intros Hf.
  - exists (LessonPipeline.time_text seconds).
    assert (E : LessonPipeline.format_srt_time seconds
                = inr (LessonPipeline.time_text seconds)).
    { apply format_time_text. unfold PyFloat.is_real. rewrite Hv, Hf. reflexivity. }
    split; exact E.
  - split; exact (format_srt_time_not_finite _ Hf).
Qed.

Lemma format_srt_time_raises_iff_not_finite_witness :
  valid_binary PyFloat.prec PyFloat.emax (PyFloat.of_ratio 15 10) = true
  /\ ((PyFloat.is_finite (PyFloat.of_ratio 15 10) = true ->
         exists t, LessonPipeline.format_srt_time (PyFloat.of_ratio 15 10) = ret t
                   /\ ExtractMp3.format_srt_time (PyFloat.of_ratio 15 10) = ret t)
      /\ (PyFloat.is_finite (PyFloat.of_ratio 15 10) = false ->
            LessonPipeline.format_srt_time (PyFloat.of_ratio 15 10) = raise ValueError
            /\ ExtractMp3.format_srt_time (PyFloat.of_ratio 15 10) = raise ValueError)).
Proof.
  split; [vm_compute; reflexivity|].
  apply (format_srt_time_raises_iff_not_finite (PyFloat.of_ratio 15 10)).
  vm_compute. reflexivity.
Defined.







(** A carriage return inside a segment text does not survive the file: it
    is written as it is and read back as a newline, so the decoded text has
    two lines where the segment text had one. *)
Lemma read_turns_carriage_return_into_newline :
  forallb clean_segment cr_segments = false
  /\ snd (LessonPipeline.transcribe_audio cr_segments) = inr tt
  /\ LessonPipeline.srt_to_text (fst (LessonPipeline.transcribe_audio cr_segments))
     = String "a" (String cr "b")
  /\ LessonPipeline.srt_to_text
       (read (fst (LessonPipeline.transcribe_audio cr_segments)))
     = "a" ++ PyStr.nl ++ "b".
Proof.
  repeat split; vm_compute; reflexivity.
Qed.

(** X5. [srt_to_text] drops an index line followed by a timing line at the
    head of the text, whatever follows them. *)
Theorem srt_to_text_drops_leading_markup (index t0 t1 rest : string) :
  all_chars PyStr.isdigit index = true -> index <> EmptyString ->
  is_timestamp t0 = true -> is_timestamp t1 = true ->
  LessonPipeline.srt_to_text
    (index ++ PyStr.nl ++ t0 ++ " --> " ++ t1 ++ PyStr.nl ++ rest)
  = LessonPipeline.srt_to_text rest.
Proof.
  intros Hd Hn H0 H1. unfold LessonPipeline.srt_to_text.
  assert (Hl : (1 <= String.length index)%nat).
  { destruct index; [contradiction|cbn; lia]. }
  pose proof (markup_match _ t0 t1 rest Hd Hl H0 H1) as Hm.
  assert (E : index ++ PyStr.nl ++ t0 ++ " --> " ++ t1 ++ PyStr.nl ++ rest
              = (index ++ PyStr.nl ++ t0 ++ " --> " ++ t1 ++ PyStr.nl) ++ rest).
  { rewrite !append_assoc. reflexivity. }
  rewrite E in *. clear E. destruct index as [|c d]; [contradiction|].
  pose proof (sub_match _ "" c (d ++ PyStr.nl ++ t0 ++ " --> " ++ t1 ++ PyStr.nl) rest Hm)
    as Es.
  cbv zeta. f_equal. f_equal. exact Es.
Qed.

Lemma srt_to_text_drops_leading_markup_witness :
  all_chars PyStr.isdigit "12" = true /\ "12" <> EmptyString
  /\ is_timestamp "00:00:01,500" = true /\ is_timestamp "00:01:02,003" = true
  /\ LessonPipeline.srt_to_text
       ("12" ++ PyStr.nl ++ "00:00:01,500" ++ " --> " ++ "00:01:02,003" ++ PyStr.nl
          ++ "hello")
     = LessonPipeline.srt_to_text "hello".
Proof.
  split; [reflexivity|]. split; [discriminate|].
  split; [reflexivity|]. split; [reflexivity|].
  apply (srt_to_text_drops_leading_markup "12" "00:00:01,500" "00:01:02,003" "hello");
    [reflexivity|discriminate|reflexivity|reflexivity].
Defined.

(** X6. Whatever it reads, [srt_to_text] writes a text with no empty line
    in it and with no white space at either end. *)
Theorem srt_to_text_output_shape (srt_content : string) :
  PyStr.has_blank_line (LessonPipeline.srt_to_text srt_content) = false
  /\ PyStr.strip (LessonPipeline.srt_to_text srt_content)
     = LessonPipeline.srt_to_text srt_content
  /\ match LessonPipeline.srt_to_text srt_content with
     | String c _ => PyStr.isspace c = false
     | EmptyString => True
     end
  /\ PyStr.rstrip (LessonPipeline.srt_to_text srt_content)
     = LessonPipeline.srt_to_text srt_content.
Proof.
  unfold LessonPipeline.srt_to_text. cbv zeta. repeat split.
  - apply has_blank_line_strip, collapse_no_blank.
  - apply strip_idem.
  - apply strip_head.
  - unfold PyStr.strip. apply rstrip_idem.
Qed.

(** X7. [srt_to_text] never writes more characters than it read. *)
Theorem srt_to_text_not_longer (srt_content : string) :
  (String.length (LessonPipeline.srt_to_text srt_content)
   <= String.length srt_content)%nat.
Proof.
  unfold LessonPipeline.srt_to_text. cbv zeta.
  eapply Nat.le_trans; [apply strip_length|].
  eapply Nat.le_trans.
  - apply (sub_aux_length Re.empty_lines PyStr.nl);
      [apply Nat.le_refl|exact empty_lines_not_empty].
  - apply (sub_aux_length Re.index_and_timing "");
      [apply Nat.le_0_l|exact index_and_timing_not_empty].
Qed.

(** X8. The loop of [transcribe_audio] on two lists of segments in a row:
    when it runs to the end of the first list it goes on as on the second
    list alone, after the text of the first; when it stops in the first
    list the second is not read. *)
Theorem transcribe_audio_app (first second : list Segment) :
  LessonPipeline.transcribe_audio (first ++ second)
  = match LessonPipeline.transcribe_audio first with
    | (text, inr _) =>
        (text ++ fst (LessonPipeline.transcribe_audio second),
         snd (LessonPipeline.transcribe_audio second))
    | (text, inl e) => (text, inl e)
    end.
Proof.
  unfold LessonPipeline.transcribe_audio. rewrite write_segments_app.
  destruct (LessonPipeline.write_segments "" first) as [text [e|u]]; [reflexivity|].
  apply write_segments_from.
Qed.

(** X9. In [lesson_pipeline.py] the files that [extract_mp3],
    [replace_audio] and [transcribe_audio] write are named after the stem
    of the base name of the input, that is the root that [splitext] gives
    for it, whatever directory the input is in, and lie directly in
    [data/mp3], [data/processed_videos], [transcripts/txt] and
    [transcripts/srt]: the stem and the extension have no separator.  When
    an input file is missing the command prints its message and names no
    output; when the files are there it names exactly that output. *)
Theorem lesson_pipeline_outputs_in_directories
        (isfile : string -> bool) (dir input_path enhanced_wav_path : string) :
  let stem := fst (PyPath.splitext (PyPath.basename input_path)) in
  let ext := snd (PyPath.splitext (PyPath.basename input_path)) in
  PyPath.basename input_path = stem ++ ext
  /\ PyPath.basename (dir ++ "/" ++ input_path) = PyPath.basename input_path
  /\ PyPath.rfind "/" stem = -1
  /\ PyPath.rfind "/" ext = -1
  /\ LessonPipelineCommands.extract_mp3 isfile input_path
     = (if isfile input_path
        then Output ("data/mp3/" ++ stem ++ ".mp3")
        else NotFound ("File not found: " ++ input_path))
  /\ LessonPipelineCommands.replace_audio isfile input_path enhanced_wav_path
     = (if isfile input_path
        then if isfile enhanced_wav_path
             then Output ("data/processed_videos/" ++ stem ++ "_enhanced" ++ ext)
             else NotFound ("Enhanced WAV file not found: " ++ enhanced_wav_path)
        else NotFound ("Video file not found: " ++ input_path))
  /\ LessonPipelineCommands.transcribe_audio_paths isfile input_path
     = (if isfile input_path
        then Output ("transcripts/txt/" ++ stem ++ ".txt",
                     "transcripts/srt/" ++ stem ++ ".srt")
        else NotFound ("File not found: " ++ input_path)).
Proof.
  intros stem ext.
  unfold LessonPipelineCommands.extract_mp3, LessonPipelineCommands.replace_audio,
    LessonPipelineCommands.transcribe_audio_paths.
  pose proof (splitext_app (PyPath.basename input_path)) as Ha.
  pose proof (splitext_no_sep _ (basename_no_sep input_path)) as [Hs He].
  fold stem ext in Ha, Hs, He.
  assert (Es : PyPath.splitext (PyPath.basename input_path) = (stem, ext)).
  { unfold stem, ext. destruct (PyPath.splitext (PyPath.basename input_path)); reflexivity. }
  rewrite Es.
  assert (Hj : forall d e, PyPath.rfind "/" e = -1 ->
             (String.eqb d "" || PyPath.endswith_sep d)%bool = false ->
             PyPath.join d (stem ++ e) = d ++ "/" ++ stem ++ e).
  { intros d e Hn Hd. apply join_name; [|exact Hd].
    apply no_sep_start, rfind_none_app. split; assumption. }
  assert (Hn : PyPath.rfind "/" ("_enhanced" ++ ext) = -1).
  { apply rfind_none_app. split; [reflexivity|exact He]. }
  split; [symmetry; exact Ha|].
  split; [apply (basename_after_sep dir input_path)|].
  split; [exact Hs|]. split; [exact He|].
  rewrite (Hj LessonPipelineCommands.MP3_DIR ".mp3" eq_refl eq_refl).
  rewrite (Hj LessonPipelineCommands.PROCESSED_VIDEO_DIR ("_enhanced" ++ ext) Hn eq_refl).
  rewrite (Hj LessonPipelineCommands.TXT_DIR ".txt" eq_refl eq_refl).
  rewrite (Hj LessonPipelineCommands.SRT_DIR ".srt" eq_refl eq_refl).
  destruct (isfile input_path), (isfile enhanced_wav_path); repeat split.
Qed.

(** X10. [combine_videos] of [lesson_pipeline.py] keeps only the file name
    of the output it is asked for: the directory of [output_path] is
    dropped, the video is written directly in [data/processed_videos], and
    to [combined.mp4] there when no output is given. *)
Theorem combine_videos_keeps_only_the_name
        (isfile : string -> bool) (video1_path video2_path dir name : string) :
  LessonPipelineCommands.combine_videos isfile video1_path video2_path
    (Some (dir ++ "/" ++ name))
  = LessonPipelineCommands.combine_videos isfile video1_path video2_path (Some name)
  /\ match LessonPipelineCommands.combine_videos isfile video1_path video2_path
             (Some name) with
     | Output output_path =>
         output_path = "data/processed_videos/" ++ PyPath.basename name
         /\ PyPath.rfind "/" (PyPath.basename name) = -1
     | NotFound _ => isfile video1_path = false \/ isfile video2_path = false
     end
  /\ match LessonPipelineCommands.combine_videos isfile video1_path video2_path None with
     | Output output_path => output_path = "data/processed_videos/combined.mp4"
     | NotFound _ => isfile video1_path = false \/ isfile video2_path = false
     end.
Proof.
  unfold LessonPipelineCommands.combine_videos.
  change (dir ++ "/" ++ name) with (dir ++ String "/" name).
  rewrite basename_after_sep. split; [reflexivity|].
  destruct (isfile video1_path); cbn [negb]; [|split; left; reflexivity].
  destruct (isfile video2_path); cbn [negb]; [|split; right; reflexivity].
  split; [|reflexivity]. split; [|apply basename_no_sep].
  apply join_name; [|reflexivity]. apply no_sep_start, basename_no_sep.
Qed.

(** X11. [extract_mp3] of [extract_mp3.py] writes to the path it reads
    exactly when the input is a file named without a directory and with the
    extension [.mp3]. *)
Theorem extract_mp3_output_is_input (isfile : string -> bool) (input_path : string) :
  ExtractMp3Commands.extract_mp3 isfile input_path = Output input_path
  <-> isfile input_path = true
      /\ PyPath.rfind "/" input_path = -1
      /\ snd (PyPath.splitext input_path) = ".mp3".
Proof.
  unfold ExtractMp3Commands.extract_mp3.
  pose proof (stem_ext_eq input_path ".mp3" eq_refl) as H.
  destruct (PyPath.splitext (PyPath.basename input_path)) as [stem ext].
  cbn [fst] in H. destruct (isfile input_path); cbn [negb].
  - split.
    + intros E. injection E as E. split; [reflexivity|]. apply H, E.
    + intros [_ E]. f_equal. apply H, E.
  - split; [discriminate|]. intros [E _]. discriminate E.
Qed.

(** X12. [extract_mp3] of [lesson_pipeline.py] writes to the path it reads
    exactly when the input is a file [data/mp3/<name>] with no further
    directory and with the extension [.mp3]. *)
Theorem lesson_extract_mp3_output_is_input
        (isfile : string -> bool) (input_path : string) :
  LessonPipelineCommands.extract_mp3 isfile input_path = Output input_path
  <-> isfile input_path = true
      /\ exists name, input_path = "data/mp3/" ++ name
                      /\ PyPath.rfind "/" name = -1
                      /\ snd (PyPath.splitext name) = ".mp3".
Proof.
  unfold LessonPipelineCommands.extract_mp3.
  destruct (isfile input_path); cbn [negb];
    [|split; [discriminate|intros [E _]; discriminate E]].
  pose proof (stem_no_sep input_path ".mp3" eq_refl) as Hn.
  assert (Hj : forall stem, PyPath.rfind "/" (stem ++ ".mp3") = -1 ->
                 PyPath.join LessonPipelineCommands.MP3_DIR (stem ++ ".mp3")
                 = "data/mp3" ++ "/" ++ stem ++ ".mp3").
  { intros stem H. apply join_name; [apply no_sep_start, H|reflexivity]. }
  split.
  - destruct (PyPath.splitext (PyPath.basename input_path)) as [stem ext] eqn:Es.
    cbn [fst] in Hn. rewrite (Hj _ Hn). intros E0.
    assert (E : "data/mp3" ++ "/" ++ stem ++ ".mp3" = input_path).
    { injection E0 as E0. exact E0. }
    clear E0. split; [reflexivity|]. exists (stem ++ ".mp3").
    split; [symmetry; exact E|]. split; [exact Hn|].
    rewrite <- E, (basename_in_dir _ _ Hn) in Es.
    pose proof (splitext_app (stem ++ ".mp3")) as Ha. rewrite Es in *. cbn [fst snd] in *.
    apply append_inv_l in Ha. exact Ha.
  - intros [_ (name & -> & Hname & Hx)].
    change ("data/mp3/" ++ name) with ("data/mp3" ++ "/" ++ name).
    rewrite (basename_in_dir "data/mp3" name Hname).
    pose proof (splitext_app name) as Ha.
    destruct (PyPath.splitext name) as [stem ext]. cbn [fst snd] in *. subst ext.
    rewrite Ha. f_equal. apply join_name; [apply no_sep_start, Hname|reflexivity].
Qed.

(** X13. Neither script's [replace_audio] writes the new video to the path
    of the video it reads: the name it makes has no directory and is nine
    characters longer than the name of the input. *)
Theorem replace_audio_output_is_not_input
        (isfile : string -> bool) (input_video_path enhanced_wav_path : string) :
  ExtractMp3Commands.replace_audio isfile input_video_path enhanced_wav_path
  <> Output input_video_path
  /\ LessonPipelineCommands.replace_audio isfile input_video_path enhanced_wav_path
     <> Output input_video_path.
Proof.
  unfold ExtractMp3Commands.replace_audio, LessonPipelineCommands.replace_audio.
  pose proof (enhanced_longer input_video_path) as H.
  destruct (PyPath.splitext (PyPath.basename input_video_path)) as [filename ext].
  destruct H as [Hn Hd].
  destruct (isfile input_video_path); cbn [negb]; [|split; discriminate].
  destruct (isfile enhanced_wav_path); cbn [negb]; [|split; discriminate].
  split; intros E0; apply Hd.
  - assert (E : filename ++ "_enhanced" ++ ext = input_video_path).
    { injection E0 as E0. exact E0. }
    rewrite <- E. symmetry. apply basename_fixed, Hn.
  - assert (E : PyPath.join LessonPipelineCommands.PROCESSED_VIDEO_DIR
                  (filename ++ "_enhanced" ++ ext) = input_video_path).
    { injection E0 as E0. exact E0. }
    rewrite (join_name LessonPipelineCommands.PROCESSED_VIDEO_DIR _
               (no_sep_start _ Hn) eq_refl) in E.
    rewrite <- E. symmetry. apply basename_in_dir, Hn.
Qed.

(** X14. [transcribe_audio] of [extract_mp3.py] writes the transcript and
    the SRT to two different paths; the transcript goes to the path of the
    input exactly when the input is named without a directory and with the
    extension [.txt], the SRT exactly when it is named without a directory
    and with the extension [.srt]. *)
Theorem transcribe_audio_paths_and_input (isfile : string -> bool) (input_path : string) :
  match ExtractMp3Commands.transcribe_audio_paths isfile input_path with
  | Output (transcript_path, srt_path) =>
      transcript_path <> srt_path
      /\ (transcript_path = input_path
          <-> PyPath.rfind "/" input_path = -1
              /\ snd (PyPath.splitext input_path) = ".txt")
      /\ (srt_path = input_path
          <-> PyPath.rfind "/" input_path = -1
              /\ snd (PyPath.splitext input_path) = ".srt")
  | NotFound _ => isfile input_path = false
  end.
Proof.
  unfold ExtractMp3Commands.transcribe_audio_paths.
  destruct (isfile input_path); cbn [negb]; [|reflexivity].
  split; [|split].
  - intros E. apply append_inv_l in E. discriminate E.
  - apply stem_ext_eq. reflexivity.
  - apply stem_ext_eq. reflexivity.
Qed.

(** X15. When neither [--clean-srt] nor [--srt-to-text] is given, [main] of
    [lesson_pipeline.py] makes the call that [main] of [extract_mp3.py]
    makes on the same arguments. *)
Theorem main_agrees_without_new_options (args : Args) :
  args_clean_srt args = None -> args_srt_to_text args = None ->
  LessonPipelineCommands.main args = ExtractMp3Commands.main args.
Proof.
  unfold LessonPipelineCommands.main, ExtractMp3Commands.main. intros -> ->.
  reflexivity.
Qed.

Lemma main_agrees_without_new_options_witness :
  args_clean_srt (mkArgs (Some "lesson.mkv") None None true "base" None None None) = None
  /\ args_srt_to_text (mkArgs (Some "lesson.mkv") None None true "base" None None None)
     = None
  /\ LessonPipelineCommands.main
       (mkArgs (Some "lesson.mkv") None None true "base" None None None)
     = ExtractMp3Commands.main
         (mkArgs (Some "lesson.mkv") None None true "base" None None None).
Proof.
  split; [reflexivity|]. split; [reflexivity|].
  apply (main_agrees_without_new_options
           (mkArgs (Some "lesson.mkv") None None true "base" None None None));
    reflexivity.
Defined.

(** X16. The options that [lesson_pipeline.py] adds never take the place of
    an older command: whenever [main] of [extract_mp3.py] combines,
    replaces the audio or transcribes, [main] of [lesson_pipeline.py] makes
    the same call, whatever [--clean-srt] and [--srt-to-text] hold; and
    [--clean-srt] goes before [--srt-to-text], which goes before the
    extraction of the MP3. *)
Theorem main_new_options_come_last (args : Args) :
  match ExtractMp3Commands.main args with
  | call_extract_mp3 _ | call_print_help =>
      match args_clean_srt args, args_srt_to_text args with
      | Some (srt_path, output_srt_path), _ =>
          LessonPipelineCommands.main args
          = call_clean_srt_with_openai srt_path output_srt_path (args_prompt args)
      | None, Some (srt_path, output_txt_path) =>
          LessonPipelineCommands.main args = call_srt_to_text srt_path output_txt_path
      | None, None => LessonPipelineCommands.main args = ExtractMp3Commands.main args
      end
  | c => LessonPipelineCommands.main args = c
  end.
Proof.
  unfold LessonPipelineCommands.main, ExtractMp3Commands.main.
  destruct (args_combine args) as [[[v1 v2] out]|]; [reflexivity|].
  destruct (args_replace_audio args) as [[|c w]|], (args_transcribe args);
    try reflexivity;
    destruct (args_input_file args) as [[|c' p]|];
    destruct (args_clean_srt args) as [[s o]|];
    destruct (args_srt_to_text args) as [[s' o']|]; reflexivity.
Qed.

(** X17. An empty string given to [--replace-audio] counts as no option at
    all in both scripts, and an empty input file name alone makes both
    print the help. *)
Theorem main_empty_strings
        (input_file : option string) (combine : option (string * string * string))
        (transcribe : bool) (model : string) (clean_srt : option (string * string))
        (prompt : option string) (srt_to_text : option (string * string)) :
  LessonPipelineCommands.main
    (mkArgs input_file (Some "") combine transcribe model clean_srt prompt srt_to_text)
  = LessonPipelineCommands.main
      (mkArgs input_file None combine transcribe model clean_srt prompt srt_to_text)
  /\ ExtractMp3Commands.main
       (mkArgs input_file (Some "") combine transcribe model clean_srt prompt srt_to_text)
     = ExtractMp3Commands.main
         (mkArgs input_file None combine transcribe model clean_srt prompt srt_to_text)
  /\ LessonPipelineCommands.main (mkArgs (Some "") None None false model None prompt None)
     = call_print_help
  /\ ExtractMp3Commands.main
       (mkArgs (Some "") None None false model clean_srt prompt srt_to_text)
     = call_print_help.
Proof. repeat split. Qed.

(** X18. For a double from 0 up to [2^53], [format_srt_time] of both
    scripts is exact in the hours, the minutes and the seconds: with [X] the
    value of the double in units of [2^-1074] and [U = 2^1074], they are
    [X / 3600U], [(X mod 3600U) / 60U] and [(X mod 60U) / U].  The
    milliseconds are those of the value, [(X mod U) * 1000 / U], or one more,
    and at most 999; when they are those of the value the text is the one
    of the formula of the specification on [X / U]. *)
Theorem format_srt_time_exact_fields (seconds : PyFloat.float) :
  nonneg seconds = true ->
  PyFloat.ltb seconds (PyFloat.of_Z (2 ^ 53)) = true ->
  let X := scaled seconds in
  let U := 2 ^ 1074 in
  exists ms,
    LessonPipeline.format_srt_time seconds
    = ret (PyStr.format_int 2 (X / (3600 * U)) ++ ":"
             ++ PyStr.format_int 2 (X mod (3600 * U) / (60 * U)) ++ ":"
             ++ PyStr.format_int 2 (X mod (60 * U) / U) ++ ","
             ++ PyStr.format_int 3 ms)
    /\ ExtractMp3.format_srt_time seconds = LessonPipeline.format_srt_time seconds
    /\ X mod U * 1000 / U <= ms <= X mod U * 1000 / U + 1
    /\ 0 <= ms <= 999
    /\ (ms = X mod U * 1000 / U ->
        LessonPipeline.format_srt_time seconds = ret (spec_format_srt_time X U)).
Proof.
  intros Hn Hl X U.
  assert (Hc : nonneg (PyFloat.of_Z (2 ^ 53)) = true) by (vm_compute; reflexivity).
  assert (Hs : scaled (PyFloat.of_Z (2 ^ 53)) = 2 ^ 53 * 2 ^ 1074) by (vm_compute; reflexivity).
  pose proof (ltb_scaled _ _ Hn Hc Hl) as Hlt. rewrite Hs in Hlt.
  destruct (format_srt_time_fields seconds Hn Hlt) as (ms & E & Hms1 & Hms2).
  fold X U in E, Hms1. exists ms. split; [exact E|]. split; [reflexivity|].
  split; [exact Hms1|]. split; [exact Hms2|].
  intros ->. rewrite E. unfold spec_format_srt_time. reflexivity.
Qed.

Lemma format_srt_time_exact_fields_witness :
  nonneg seconds_3661_999 = true
  /\ PyFloat.ltb seconds_3661_999 (PyFloat.of_Z (2 ^ 53)) = true
  /\ exists ms,
       LessonPipeline.format_srt_time seconds_3661_999
       = ret (PyStr.format_int 2 (scaled seconds_3661_999 / (3600 * 2 ^ 1074)) ++ ":"
                ++ PyStr.format_int 2
                     (scaled seconds_3661_999 mod (3600 * 2 ^ 1074) / (60 * 2 ^ 1074))
                ++ ":"
                ++ PyStr.format_int 2 (scaled seconds_3661_999 mod (60 * 2 ^ 1074) / 2 ^ 1074)
                ++ "," ++ PyStr.format_int 3 ms)
       /\ ExtractMp3.format_srt_time seconds_3661_999
          = LessonPipeline.format_srt_time seconds_3661_999
       /\ scaled seconds_3661_999 mod 2 ^ 1074 * 1000 / 2 ^ 1074 <= ms
          <= scaled seconds_3661_999 mod 2 ^ 1074 * 1000 / 2 ^ 1074 + 1
       /\ 0 <= ms <= 999
       /\ (ms = scaled seconds_3661_999 mod 2 ^ 1074 * 1000 / 2 ^ 1074 ->
           LessonPipeline.format_srt_time seconds_3661_999
           = ret (spec_format_srt_time (scaled seconds_3661_999) (2 ^ 1074))).
Proof.
  split; [vm_compute; reflexivity|]. split; [vm_compute; reflexivity|].
  apply (format_srt_time_exact_fields seconds_3661_999); vm_compute; reflexivity.
Defined.

(** X19. A time from 0 up to 360000 seconds is formatted by both scripts
    without an exception, as a text of twelve characters [dd:dd:dd,ddd] that
    the pattern of [srt_to_text] takes for a time. *)
Theorem format_srt_time_subtitle_time (seconds : PyFloat.float) :
  subtitle_time seconds = true ->
  exists t, LessonPipeline.format_srt_time seconds = ret t
            /\ ExtractMp3.format_srt_time seconds = ret t
            /\ is_timestamp t = true /\ String.length t = 12%nat.
Proof.
  intros H. destruct (subtitle_time_text seconds H) as (E & Ht & Hl).
  exists (LessonPipeline.time_text seconds). repeat split; assumption.
Qed.

Lemma format_srt_time_subtitle_time_witness :
  subtitle_time seconds_3661_999 = true
  /\ exists t, LessonPipeline.format_srt_time seconds_3661_999 = ret t
               /\ ExtractMp3.format_srt_time seconds_3661_999 = ret t
               /\ is_timestamp t = true /\ String.length t = 12%nat.
Proof.
  split; [vm_compute; reflexivity|].
  apply (format_srt_time_subtitle_time seconds_3661_999). vm_compute. reflexivity.
Defined.


